(** * 16x16 LED matrix game: driver, sensor mapping and menu selection

    A shallow embedding of the WS2812 strip driver ([src/WS2812.c]), of the
    game firmware built on it (the C++ main file, here [Module Game]) and of
    the older stand-alone C firmware (here [Module Legacy]), followed by the
    properties established about them.

    Conventions.
    - C integers are [Z]; conversions to a fixed width are written out
      ([to_uint8], [to_uint16], [to_uint32]).  C's [/] and [%] on [int] are
      [Z.quot] and [Z.rem].
    - A pointer that may be [NULL] is an [option]; an array is a [list]
      read with [!!] and written with [<[ i := x ]>]; an access through a
      null pointer or outside an array is the outcome [Fault].
    - Static locals and globals are threaded explicitly; what the hardware
      or the allocator answers is an argument of the function that asks. *)

From Stdlib Require Import ZArith Lia List String.
From stdpp Require Import base list.
Import ListNotations.
Local Open Scope Z_scope.

(** ** Fixed-width conversions *)

Definition to_uint8 (z : Z) : Z := z mod 256.
Definition to_uint16 (z : Z) : Z := z mod 65536.
Definition to_uint32 (z : Z) : Z := z mod 4294967296.

(** ** Outcomes of code that can access memory wrongly *)

Inductive outcome (A : Type) : Type :=
| Fault
| Done (a : A).
Arguments Fault {A}.
Arguments Done {A} a.

Definition obind {A B : Type} (m : outcome A) (k : A -> outcome B)
  : outcome B :=
  match m with
  | Fault => Fault
  | Done a => k a
  end.

Notation "'do' x <- m ; k" := (obind m (fun x => k))
  (at level 10, x name, m at level 100, k at level 200).

(** [*p] for a pointer [p] that may be null. *)
Definition deref {A : Type} (p : option A) : outcome A :=
  match p with
  | Some a => Done a
  | None => Fault
  end.

(** [a[i]] and [a[i] = x] on an array of [length a] cells. *)
Definition load {A : Type} (a : list A) (i : nat) : outcome A :=
  deref (a !! i).

Definition store {A : Type} (a : list A) (i : nat) (x : A)
  : outcome (list A) :=
  if decide (i < length a)%nat then Done (<[ i := x ]> a) else Fault.

(** ** The pulse peripheral (RMT) as the drivers see it *)

(** One [rmt_item32_t]: a level and a duration in ticks, twice. *)
Record rmt_item32_t : Type := mk_item {
  level0 : Z;
  duration0 : Z;
  level1 : Z;
  duration1 : Z
}.

(** What a driver asks of the peripheral, the allocator, the logger and
    the scheduler, in the order of the calls.  [TaskDelayMs ms] is
    [vTaskDelay(pdMS_TO_TICKS(ms))] and [TaskDelayMsByPeriod ms] is
    [vTaskDelay(ms / portTICK_PERIOD_MS)]; the tick rate is configuration
    outside the repository. *)
Inductive hw_event : Type :=
| LogError (msg : string)
| RmtConfig (channel clk_div : Z)
| RmtDriverInstall (channel : Z)
| RmtDriverUninstall (channel : Z)
| RmtWriteItems (channel : Z) (items : list rmt_item32_t) (num_items : Z)
| RmtWaitTxDone (channel : Z)
| FreeItems
| FreePixels
| FreeStrip
| TaskDelayMs (ms : Z)
| TaskDelayMsByPeriod (ms : Z).

(** The peripheral counts periods of the 80 MHz APB clock divided by
    [clk_div].  The frequency belongs to the chip, not to the repository;
    [ws2812_init] relies on it where it sets [clk_div = 2] for a
    "40MHz clock".  Durations are kept in picoseconds so that the 12.5 ns
    period of divider 1 is an integer. *)
Definition APB_CLK_HZ : Z := 80000000.

Definition tick_ps (clk_div : Z) : Z := clk_div * 1000000000000 / APB_CLK_HZ.

Definition high_ps (clk_div : Z) (it : rmt_item32_t) : Z :=
  duration0 it * tick_ps clk_div.
Definition low_ps (clk_div : Z) (it : rmt_item32_t) : Z :=
  duration1 it * tick_ps clk_div.

(** The nominal bit period of the protocol: 400 + 850 = 800 + 450 ns. *)
Definition BIT_PERIOD_PS : Z := 1250000.

(** ** The bit loop both drivers share

    [for (int bit = 7; bit >= 0; bit--)
       { cell = (byte & (1 << bit)) ? one : zero; next cell }]
    appears in [ws2812_write_byte] and in the older [ws2812_write] with
    different durations in [one] and [zero] and nothing else changed. *)

(** [byte & (1 << bit)] taken as a condition. *)
Definition bit_set (byte : Z) (bit : nat) : bool :=
  negb (Z.land byte (Z.shiftl 1 (Z.of_nat bit)) =? 0).

(** The loop with [n] bits left to send, that is [bit = n - 1] next,
    writing at cell [item] of the buffer. *)
Fixpoint write_bits (one zero : rmt_item32_t) (n : nat) (byte : Z)
    (item : nat) (buf : list rmt_item32_t) : outcome (list rmt_item32_t) :=
  match n with
  | O => Done buf
  | S bit =>
      do buf' <- store buf item (if bit_set byte bit then one else zero);
      write_bits one zero bit byte (S item) buf'
  end.

(** ** The strip driver ([src/WS2812.c]) *)

Module WS2812.

Definition WS2812_T0H_NS : Z := 400.
Definition WS2812_T0L_NS : Z := 850.
Definition WS2812_T1H_NS : Z := 800.
Definition WS2812_T1L_NS : Z := 450.

(** [config.clk_div = 2] in [ws2812_init]. *)
Definition clk_div : Z := 2.

Record ws2812_pixel_t : Type := mk_pixel { r : Z; g : Z; b : Z }.

Record ws2812_t : Type := mk_strip {
  channel : Z;
  gpio : Z;
  pixel_count : Z;
  pixels : option (list ws2812_pixel_t);
  brightness : Z
}.

Definition black : ws2812_pixel_t := mk_pixel 0 0 0.

Definition with_pixels (s : ws2812_t) (px : list ws2812_pixel_t) : ws2812_t :=
  {| channel := channel s; gpio := gpio s; pixel_count := pixel_count s;
     pixels := Some px; brightness := brightness s |}.

Definition with_brightness (s : ws2812_t) (level : Z) : ws2812_t :=
  {| channel := channel s; gpio := gpio s; pixel_count := pixel_count s;
     pixels := pixels s; brightness := level |}.

(** [ws2812_init]; the two flags tell whether [malloc] and [calloc]
    succeed.  [ESP_ERROR_CHECK] is taken to pass.  The parameter
    [pixel_count] is a [uint16_t]: what the caller passes is converted. *)
Definition ws2812_init (malloc_ok calloc_ok : bool)
    (count gpio_num chan : Z) : option ws2812_t * list hw_event :=
  let count := to_uint16 count in
  if malloc_ok then
    if calloc_ok then
      (Some {| channel := chan; gpio := gpio_num; pixel_count := count;
               pixels := Some (replicate (Z.to_nat count) black);
               brightness := 255 |},
       [RmtConfig chan clk_div; RmtDriverInstall chan])
    else (None, [LogError "Failed to allocate memory for pixel buffer";
                 FreeStrip])
  else (None, [LogError "Failed to allocate memory for WS2812 strip"]).

Definition ws2812_free (strip : option ws2812_t) : list hw_event :=
  match strip with
  | Some s =>
      RmtDriverUninstall (channel s)
        :: match pixels s with
           | Some _ => [FreePixels; FreeStrip]
           | None => [FreeStrip]
           end
  | None => []
  end.

Definition ws2812_set_brightness (strip : option ws2812_t) (level : Z)
  : outcome (option ws2812_t) :=
  match strip with
  | Some s => Done (Some (with_brightness s level))
  | None => Done None
  end.

(** The channels of a [ws2812_pixel_t] are [uint8_t]: a colour as a
    caller hands it over, converted. *)
Definition as_pixel (color : ws2812_pixel_t) : ws2812_pixel_t :=
  mk_pixel (to_uint8 (r color)) (to_uint8 (g color)) (to_uint8 (b color)).

(** [ws2812_set_pixel_rgb]; the parameter [index] is a [uint16_t]. *)
Definition ws2812_set_pixel_rgb (strip : option ws2812_t) (index : Z)
    (color : ws2812_pixel_t) : outcome (option ws2812_t) :=
  let index := to_uint16 index in
  match strip with
  | Some s =>
      if index <? pixel_count s then
        do px <- deref (pixels s);
        do px' <- store px (Z.to_nat index) (as_pixel color);
        Done (Some (with_pixels s px'))
      else Done (Some s)
  | None => Done None
  end.

(** [ws2812_set_pixel]: the same test and the same three stores, with
    [uint16_t index] and [uint8_t r, g, b]. *)
Definition ws2812_set_pixel (strip : option ws2812_t) (index : Z)
    (red green blue : Z) : outcome (option ws2812_t) :=
  ws2812_set_pixel_rgb strip index (mk_pixel red green blue).

(** [ws2812_get_pixel]; the parameter [index] is a [uint16_t]. *)
Definition ws2812_get_pixel (strip : option ws2812_t) (index : Z)
  : outcome ws2812_pixel_t :=
  let index := to_uint16 index in
  match strip with
  | Some s =>
      if index <? pixel_count s then
        do px <- deref (pixels s);
        load px (Z.to_nat index)
      else Done black
  | None => Done black
  end.

(** [memset(strip->pixels, 0, pixel_count * sizeof(ws2812_pixel_t))]. *)
Definition ws2812_clear (strip : option ws2812_t)
  : outcome (option ws2812_t) :=
  match strip with
  | Some s =>
      match pixels s with
      | Some px =>
          let n := Z.to_nat (pixel_count s) in
          if decide (n <= length px)%nat
          then Done (Some (with_pixels s (replicate n black ++ drop n px)))
          else Fault
      | None => Done (Some s)
      end
  | None => Done None
  end.

(** The two pulse pairs, durations in ticks: nanoseconds over 25. *)
Definition item_one : rmt_item32_t :=
  {| level0 := 1; duration0 := Z.quot WS2812_T1H_NS 25;
     level1 := 0; duration1 := Z.quot WS2812_T1L_NS 25 |}.

Definition item_zero : rmt_item32_t :=
  {| level0 := 1; duration0 := Z.quot WS2812_T0H_NS 25;
     level1 := 0; duration1 := Z.quot WS2812_T0L_NS 25 |}.

(** [ws2812_write_byte(item, byte)]: the bit loop from bit 7 down,
    writing from cell [item] of the buffer on. *)
Definition ws2812_write_byte (buf : list rmt_item32_t) (item : nat)
    (byte : Z) : outcome (list rmt_item32_t) :=
  write_bits item_one item_zero 8 byte item buf.

(** [uint8_t c = (pixel.c * strip->brightness) / 255;] *)
Definition scaled (level channel_value : Z) : Z :=
  to_uint8 (Z.quot (channel_value * level) 255).

(** The pixel loop of [ws2812_show] with [n] pixels left, at pixel [i]
    and buffer cell [item]. *)
Fixpoint show_loop (n : nat) (level : Z) (px : list ws2812_pixel_t)
    (i item : nat) (buf : list rmt_item32_t)
  : outcome (list rmt_item32_t) :=
  match n with
  | O => Done buf
  | S n' =>
      do p <- load px i;
      do buf1 <- ws2812_write_byte buf item (scaled level (g p));
      do buf2 <- ws2812_write_byte buf1 (item + 8) (scaled level (r p));
      do buf3 <- ws2812_write_byte buf2 (item + 16) (scaled level (b p));
      show_loop n' level px (S i) (item + 24) buf3
  end.

(** [ws2812_show]; [malloc_ok] tells whether the item buffer can be
    allocated.  The function is [void]: the caller receives [tt] and the
    events are what the rest of the world sees.  The fresh buffer is
    taken as zeroed; every cell is written before it is sent. *)
Definition ws2812_show (malloc_ok : bool) (strip : option ws2812_t)
  : outcome (unit * list hw_event) :=
  match strip with
  | None => Done (tt, [])
  | Some s =>
      match pixels s with
      | None => Done (tt, [])
      | Some px =>
          let num_items := pixel_count s * 3 * 8 in
          if malloc_ok then
            do items <- show_loop (Z.to_nat (pixel_count s)) (brightness s)
                          px 0 0
                          (replicate (Z.to_nat num_items) (mk_item 0 0 0 0));
            Done (tt, [RmtWriteItems (channel s) items num_items;
                       RmtWaitTxDone (channel s);
                       FreeItems;
                       TaskDelayMs 1])
          else Done (tt, [LogError "Failed to allocate RMT items"])
      end
  end.

(** What the caller of a [void] function has in hand afterwards. *)
Definition returned {A E : Type} (o : outcome (A * E)) : outcome A :=
  do x <- o; Done (fst x).

Definition events {A E : Type} (o : outcome (A * list E)) : list E :=
  match o with
  | Done x => snd x
  | Fault => []
  end.

Definition transmits (e : hw_event) : bool :=
  match e with
  | RmtWriteItems _ _ _ => true
  | _ => false
  end.

(** [ws2812_hsv_to_rgb]; the locals [region], [remainder], [p], [q], [t]
    are [uint8_t], [>> 8] is on [int]. *)
Definition ws2812_hsv_to_rgb (h s v : Z) : ws2812_pixel_t :=
  if s =? 0 then mk_pixel v v v
  else
    let region := to_uint8 (Z.quot h 43) in
    let remainder := to_uint8 ((h - region * 43) * 6) in
    let p := to_uint8 (Z.shiftr (v * (255 - s)) 8) in
    let q := to_uint8
               (Z.shiftr (v * (255 - Z.shiftr (s * remainder) 8)) 8) in
    let t := to_uint8
               (Z.shiftr (v * (255 - Z.shiftr (s * (255 - remainder)) 8)) 8) in
    match region with
    | 0 => mk_pixel v t p
    | 1 => mk_pixel q v p
    | 2 => mk_pixel p v t
    | 3 => mk_pixel p q v
    | 4 => mk_pixel t p v
    | _ => mk_pixel v p q
    end.

(** [ws2812_wheel]; [pos] and the channels are [uint8_t]. *)
Definition ws2812_wheel (pos : Z) : ws2812_pixel_t :=
  if pos <? 85 then
    mk_pixel (to_uint8 (pos * 3)) (to_uint8 (255 - pos * 3)) 0
  else if pos <? 170 then
    let pos := to_uint8 (pos - 85) in
    mk_pixel (to_uint8 (255 - pos * 3)) 0 (to_uint8 (pos * 3))
  else
    let pos := to_uint8 (pos - 170) in
    mk_pixel 0 (to_uint8 (pos * 3)) (to_uint8 (255 - pos * 3)).

(** A strip as [ws2812_init] builds it and the setters keep it, with
    [px] its pixel array. *)
Definition well_formed (s : ws2812_t) (px : list ws2812_pixel_t) : Prop :=
  pixels s = Some px /\
  length px = Z.to_nat (pixel_count s) /\
  0 <= pixel_count s /\
  0 <= brightness s <= 255 /\
  Forall (fun p => 0 <= r p <= 255 /\ 0 <= g p <= 255 /\ 0 <= b p <= 255) px.

End WS2812.

(** ** The game firmware (C++ main file) *)

Module Game.

(** *** The distance sensor *)

Definition MATRIX_WIDTH : Z := 16.
Definition MATRIX_HEIGHT : Z := 16.
Definition LED_COUNT : Z := MATRIX_WIDTH * MATRIX_HEIGHT.
Definition BRIGHTNESS : Z := 50.

Definition MIN_SELECTION_DISTANCE : Z := 100.
Definition MAX_SELECTION_DISTANCE : Z := 350.
Definition SELECTION_HOLD_TIME : Z := 5000.

(** The function-local statics of [read_tof_sensor]. *)
Record tof_state : Type := mk_tof {
  reading_count : Z;
  sim_dist : Z;
  dir : Z
}.

Definition tof_init : tof_state :=
  {| reading_count := 0; sim_dist := 200; dir := 1 |}.

(** What one call of [tof_sensor->read(&distance_mm)] answers: the raw
    millimetre value on success, nothing on failure.  The VL53L0X class
    itself is a collaborator outside this development. *)
Definition hw_read : Type := option Z.

(** Lines printed on the console by [read_tof_sensor]. *)
Inductive console : Type :=
| ToFRaw (mm : Z) (below_min above_max : bool)
| ToFError
| ToFSimulated (mm : Z).

Definition every (n : Z) (count : Z) (line : console) : list console :=
  if Z.rem count n =? 0 then [line] else [].

(** [if (d < 50) d = 50; if (d > 400) d = 400;] *)
Definition clamp_range (distance_mm : Z) : Z :=
  let d := if distance_mm <? 50 then 50 else distance_mm in
  if d >? 400 then 400 else d.

(** The simulated movement: [sim_dist += dir * 5] on a [uint16_t], then
    the two direction tests, in the order of the source. *)
Definition sim_step (st : tof_state) : tof_state :=
  let sim := to_uint16 (sim_dist st + dir st * 5) in
  let d1 := if sim >? 350 then -1 else dir st in
  let d2 := if sim <? 100 then 1 else d1 in
  {| reading_count := reading_count st; sim_dist := sim; dir := d2 |}.

Definition bump (st : tof_state) : tof_state :=
  {| reading_count := reading_count st + 1;
     sim_dist := sim_dist st; dir := dir st |}.

(** [read_tof_sensor]: [usable] is [sensor_initialized && tof_sensor],
    [hw] the answer of the sensor when it is asked. *)
Definition read_tof_sensor (usable : bool) (hw : hw_read) (st : tof_state)
  : Z * tof_state * list console :=
  let fallback (st0 : tof_state) (out0 : list console) :=
    let st1 := sim_step st0 in
    (sim_dist st1, bump st1,
     out0 ++ every 10 (reading_count st1) (ToFSimulated (sim_dist st1))) in
  if usable then
    match hw with
    | Some raw =>
        let distance_mm := to_uint16 raw in
        (clamp_range distance_mm, bump st,
         every 10 (reading_count st)
           (ToFRaw distance_mm (distance_mm <? 50)
                   (negb (distance_mm <? 50) && (distance_mm >? 400))))
    | None =>
        fallback (bump st) (every 20 (reading_count st) ToFError)
    end
  else fallback st [].


(** The arithmetic of [get_sensor_position] on the distance it read:
    [int pos = ((dist - 50) * 15) / 350], then the two clamps. *)
Definition sensor_position (dist : Z) : Z :=
  let pos := Z.quot ((dist - 50) * 15) 350 in
  let pos := if pos <? 0 then 0 else pos in
  if pos >? 15 then 15 else pos.

(** [get_sensor_position]: reads the sensor itself ([tof_debug_mode] is
    the constant [false], so the debug print never fires). *)
Definition get_sensor_position (usable : bool) (hw : hw_read) (st : tof_state)
  : Z * tof_state * list console :=
  let '(dist, st', out) := read_tof_sensor usable hw st in
  (sensor_position dist, st', out).

(** A run of [read_tof_sensor] over the answers of the hardware. *)
Fixpoint read_seq (inputs : list (bool * hw_read)) (st : tof_state)
  : list Z :=
  match inputs with
  | [] => []
  | (usable, hw) :: rest =>
      let '(d, st', _) := read_tof_sensor usable hw st in
      d :: read_seq rest st'
  end.

(** States of the statics that a run from [tof_init] can reach. *)
Inductive tof_reachable : tof_state -> Prop :=
| reach_init : tof_reachable tof_init
| reach_read usable hw st :
    tof_reachable st ->
    tof_reachable (snd (fst (read_tof_sensor usable hw st))).

(** *** The coordinate mapper *)

Definition off_matrix (x y : Z) : bool :=
  (x <? 0) || (x >=? MATRIX_WIDTH) || (y <? 0) || (y >=? MATRIX_HEIGHT).

(** [get_index] as it runs: after the range test comes an unconditional
    [return y * MATRIX_WIDTH + (MATRIX_WIDTH - 1 - x);]. *)
Definition get_index (x y : Z) : Z :=
  if off_matrix x y then -1
  else y * MATRIX_WIDTH + (MATRIX_WIDTH - 1 - x).

(** The statements of [get_index] that follow that [return] and never
    run: "Even rows (0, 2, 4...): right to left", "Odd rows (1, 3,
    5...): left to right". *)
Definition get_index_after_return (x y : Z) : Z :=
  if Z.rem y 2 =? 0 then y * MATRIX_WIDTH + (MATRIX_WIDTH - 1 - x)
  else y * MATRIX_WIDTH + x.

(** *** The display calls, on the global [strip] *)

Definition clear_display (strip : option WS2812.ws2812_t)
  : outcome (option WS2812.ws2812_t) :=
  WS2812.ws2812_clear strip.

Definition set_pixel (strip : option WS2812.ws2812_t) (x y red green blue : Z)
  : outcome (option WS2812.ws2812_t) :=
  let idx := get_index x y in
  if (0 <=? idx) && (idx <? LED_COUNT)
  then WS2812.ws2812_set_pixel strip idx red green blue
  else Done strip.

Definition show_display (malloc_ok : bool) (strip : option WS2812.ws2812_t)
  : outcome (unit * list hw_event) :=
  WS2812.ws2812_show malloc_ok strip.

(** [for (int i = 0; i < count; i++) body(i)] on the strip, with [n]
    passes left and the counter at [i]. *)
Fixpoint for_each (n : nat) (i : Z)
    (body : Z -> option WS2812.ws2812_t -> outcome (option WS2812.ws2812_t))
    (strip : option WS2812.ws2812_t) : outcome (option WS2812.ws2812_t) :=
  match n with
  | O => Done strip
  | S n' => do strip1 <- body i strip; for_each n' (i + 1) body strip1
  end.

Definition for_loop (count : Z)
    (body : Z -> option WS2812.ws2812_t -> outcome (option WS2812.ws2812_t))
    (strip : option WS2812.ws2812_t) : outcome (option WS2812.ws2812_t) :=
  for_each (Z.to_nat count) 0 body strip.

(** [draw_rect]: the filled rectangle row by row, or the outline as two
    rows and then two columns. *)
Definition draw_rect (strip : option WS2812.ws2812_t)
    (x y w h red green blue : Z) (filled : bool)
  : outcome (option WS2812.ws2812_t) :=
  if filled then
    for_loop h (fun i =>
      for_loop w (fun j st => set_pixel st (x + j) (y + i) red green blue))
      strip
  else
    do strip1 <-
      for_loop w (fun i st =>
        do st1 <- set_pixel st (x + i) y red green blue;
        set_pixel st1 (x + i) (y + h - 1) red green blue) strip;
    for_loop h (fun i st =>
      do st1 <- set_pixel st x (y + i) red green blue;
      set_pixel st1 (x + w - 1) (y + i) red green blue) strip1.

(** *** The shooter, [run_invaders] *)

(** The function-local statics of [run_invaders]. *)
Record invaders_state : Type := mk_invaders {
  player_x : Z;
  invaders : list Z;
  bullet_x : Z;
  bullet_y : Z;
  invader_y : Z;
  initialized : bool;
  score : Z;
  high_score : Z;
  last_player_x : Z
}.

(** Their values at start-up; the array of twenty is zeroed. *)
Definition invaders_statics : invaders_state :=
  {| player_x := 7; invaders := replicate 20 0;
     bullet_x := -1; bullet_y := -1; invader_y := 0;
     initialized := false; score := 0; high_score := 0;
     last_player_x := 7 |}.

(** What the shooter asks of the console, and the arguments with which
    it calls the game-over screen. *)
Inductive invaders_event : Type :=
| PrintLegend
| GameOverScreen (final_score best : Z).

(** [for (int i = 0; i < 20; i++) invaders[i] = 1;] with [n] cells left. *)
Fixpoint revive (n : nat) (i : nat) (inv : list Z) : outcome (list Z) :=
  match n with
  | O => Done inv
  | S n' => do inv1 <- store inv i 1; revive n' (S i) inv1
  end.

Definition invader_column (i : nat) : Z := Z.rem (Z.of_nat i) 5 * 3 + 1.
Definition invader_row (i : nat) (inv_y : Z) : Z :=
  Z.quot (Z.of_nat i) 5 * 2 + 1 + inv_y.

(** The collision loop, with [n] invaders left to test from [i] on: the
    first live invader the bullet touches is removed, the bullet is
    spent, the score goes up by one and the loop breaks. *)
Fixpoint hit_scan (n : nat) (i : nat) (st : invaders_state)
  : outcome invaders_state :=
  match n with
  | O => Done st
  | S n' =>
      do alive <- load (invaders st) i;
      if negb (alive =? 0) &&
         ((invader_column i <=? bullet_x st) &&
          (bullet_x st <? invader_column i + 2) &&
          (invader_row i (invader_y st) <=? bullet_y st) &&
          (bullet_y st <? invader_row i (invader_y st) + 2))
      then
        do inv1 <- store (invaders st) i 0;
        Done {| player_x := player_x st; invaders := inv1;
                bullet_x := bullet_x st; bullet_y := -1;
                invader_y := invader_y st; initialized := initialized st;
                score := score st + 1; high_score := high_score st;
                last_player_x := last_player_x st |}
      else hit_scan n' (S i) st
  end.

(** The loop that looks for a live invader. *)
Fixpoint any_alive (n : nat) (i : nat) (inv : list Z) : outcome bool :=
  match n with
  | O => Done false
  | S n' =>
      do alive <- load inv i;
      if negb (alive =? 0) then Done true else any_alive n' (S i) inv
  end.

(** [run_invaders] up to the victory test: the statics after the pass,
    whether the game ended (and [current_mode] went back to [MENU]), and
    the events.  [position] is what [get_sensor_position()] returned. *)
Definition invaders_update (position : Z) (st : invaders_state)
  : outcome (invaders_state * bool * list invaders_event) :=
  do inv0 <- (if initialized st then Done (invaders st)
              else revive 20 0 (invaders st));
  let score0 := if initialized st then score st else 0 in
  let legend := if initialized st then [] else [PrintLegend] in
  let px := if position >? 14 then 14 else position in
  let fire := (bullet_y st <? 0) && (Z.abs (px - last_player_x st) >? 3) in
  let bx := if fire then px + 1 else bullet_x st in
  let by1 := if fire then 13 else bullet_y st in
  let st1 := {| player_x := px; invaders := inv0;
                bullet_x := bx; bullet_y := by1;
                invader_y := invader_y st; initialized := true;
                score := score0; high_score := high_score st;
                last_player_x := px |} in
  do st2 <-
    (if 0 <=? by1 then
       hit_scan 20 0
         {| player_x := px; invaders := inv0;
            bullet_x := bx; bullet_y := by1 - 1;
            invader_y := invader_y st; initialized := true;
            score := score0; high_score := high_score st;
            last_player_x := px |}
     else Done st1);
  do alive <- any_alive 20 0 (invaders st2);
  if alive then Done (st2, false, legend)
  else
    let best := if score st2 >? high_score st2
                then score st2 else high_score st2 in
    Done ({| player_x := player_x st2; invaders := invaders st2;
             bullet_x := bullet_x st2; bullet_y := bullet_y st2;
             invader_y := invader_y st2; initialized := false;
             score := score st2; high_score := best;
             last_player_x := last_player_x st2 |},
          true, legend ++ [GameOverScreen (score st2) best]).

(** The loop that draws the live invaders, with [n] left from [i] on. *)
Fixpoint draw_invaders (n : nat) (i : nat) (st : invaders_state)
    (strip : option WS2812.ws2812_t) : outcome (option WS2812.ws2812_t) :=
  match n with
  | O => Done strip
  | S n' =>
      do alive <- load (invaders st) i;
      do strip1 <-
        (if negb (alive =? 0) && (invader_row i (invader_y st) <? 14)
         then draw_rect strip (invader_column i)
                (invader_row i (invader_y st)) 2 1 0 255 0 true
         else Done strip);
      draw_invaders n' (S i) st strip1
  end.

(** The rendering part of [run_invaders], up to [show_display()]. *)
Definition invaders_render (st : invaders_state)
    (strip : option WS2812.ws2812_t) : outcome (option WS2812.ws2812_t) :=
  do strip1 <- clear_display strip;
  do strip2 <- draw_rect strip1 (player_x st) 14 2 2 0 255 255 true;
  do strip3 <-
    (if 0 <=? bullet_y st
     then set_pixel strip2 (bullet_x st) (bullet_y st) 255 255 0
     else Done strip2);
  draw_invaders 20 0 st strip3.

(** A loop over the frames of an animation, with [n] passes left and
    the counter at [i], changed by [step] after each pass; the hardware
    events of the passes are collected in order. *)
Fixpoint frame_loop (n : nat) (i step : Z)
    (body : Z -> option WS2812.ws2812_t
            -> outcome (option WS2812.ws2812_t * list hw_event))
    (strip : option WS2812.ws2812_t)
  : outcome (option WS2812.ws2812_t * list hw_event) :=
  match n with
  | O => Done (strip, [])
  | S n' =>
      do first <- body i strip;
      do rest <- frame_loop n' (i + step) step body (fst first);
      Done (fst rest, snd first ++ snd rest)
  end.

(** [show_display(); vTaskDelay(ms / portTICK_PERIOD_MS);] *)
Definition show_and_wait (malloc_ok : bool) (ms : Z)
    (strip : option WS2812.ws2812_t)
  : outcome (option WS2812.ws2812_t * list hw_event) :=
  do shown <- show_display malloc_ok strip;
  Done (strip, snd shown ++ [TaskDelayMsByPeriod ms]).

(** [show_game_over_screen(score, high_score)]: forty flashing frames,
    then the fade-out, [for (int brightness = 255; brightness >= 0;
    brightness -= 15)], which is eighteen frames, then a last dark frame.

    Floating point occurs in the red level of the two bars only.  In the
    flashing frames it is [255 * brightness] with [brightness] 1.0 or
    0.5, which is exact: 255, and 127.5 cut to 127 by the conversion to
    [uint8_t].  In the fade-out it is [255 * b] with
    [float b = brightness / 255.0], which depends on rounding: it is the
    argument [fade], a function of [brightness], converted to [uint8_t].

    [mallocs k] tells whether the item buffer of the [k]-th
    [show_display()] of the call, counted from 0, can be allocated. *)
Definition show_game_over_screen (fade : Z -> Z) (mallocs : Z -> bool)
    (final_score best : Z) (strip : option WS2812.ws2812_t)
  : outcome (option WS2812.ws2812_t * list hw_event) :=
  do flash <-
    frame_loop 40 0 1 (fun frame st =>
      do st1 <- clear_display st;
      let red := if Z.rem frame 10 <? 5 then 255 else 127 in
      do st2 <- draw_rect st1 3 2 10 3 red 0 0 false;
      do st3 <- draw_rect st2 3 6 10 3 red 0 0 false;
      do st4 <-
        (if (0 <=? final_score) && (frame >? 10) then
           do st5 <- for_loop (Z.min final_score 16)
                       (fun i st' => set_pixel st' i 14 0 255 0) st3;
           if (final_score >? best) && (Z.rem frame 6 <? 3)
           then draw_rect st5 0 12 16 1 255 255 0 true
           else Done st5
         else Done st3);
      show_and_wait (mallocs frame) 50 st4) strip;
  do faded <-
    frame_loop 18 255 (-15) (fun brightness st =>
      do st1 <- clear_display st;
      let red := to_uint8 (fade brightness) in
      do st2 <- draw_rect st1 3 2 10 3 red 0 0 false;
      do st3 <- draw_rect st2 3 6 10 3 red 0 0 false;
      show_and_wait (mallocs (40 + Z.quot (255 - brightness) 15)) 30 st3)
      (fst flash);
  do st1 <- clear_display (fst faded);
  do shown <- show_display (mallocs 58) st1;
  Done (st1, snd flash ++ snd faded ++ snd shown).

(** [run_invaders]: the update; then, when the game ended, the game-over
    screen, and otherwise the frame.  [mallocs] answers the allocations
    of the pass as in [show_game_over_screen]; the frame of a pass that
    goes on is its only one. *)
Definition run_invaders (fade : Z -> Z) (mallocs : Z -> bool) (position : Z)
    (st : invaders_state) (strip : option WS2812.ws2812_t)
  : outcome (invaders_state * bool * list invaders_event
             * option WS2812.ws2812_t * list hw_event) :=
  do upd <- invaders_update position st;
  let '(st1, over, evs) := upd in
  if over then
    do screen <- show_game_over_screen fade mallocs
                   (score st1) (high_score st1) strip;
    Done (st1, true, evs, fst screen, snd screen)
  else
    do strip1 <- invaders_render st1 strip;
    do shown <- show_display (mallocs 0) strip1;
    Done (st1, false, evs, strip1, snd shown).

(** *** The menu case of [game_task] *)

Inductive game_mode_t : Type := MENU | PONG | FLAPPY | CATCH | INVADERS.

(** The globals the menu case reads and writes. *)
Record menu_state : Type := mk_menu {
  current_mode : game_mode_t;
  menu_selection : Z;
  last_stable_selection : Z;
  selection_start_time : Z
}.

Definition menu_init : menu_state :=
  {| current_mode := MENU; menu_selection := -1;
     last_stable_selection := -1; selection_start_time := 0 |}.

(** What one pass of the loop sees: [sensor_distance], read at the top of
    the loop; the distance read a second time inside
    [get_sensor_position()], from which the position is computed; and the
    value of [esp_timer_get_time()] in microseconds. *)
Record tick : Type := mk_tick {
  tk_distance : Z;
  tk_distance2 : Z;
  tk_time_us : Z
}.

(** [esp_timer_get_time() / 1000] stored in a [uint32_t]. *)
Definition millis (time_us : Z) : Z := to_uint32 (Z.quot time_us 1000).

Definition in_selection_range (sensor_distance : Z) : bool :=
  (MIN_SELECTION_DISTANCE <=? sensor_distance) &&
  (sensor_distance <=? MAX_SELECTION_DISTANCE).

(** [int new_selection = get_sensor_position() / 4;
     if (new_selection > 3) new_selection = 3;] *)
Definition new_selection (t : tick) : Z :=
  let sel := Z.quot (sensor_position (tk_distance2 t)) 4 in
  if sel >? 3 then 3 else sel.

(** The inner [switch (menu_selection)]; no case, no change. *)
Definition mode_of_selection (sel : Z) (cur : game_mode_t) : game_mode_t :=
  if sel =? 0 then PONG
  else if sel =? 1 then FLAPPY
  else if sel =? 2 then CATCH
  else if sel =? 3 then INVADERS
  else cur.

Definition reset_selection (mode : game_mode_t) : menu_state :=
  {| current_mode := mode; menu_selection := -1;
     last_stable_selection := -1; selection_start_time := 0 |}.

(** [uint32_t elapsed = current_time - selection_start_time;] *)
Definition elapsed (start : Z) (t : tick) : Z :=
  to_uint32 (millis (tk_time_us t) - start).

(** The body of [case MENU:], up to [draw_menu()].  The flag tells
    whether this pass took the "Selection confirmed!" branch. *)
Definition menu_case (t : tick) (s : menu_state) : menu_state * bool :=
  if in_selection_range (tk_distance t) then
    let sel := new_selection t in
    if negb (sel =? last_stable_selection s) then
      ({| current_mode := current_mode s;
          menu_selection := sel;
          last_stable_selection := sel;
          selection_start_time := millis (tk_time_us t) |}, false)
    else
      if SELECTION_HOLD_TIME <=? elapsed (selection_start_time s) t then
        (reset_selection
           (mode_of_selection (menu_selection s) (current_mode s)), true)
      else (s, false)
  else (reset_selection (current_mode s), false).

(** One pass of the loop of [game_task] with the menu shown, sensor
    included: [sensor_distance = read_tof_sensor()] at the top, and in the
    in-range branch the second read made by [get_sensor_position()]. *)
Definition game_task_pass (usable : bool) (hw1 hw2 : hw_read) (time_us : Z)
    (st : tof_state) (s : menu_state) : tof_state * menu_state * bool :=
  let '(sensor_distance, st1, _) := read_tof_sensor usable hw1 st in
  if in_selection_range sensor_distance then
    let '(dist2, st2, _) := read_tof_sensor usable hw2 st1 in
    let '(s1, confirmed) :=
      menu_case (mk_tick sensor_distance dist2 time_us) s in
    (st2, s1, confirmed)
  else
    let '(s1, confirmed) :=
      menu_case (mk_tick sensor_distance sensor_distance time_us) s in
    (st1, s1, confirmed).

(** The loop of [game_task] while the menu is shown: one flag per pass,
    until a game is started.  From then on the other cases of the switch
    run, which are game logic and not part of this model. *)
Fixpoint game_task_menu (ticks : list tick) (s : menu_state)
  : list bool * menu_state :=
  match ticks with
  | [] => ([], s)
  | t :: rest =>
      match current_mode s with
      | MENU =>
          let '(s1, confirmed) := menu_case t s in
          let '(flags, s2) := game_task_menu rest s1 in
          (confirmed :: flags, s2)
      | _ => ([], s)
      end
  end.

(** The selection as the design describes it: nothing targeted, or a
    quadrant targeted since some time. *)
Inductive selection : Type :=
| Idle
| Candidate (quadrant : Z) (since : Z).

Definition selection_of (s : menu_state) : selection :=
  if last_stable_selection s =? -1 then Idle
  else Candidate (last_stable_selection s) (selection_start_time s).


End Game.

(** ** The older stand-alone firmware (C main file) *)

Module Legacy.

Definition MATRIX_WIDTH : Z := 16.
Definition MATRIX_HEIGHT : Z := 16.
Definition LED_COUNT : Z := MATRIX_WIDTH * MATRIX_HEIGHT.
Definition BRIGHTNESS : Z := 50.
Definition RMT_TX_CHANNEL : Z := 0.

Definition WS2812_T0H_NS : Z := 400.
Definition WS2812_T0L_NS : Z := 850.
Definition WS2812_T1H_NS : Z := 800.
Definition WS2812_T1L_NS : Z := 450.

(** [config.clk_div = 1] in [init_ws2812]. *)
Definition clk_div : Z := 1.

Record rgb_t : Type := mk_rgb { r : Z; g : Z; b : Z }.

(** [NS / 10 * 8 / 100], left to right on [int]. *)
Definition ticks_of_ns (ns : Z) : Z :=
  Z.quot (Z.quot ns 10 * 8) 100.

Definition item_one : rmt_item32_t :=
  {| level0 := 1; duration0 := ticks_of_ns WS2812_T1H_NS;
     level1 := 0; duration1 := ticks_of_ns WS2812_T1L_NS |}.

Definition item_zero : rmt_item32_t :=
  {| level0 := 1; duration0 := ticks_of_ns WS2812_T0H_NS;
     level1 := 0; duration1 := ticks_of_ns WS2812_T0L_NS |}.

(** The byte loop of [ws2812_write] with [n] bytes left, at byte [i]
    and cell [item_idx]. *)
Fixpoint write_loop (n : nat) (data : list Z) (i item_idx : nat)
    (items : list rmt_item32_t) : outcome (list rmt_item32_t) :=
  match n with
  | O => Done items
  | S n' =>
      do byte <- load data i;
      do items' <- write_bits item_one item_zero 8 byte item_idx items;
      write_loop n' data (S i) (item_idx + 8) items'
  end.

(** [ws2812_write(data, len)]; on a failed [malloc] it returns at once. *)
Definition ws2812_write (malloc_ok : bool) (data : list Z) (len : Z)
  : outcome (unit * list hw_event) :=
  if malloc_ok then
    do items <- write_loop (Z.to_nat len) data 0 0
                  (replicate (Z.to_nat (len * 8)) (mk_item 0 0 0 0));
    Done (tt, [RmtWriteItems RMT_TX_CHANNEL items (len * 8); FreeItems])
  else Done (tt, []).

(** The loop of [show_display] that lays the pixels out in the byte
    array, with [n] pixels left, at pixel [i]. *)
Fixpoint fill_data (n : nat) (leds : list rgb_t) (i : nat) (data : list Z)
  : outcome (list Z) :=
  match n with
  | O => Done data
  | S n' =>
      do p <- load leds i;
      do data1 <- store data (i * 3) (g p);
      do data2 <- store data1 (i * 3 + 1) (r p);
      do data3 <- store data2 (i * 3 + 2) (b p);
      fill_data n' leds (S i) data3
  end.

(** [show_display]: [uint8_t data[LED_COUNT * 3]], filled, then
    [ws2812_write(data, sizeof(data))]. *)
Definition show_display (malloc_ok : bool) (leds : list rgb_t)
  : outcome (unit * list hw_event) :=
  do data <- fill_data (Z.to_nat LED_COUNT) leds 0
               (replicate (Z.to_nat (LED_COUNT * 3)) 0);
  ws2812_write malloc_ok data (LED_COUNT * 3).

(** [get_index]: rows of even [y] run left to right here. *)
Definition get_index (x y : Z) : Z :=
  if (x <? 0) || (x >=? MATRIX_WIDTH) || (y <? 0) || (y >=? MATRIX_HEIGHT)
  then -1
  else if Z.rem y 2 =? 0 then y * MATRIX_WIDTH + x
  else y * MATRIX_WIDTH + (MATRIX_WIDTH - 1 - x).

(** [get_sensor_position] on the distance it read. *)
Definition sensor_position (dist : Z) : Z :=
  let pos := Z.quot ((dist - 50) * 15) 350 in
  let pos := if pos <? 0 then 0 else pos in
  if pos >? 15 then 15 else pos.

(** [set_pixel]: the brightness is applied here, when the pixel is
    stored. *)
Definition set_pixel (leds : list rgb_t) (x y : Z) (color : rgb_t)
  : outcome (list rgb_t) :=
  let idx := get_index x y in
  if (0 <=? idx) && (idx <? LED_COUNT) then
    store leds (Z.to_nat idx)
      {| r := to_uint8 (Z.quot (r color * BRIGHTNESS) 255);
         g := to_uint8 (Z.quot (g color * BRIGHTNESS) 255);
         b := to_uint8 (Z.quot (b color * BRIGHTNESS) 255) |}
  else Done leds.

(** [clear_display]: [memset(leds, 0, sizeof(leds))]. *)
Definition clear_display (leds : list rgb_t) : list rgb_t :=
  map (fun _ => mk_rgb 0 0 0) leds.

(** [for (int i = 0; i < count; i++) body(i)] on [leds], with [n]
    passes left and the counter at [i]. *)
Fixpoint for_each (n : nat) (i : Z)
    (body : Z -> list rgb_t -> outcome (list rgb_t))
    (leds : list rgb_t) : outcome (list rgb_t) :=
  match n with
  | O => Done leds
  | S n' => do leds1 <- body i leds; for_each n' (i + 1) body leds1
  end.

Definition for_loop (count : Z)
    (body : Z -> list rgb_t -> outcome (list rgb_t))
    (leds : list rgb_t) : outcome (list rgb_t) :=
  for_each (Z.to_nat count) 0 body leds.

(** [draw_rect], as in the game firmware but with the colour as one
    [rgb_t]. *)
Definition draw_rect (leds : list rgb_t) (x y w h : Z) (color : rgb_t)
    (filled : bool) : outcome (list rgb_t) :=
  if filled then
    for_loop h (fun i =>
      for_loop w (fun j st => set_pixel st (x + j) (y + i) color)) leds
  else
    do leds1 <-
      for_loop w (fun i st =>
        do st1 <- set_pixel st (x + i) y color;
        set_pixel st1 (x + i) (y + h - 1) color) leds;
    for_loop h (fun i st =>
      do st1 <- set_pixel st x (y + i) color;
      set_pixel st1 (x + w - 1) (y + i) color) leds1.

(** The local [colors] of [draw_menu]: red, yellow, green, cyan. *)
Definition colors : list rgb_t :=
  [mk_rgb 255 0 0; mk_rgb 255 255 0; mk_rgb 0 255 0; mk_rgb 0 255 255].

(** [draw_menu] up to its [show_display()]: the four icons, then the
    border of the selected quadrant. *)
Definition menu_frame (menu_selection : Z) (leds : list rgb_t)
  : outcome (list rgb_t) :=
  let leds0 := clear_display leds in
  do leds1 <-
    for_loop 4 (fun game st =>
      let x := Z.rem game 2 * 8 + 2 in
      let y := Z.quot game 2 * 8 + 2 in
      do color <-
        (if game =? menu_selection then load colors (Z.to_nat game)
         else Done (mk_rgb 20 20 20));
      draw_rect st x y 4 4 color true) leds0;
  if menu_selection <? 4 then
    let x := Z.rem menu_selection 2 * 8 in
    let y := Z.quot menu_selection 2 * 8 in
    draw_rect leds1 x y 8 8 (mk_rgb 255 255 255) false
  else Done leds1.

(** [draw_menu]: the frame, then [show_display()]. *)
Definition draw_menu (malloc_ok : bool) (menu_selection : Z)
    (leds : list rgb_t) : outcome (list rgb_t * list hw_event) :=
  do leds1 <- menu_frame menu_selection leds;
  do shown <- show_display malloc_ok leds1;
  Done (leds1, snd shown).

(** The function-local statics of the older [run_invaders]. *)
Record invaders_state : Type := mk_invaders {
  player_x : Z;
  invaders : list Z;
  initialized : bool
}.

Definition invaders_statics : invaders_state :=
  {| player_x := 7; invaders := replicate 20 0; initialized := false |}.

(** [for (int i = 0; i < 20; i++) invaders[i] = 1;] with [n] cells left. *)
Fixpoint revive (n : nat) (i : nat) (inv : list Z) : outcome (list Z) :=
  match n with
  | O => Done inv
  | S n' => do inv1 <- store inv i 1; revive n' (S i) inv1
  end.

(** The render part of the older [run_invaders]: the ship, then the live
    invaders. *)
Definition invaders_render (st : invaders_state) (leds : list rgb_t)
  : outcome (list rgb_t) :=
  let leds0 := clear_display leds in
  do leds1 <- draw_rect leds0 (player_x st) 14 2 2 (mk_rgb 0 255 255) true;
  for_loop 20 (fun i frame =>
    do alive <- load (invaders st) (Z.to_nat i);
    if alive =? 0 then Done frame
    else
      let x := Z.rem i 5 * 3 + 1 in
      let y := Z.quot i 5 * 2 + 1 in
      set_pixel frame x y (mk_rgb 0 255 0)) leds1.

(** The older [run_invaders]; [position] is what
    [get_sensor_position()] returned. *)
Definition run_invaders (malloc_ok : bool) (position : Z)
    (st : invaders_state) (leds : list rgb_t)
  : outcome (invaders_state * list rgb_t * list hw_event) :=
  do inv <- (if negb (initialized st) then revive 20 0 (invaders st)
             else Done (invaders st));
  let px := position in
  let px := if px >? 14 then 14 else px in
  let st1 := {| player_x := px; invaders := inv; initialized := true |} in
  do leds1 <- invaders_render st1 leds;
  do shown <- show_display malloc_ok leds1;
  Done (st1, leds1, snd shown).

(** [read_tof_sensor]: the two bytes the bus transfer left in [data],
    high byte first, clamped.  The result of the transfer is not looked
    at. *)
Definition read_tof_sensor (data0 data1 : Z) : Z :=
  let distance := to_uint16 (Z.lor (Z.shiftl data0 8) data1) in
  let distance := if distance <? 50 then 50 else distance in
  if distance >? 400 then 400 else distance.

Inductive game_mode_t : Type := MENU | PONG | FLAPPY | CATCH | INVADERS.

(** The globals and the static [last_dist] of the menu case. *)
Record menu_state : Type := mk_menu {
  current_mode : game_mode_t;
  menu_selection : Z;
  last_dist : Z
}.

Definition menu_init : menu_state :=
  {| current_mode := MENU; menu_selection := 0; last_dist := 200 |}.

(** The menu case of the older [game_task], [draw_menu()] left out:
    [sensor_distance] is the read at the top of the loop, [position]
    what [get_sensor_position()] returned. *)
Definition menu_case (sensor_distance position : Z) (s : menu_state)
  : menu_state :=
  let sel := Z.quot position 4 in
  let sel := if sel >? 3 then 3 else sel in
  let mode :=
    if Z.abs (sensor_distance - last_dist s) >? 100 then
      match sel with
      | 0 => PONG
      | 1 => FLAPPY
      | 2 => CATCH
      | 3 => INVADERS
      | _ => current_mode s
      end
    else current_mode s in
  {| current_mode := mode; menu_selection := sel;
     last_dist := sensor_distance |}.

(** The loop while the menu is shown, over the pairs of distance and
    position of the passes. *)
Fixpoint game_task_menu (passes : list (Z * Z)) (s : menu_state)
  : menu_state :=
  match passes with
  | [] => s
  | (sensor_distance, position) :: rest =>
      match current_mode s with
      | MENU => game_task_menu rest (menu_case sensor_distance position s)
      | _ => s
      end
  end.

End Legacy.

(** ** The position scale as the specification words it *)

(** Nearest integer to [n / d] (ties upward), for [d > 0]. *)
Definition round_div (n d : Z) : Z := (2 * n + d) / (2 * d).

Definition clamp (lo hi v : Z) : Z := Z.max lo (Z.min hi v).

(** [clamp(round((distance_mm - 50) * 15 / 350), 0, 15)]. *)
Definition position_rounded (distance_mm : Z) : Z :=
  clamp 0 15 (round_div ((distance_mm - 50) * 15) 350).

(** [r] is a nearest integer to [n / d]. *)
Definition nearest (r n d : Z) : Prop := 2 * Z.abs (r * d - n) <= d.

(** ** Notions used to state the properties *)



(** Ticks every [period_ms] with both readings at [mm]. *)
Definition steady (mm period_ms : Z) (n : nat) : list Game.tick :=
  map (fun i : nat => Game.mk_tick mm mm (Z.of_nat i * period_ms * 1000))
      (seq 0 n).

(** The pairs of the bits below [n] of a byte, highest bit first. *)
Fixpoint pairs_below (one zero : rmt_item32_t) (n : nat) (byte : Z)
  : list rmt_item32_t :=
  match n with
  | O => []
  | S bit =>
      (if Z.testbit byte (Z.of_nat bit) then one else zero)
        :: pairs_below one zero bit byte
  end.

(** The array [l] with the cells from [i] on replaced by [mid]. *)
Definition splice {A : Type} (l mid : list A) (i : nat) : list A :=
  take i l ++ mid ++ drop (i + length mid) l.

(** The bytes [ws2812_show] encodes for the pixels [px], as the code
    computes them. *)
Definition show_bytes (level : Z) (px : list WS2812.ws2812_pixel_t) : list Z :=
  flat_map (fun p => [WS2812.scaled level (WS2812.g p);
                      WS2812.scaled level (WS2812.r p);
                      WS2812.scaled level (WS2812.b p)]) px.

(** The bytes on the wire as the design words them: for every pixel in
    index order green, red, blue, each times [brightness / 255] and
    truncated. *)
Definition wire_bytes (level : Z) (px : list WS2812.ws2812_pixel_t) : list Z :=
  flat_map (fun p => [WS2812.g p * level / 255;
                      WS2812.r p * level / 255;
                      WS2812.b p * level / 255]) px.

(** The pulse train of a byte sequence, eight pairs a byte. *)
Definition pulse_train (bytes : list Z) : list rmt_item32_t :=
  flat_map (pairs_below WS2812.item_one WS2812.item_zero 8) bytes.

(** Reading a pulse train back as a LED does: a pair that stays high
    longer than low is a 1. *)
Definition decode_bit (it : rmt_item32_t) : bool :=
  duration1 it <? duration0 it.

Definition decode_byte (its : list rmt_item32_t) : Z :=
  fold_left (fun acc it => 2 * acc + Z.b2z (decode_bit it)) its 0.

Fixpoint decode_train (n : nat) (items : list rmt_item32_t) : list Z :=
  match n with
  | O => []
  | S n' => decode_byte (take 8 items) :: decode_train n' (drop 8 items)
  end.

Definition bytes_of_train (items : list rmt_item32_t) : list Z :=
  decode_train (Nat.div (length items) 8) items.

(** How long one pair lasts at a given divider. *)
Definition pair_ps (clk_div : Z) (it : rmt_item32_t) : Z :=
  high_ps clk_div it + low_ps clk_div it.

(** The canonical serpentine rule of the design: rows of even [y] run
    right to left, rows of odd [y] left to right. *)
Definition serpentine_index (x y : Z) : Z :=
  if Z.even y then y * 16 + (15 - x) else y * 16 + x.

(** The caller of [ws2812_show] can tell a failed allocation from a
    transmission. *)
Definition reports_failure (strip : option WS2812.ws2812_t) : Prop :=
  WS2812.returned (WS2812.ws2812_show false strip)
  <> WS2812.returned (WS2812.ws2812_show true strip).

(** A strip of one red pixel at full brightness. *)
Definition one_red_pixel : WS2812.ws2812_t :=
  {| WS2812.channel := 0; WS2812.gpio := 10; WS2812.pixel_count := 1;
     WS2812.pixels := Some [WS2812.mk_pixel 255 0 0];
     WS2812.brightness := 255 |}.

(** The bytes the older [show_display] lays out: green, red, blue of
    every pixel as stored. *)
Definition legacy_bytes (leds : list Legacy.rgb_t) : list Z :=
  flat_map (fun p => [Legacy.g p; Legacy.r p; Legacy.b p]) leds.

Definition legacy_train (bytes : list Z) : list rmt_item32_t :=
  flat_map (pairs_below Legacy.item_one Legacy.item_zero 8) bytes.

(** The stored channels of the pixels in wire order, unscaled. *)
Definition grb_bytes (px : list WS2812.ws2812_pixel_t) : list Z :=
  flat_map (fun p => [WS2812.g p; WS2812.r p; WS2812.b p]) px.

(** How long a pulse train lasts at a given divider. *)
Definition train_ps (clk_div : Z) (items : list rmt_item32_t) : Z :=
  fold_right (fun it acc => pair_ps clk_div it + acc) 0 items.

(** A colour whose channels fit [uint8_t]. *)
Definition is_colour (p : WS2812.ws2812_pixel_t) : Prop :=
  0 <= WS2812.r p <= 255 /\ 0 <= WS2812.g p <= 255 /\ 0 <= WS2812.b p <= 255.

(** The pixel an index denotes in an array, black outside it: what
    [ws2812_get_pixel] answers on a well-formed strip. *)
Definition pixel_at (px : list WS2812.ws2812_pixel_t) (index : Z)
  : WS2812.ws2812_pixel_t :=
  default WS2812.black (px !! Z.to_nat index).

(** A coordinate of the 16 x 16 matrix. *)
Definition on_matrix (x y : Z) : Prop := 0 <= x < 16 /\ 0 <= y < 16.

(** The strip the game draws on: well formed, one pixel a matrix cell. *)
Definition canvas (s : WS2812.ws2812_t) : Prop :=
  WS2812.pixel_count s = Game.LED_COUNT /\
  exists px, WS2812.well_formed s px.

(** A drawing operation that, on any canvas, ends normally on a canvas of
    the same brightness, gives colour [c] to the cells in [P] and leaves
    the other cells as they read before. *)
Definition paints
    (op : option WS2812.ws2812_t -> outcome (option WS2812.ws2812_t))
    (c : WS2812.ws2812_pixel_t) (P : Z -> Z -> Prop) : Prop :=
  (forall a b, P a b \/ ~ P a b) /\
  forall s, canvas s ->
    exists s',
      op (Some s) = Done (Some s') /\ canvas s' /\
      WS2812.brightness s' = WS2812.brightness s /\
      forall a b, on_matrix a b ->
        (P a b ->
         WS2812.ws2812_get_pixel (Some s') (Game.get_index a b) = Done c) /\
        (~ P a b ->
         WS2812.ws2812_get_pixel (Some s') (Game.get_index a b)
         = WS2812.ws2812_get_pixel (Some s) (Game.get_index a b)).

(** The canvas after [init_hardware]: 256 black pixels at [BRIGHTNESS]. *)
Definition fresh_canvas : WS2812.ws2812_t :=
  {| WS2812.channel := 0; WS2812.gpio := 10;
     WS2812.pixel_count := Game.LED_COUNT;
     WS2812.pixels := Some (replicate 256 WS2812.black);
     WS2812.brightness := Game.BRIGHTNESS |}.

(** Where the simulated movement stands in its cycle of 104 steps: 0 to
    51 on the way up from 95 to 350, 52 to 103 on the way down from 355
    to 100. *)
Definition wave_phase (st : Game.tof_state) : Z :=
  if Game.dir st =? 1 then (Game.sim_dist st - 95) / 5
  else 52 + (355 - Game.sim_dist st) / 5.

(** The states of the simulated movement on that cycle. *)
Definition on_wave (st : Game.tof_state) : Prop :=
  Game.sim_dist st mod 5 = 0 /\
  ((Game.dir st = 1 /\ 95 <= Game.sim_dist st <= 350) \/
   (Game.dir st = -1 /\ 100 <= Game.sim_dist st <= 355)).

(** The statics after [n] more reads that all fall back. *)
Fixpoint after_fallbacks (n : nat) (st : Game.tof_state) : Game.tof_state :=
  match n with
  | O => st
  | S n' => after_fallbacks n' (snd (fst (Game.read_tof_sensor false None st)))
  end.


(** How many of the invaders are alive. *)
Definition alive_count (inv : list Z) : Z :=
  Z.of_nat (length (filter (fun v => v <> 0) inv)).

(** The statics of the shooter between passes: twenty invaders, and
    while a game is on the score counts the dead ones. *)
Definition invaders_ok (st : Game.invaders_state) : Prop :=
  length (Game.invaders st) = 20%nat /\
  -1 <= Game.bullet_y st <= 12 /\
  (Game.initialized st = true ->
   Game.score st + alive_count (Game.invaders st) = 20).

(** A drawing operation that, on any canvas, ends normally on a canvas
    of the same brightness and leaves the cells outside [R] as they read
    before. *)
Definition touches
    (op : option WS2812.ws2812_t -> outcome (option WS2812.ws2812_t))
    (R : Z -> Z -> Prop) : Prop :=
  forall s, canvas s ->
    exists s',
      op (Some s) = Done (Some s') /\ canvas s' /\
      WS2812.brightness s' = WS2812.brightness s /\
      forall a b, on_matrix a b -> ~ R a b ->
        WS2812.ws2812_get_pixel (Some s') (Game.get_index a b)
        = WS2812.ws2812_get_pixel (Some s) (Game.get_index a b).

(** The shooter one hit before the end: the first invader is the last
    one alive and the bullet is right below it. *)
Definition last_invader : Game.invaders_state :=
  {| Game.player_x := 0; Game.invaders := 1 :: replicate 19 0;
     Game.bullet_x := 1; Game.bullet_y := 2; Game.invader_y := 0;
     Game.initialized := true; Game.score := 19; Game.high_score := 0;
     Game.last_player_x := 0 |}.

(** How many frames a list of hardware events hands to the peripheral. *)
Definition frames_sent (hw : list hw_event) : nat :=
  length (List.filter WS2812.transmits hw).

(** An animation frame: on any canvas it ends normally on a canvas of
    the same brightness and sends one frame. *)
Definition one_frame
    (op : option WS2812.ws2812_t
          -> outcome (option WS2812.ws2812_t * list hw_event)) : Prop :=
  forall s, canvas s ->
    exists s' hw,
      op (Some s) = Done (Some s', hw) /\ canvas s' /\
      WS2812.brightness s' = WS2812.brightness s /\
      frames_sent hw = 1%nat.

(** Distances that never move by more than 100 from one pass to the
    next, starting from [last]. *)
Fixpoint steady_hand (last : Z) (distances : list Z) : Prop :=
  match distances with
  | [] => True
  | d :: rest => Z.abs (d - last) <= 100 /\ steady_hand d rest
  end.

(** What the older menu shows in cell [(x, y)] when game [sel] is
    selected: the quadrant of [sel] has a white border and its icon in
    the colour of the game, the icons of the other quadrants are grey,
    all of it at brightness 50; everything else is dark. *)
Definition menu_cell (sel x y : Z) : Legacy.rgb_t :=
  let quadrant := 2 * (y / 8) + x / 8 in
  let lx := x mod 8 in
  let ly := y mod 8 in
  let on_icon := (2 <=? lx) && (lx <? 6) && (2 <=? ly) && (ly <? 6) in
  let on_border := (lx =? 0) || (lx =? 7) || (ly =? 0) || (ly =? 7) in
  if quadrant =? sel then
    if on_border then Legacy.mk_rgb 50 50 50
    else if on_icon then
      match sel with
      | 0 => Legacy.mk_rgb 50 0 0
      | 1 => Legacy.mk_rgb 50 50 0
      | 2 => Legacy.mk_rgb 0 50 0
      | _ => Legacy.mk_rgb 0 50 50
      end
    else Legacy.mk_rgb 0 0 0
  else if on_icon then Legacy.mk_rgb 3 3 3
  else Legacy.mk_rgb 0 0 0.

Definition rgb_eqb (p q : Legacy.rgb_t) : bool :=
  (Legacy.r p =? Legacy.r q) && (Legacy.g p =? Legacy.g q) &&
  (Legacy.b p =? Legacy.b q).

(** A test that holds in each of the 256 cells of the matrix. *)
Definition all_cells (test : Z -> Z -> bool) : bool :=
  forallb (fun y => forallb (fun x => test (Z.of_nat x) (Z.of_nat y))
                      (seq 0 16)) (seq 0 16).

(** The LED of cell [(x, y)] of the older firmware holds colour [c]. *)
Definition legacy_cell_is (leds : list Legacy.rgb_t) (c : Z -> Z -> Legacy.rgb_t)
    (x y : Z) : bool :=
  match leds !! Z.to_nat (Legacy.get_index x y) with
  | Some p => rgb_eqb p (c x y)
  | None => false
  end.

(** What the older shooter shows in cell [(x, y)] with the ship at
    column [px]: the ship on the two bottom rows, twenty invaders on
    rows 1, 3, 5 and 7 at columns 1, 4, 7, 10 and 13, the rest dark. *)
Definition legacy_invaders_cell (px x y : Z) : Legacy.rgb_t :=
  if (14 <=? y) && (px <=? x) && (x <? px + 2) then Legacy.mk_rgb 0 50 50
  else if (y <? 8) && (y mod 2 =? 1) && (x <? 15) && (x mod 3 =? 1)
  then Legacy.mk_rgb 0 50 0
  else Legacy.mk_rgb 0 0 0.

(** The statics of the older shooter as its passes leave them: all
    invaders alive once initialised. *)
Definition legacy_invaders_ok (st : Legacy.invaders_state) : Prop :=
  Legacy.invaders st =
    replicate 20 (if Legacy.initialized st then 1 else 0).

(* ===================================================================== *)
(** * Properties *)

Section SensorPosition.

Import Game.

Lemma round_div_nearest n d : 0 < d -> nearest (round_div n d) n d.
Proof.
  intros Hd. unfold nearest, round_div.
  pose proof (Z.div_mod (2 * n + d) (2 * d) ltac:(lia)) as E.
  pose proof (Z.mod_pos_bound (2 * n + d) (2 * d) ltac:(lia)) as B.
  lia.
Qed.

Lemma sensor_position_floor d :
  50 <= d <= 400 -> sensor_position d = (d - 50) * 15 / 350.
Proof.
  intros Hd. unfold sensor_position.
  rewrite Z.quot_div_nonneg by lia.
  assert (0 <= (d - 50) * 15 / 350) by (apply Z.div_pos; lia).
  assert ((d - 50) * 15 / 350 <= 15).
  { apply Z.div_le_upper_bound; lia. }
  destruct (Z.ltb_spec ((d - 50) * 15 / 350) 0); [lia|].
  unfold Z.gtb. destruct (Z.compare_spec ((d - 50) * 15 / 350) 15); lia.
Qed.

(** [get_sensor_position] applies that arithmetic to what
    [read_tof_sensor] returns. *)
Lemma get_sensor_position_reads usable hw st :
  fst (fst (get_sensor_position usable hw st)) =
    sensor_position (fst (fst (read_tof_sensor usable hw st))) /\
  snd (fst (get_sensor_position usable hw st)) =
    snd (fst (read_tof_sensor usable hw st)).
Proof.
  unfold get_sensor_position.
  destruct (read_tof_sensor usable hw st) as [[d st'] out].
  split; reflexivity.
Qed.

(** C1, as amended.  On a clamped sample the position is the integer
    quotient of [(d - 50) * 15] by [350], truncated and not rounded to
    nearest: it is the one [p] in [0..15] with
    [350 p <= 15 (d - 50) < 350 (p + 1)], fifty maps to 0 and four
    hundred to 15. *)
Theorem C1_position_truncates d :
  50 <= d <= 400 ->
  sensor_position d = (d - 50) * 15 / 350 /\
  0 <= sensor_position d <= 15 /\
  350 * sensor_position d <= (d - 50) * 15 < 350 * (sensor_position d + 1) /\
  sensor_position 50 = 0 /\ sensor_position 400 = 15.
Proof.
  intros Hd. rewrite (sensor_position_floor d Hd).
  pose proof (Z.div_mod ((d - 50) * 15) 350 ltac:(lia)) as E.
  pose proof (Z.mod_pos_bound ((d - 50) * 15) 350 ltac:(lia)) as B.
  repeat split; try lia; reflexivity.
Qed.

Lemma C1_position_truncates_witness :
  50 <= 62 <= 400 /\ sensor_position 62 = (62 - 50) * 15 / 350.
Proof.
  split; [lia|]. apply (C1_position_truncates 62). lia.
Defined.

(** C1 as written fails at 62 mm: [12 * 15 / 350] is about 0.51, which
    rounds to 1, while the code returns 0. *)
Lemma C1_round_counterexample :
  50 <= 62 <= 400 /\ sensor_position 62 <> position_rounded 62.
Proof. split; [lia|]. vm_compute. discriminate. Qed.

(** No choice of tie-breaking rescues the claim at 62 mm: the only
    nearest integer to [180 / 350] is 1. *)
Lemma nearest_at_62 r : nearest r ((62 - 50) * 15) 350 -> r = 1.
Proof. unfold nearest. lia. Qed.

(** C8.  On [50..400] the position never decreases when the distance
    grows, and the two ends map to 0 and 15. *)
Theorem C8_position_monotone d1 d2 :
  50 <= d1 -> d1 <= d2 -> d2 <= 400 ->
  sensor_position d1 <= sensor_position d2 /\
  sensor_position 50 = 0 /\ sensor_position 400 = 15.
Proof.
  intros H1 H12 H2.
  rewrite !sensor_position_floor by lia.
  split; [|split; reflexivity].
  apply Z.div_le_mono; lia.
Qed.

Lemma C8_position_monotone_witness :
  sensor_position 120 <= sensor_position 121.
Proof. apply (C8_position_monotone 120 121); lia. Defined.

End SensorPosition.

Section SensorReader.

Import Game.







Lemma clamp_range_id d : 50 <= d <= 400 -> clamp_range d = d.
Proof.
  intros Hd. unfold clamp_range, Z.gtb.
  destruct (Z.ltb_spec d 50); [lia|].
  destruct (Z.compare_spec d 400); lia.
Qed.




(** The same at the lower end: 95 is returned after the descent. *)
Lemma fallback_undershoots :
  read_seq (replicate 83 (false, None)) tof_init !! 82%nat = Some 95.
Proof. vm_compute. reflexivity. Qed.

End SensorReader.

Section MenuSelection.

Import Game.

Lemma sensor_position_range d : 0 <= sensor_position d <= 15.
Proof.
  unfold sensor_position, Z.gtb.
  destruct (Z.ltb_spec (Z.quot ((d - 50) * 15) 350) 0).
  - cbn. lia.
  - destruct (Z.compare_spec (Z.quot ((d - 50) * 15) 350) 15); lia.
Qed.



(** The two selection globals move together. *)
Lemma menu_case_keeps_pair u s :
  menu_selection s = last_stable_selection s ->
  menu_selection (fst (menu_case u s))
    = last_stable_selection (fst (menu_case u s)).
Proof.
  intros Hwf. unfold menu_case.
  destruct (in_selection_range _); [|reflexivity].
  destruct (negb _); [reflexivity|].
  destruct (_ <=? _); [reflexivity | exact Hwf].
Qed.


(** With a clock that does not run backwards, and less than [2^32] ms
    apart, the wrapped difference is the real one. *)
Lemma elapsed_real t0_us t :
  0 <= t0_us <= tk_time_us t ->
  tk_time_us t / 1000 - t0_us / 1000 < 4294967296 ->
  elapsed (millis t0_us) t = tk_time_us t / 1000 - t0_us / 1000.
Proof.
  intros Hle Hspan. unfold elapsed, millis, to_uint32.
  rewrite !Z.quot_div_nonneg by lia.
  rewrite <- Zminus_mod.
  apply Z.mod_small. split; [|lia].
  assert (t0_us / 1000 <= tk_time_us t / 1000)
    by (apply Z.div_le_mono; lia).
  lia.
Qed.



Lemma menu_case_waiting u s :
  in_selection_range (tk_distance u) = true ->
  new_selection u = last_stable_selection s ->
  elapsed (selection_start_time s) u < SELECTION_HOLD_TIME ->
  menu_case u s = (s, false).
Proof.
  intros Hr He Hlt. unfold menu_case. rewrite Hr, He, Z.eqb_refl. cbn.
  destruct (Z.leb_spec SELECTION_HOLD_TIME
              (elapsed (selection_start_time s) u)); [lia | reflexivity].
Qed.

Lemma menu_case_confirm u s :
  in_selection_range (tk_distance u) = true ->
  new_selection u = last_stable_selection s ->
  SELECTION_HOLD_TIME <= elapsed (selection_start_time s) u ->
  menu_case u s =
    (reset_selection (mode_of_selection (menu_selection s) (current_mode s)),
     true).
Proof.
  intros Hr He Hge. unfold menu_case. rewrite Hr, He, Z.eqb_refl. cbn.
  destruct (Z.leb_spec SELECTION_HOLD_TIME
              (elapsed (selection_start_time s) u)); [reflexivity | lia].
Qed.






(** End to end: 120 mm at every 50 ms pass from the idle menu is
    confirmed at the pass where 5000 ms have elapsed, the hundred passes
    before it confirm nothing, and the paddle game starts. *)
Example steady_120mm_confirms_at_5s :
  game_task_menu (steady 120 50 101) menu_init
  = (replicate 100 false ++ [true], reset_selection PONG).
Proof. vm_compute. reflexivity. Qed.

(** The quadrant is taken from the second reading: the range test sees
    140 mm, the position is computed from 145 mm and lands in the second
    quadrant, where 140 mm alone would give the first. *)
Example pass_uses_second_reading :
  selection_of (snd (fst (game_task_pass true (Some 140) (Some 145) 0
                            tof_init menu_init)))
  = Candidate 1 0 /\
  new_selection (mk_tick 140 140 0) = 0.
Proof. split; reflexivity. Qed.

End MenuSelection.

Section PulseEncoder.

(** The mask test reads the bit. *)
Lemma bit_set_testbit byte bit :
  bit_set byte bit = Z.testbit byte (Z.of_nat bit).
Proof.
  unfold bit_set. rewrite Z.shiftl_1_l.
  destruct (Z.testbit byte (Z.of_nat bit)) eqn:Hb.
  - destruct (Z.eqb_spec (Z.land byte (2 ^ Z.of_nat bit)) 0) as [E|E];
      [|reflexivity].
    assert (Z.testbit (Z.land byte (2 ^ Z.of_nat bit)) (Z.of_nat bit) = true)
      as Hland.
    { rewrite Z.land_spec, Hb, Z.pow2_bits_true by lia. reflexivity. }
    rewrite E, Z.bits_0 in Hland. discriminate.
  - assert (Z.land byte (2 ^ Z.of_nat bit) = 0) as ->; [|reflexivity].
    apply Z.bits_inj'. intros m Hm.
    rewrite Z.land_spec, Z.bits_0, Z.pow2_bits_eqb by lia.
    destruct (Z.eqb_spec (Z.of_nat bit) m) as [<-|_].
    + rewrite Hb. reflexivity.
    + apply andb_false_r.
Qed.

Lemma length_pairs_below one zero n byte :
  length (pairs_below one zero n byte) = n.
Proof. induction n; cbn; congruence. Qed.

Lemma lookup_pairs_below one zero n byte k :
  (k < n)%nat ->
  pairs_below one zero n byte !! k =
    Some (if Z.testbit byte (Z.of_nat (n - 1 - k)) then one else zero).
Proof.
  revert k. induction n as [|bit IH]; intros k Hk; [lia|].
  destruct k as [|k]; cbn [pairs_below].
  - replace (S bit - 1 - 0)%nat with bit by lia. reflexivity.
  - replace (S bit - 1 - S k)%nat with (bit - 1 - k)%nat by lia.
    apply IH. lia.
Qed.

Lemma store_in_range {A} (a : list A) i x :
  (i < length a)%nat -> store a i x = Done (<[ i := x ]> a).
Proof. intros H. unfold store. destruct (decide _); [reflexivity | lia]. Qed.

(** The loop overwrites exactly the [n] cells from [item] on. *)
Lemma write_bits_spec one zero n : forall byte item buf,
  (item + n <= length buf)%nat ->
  write_bits one zero n byte item buf =
    Done (take item buf ++ pairs_below one zero n byte ++ drop (item + n) buf).
Proof.
  induction n as [|bit IH]; intros byte item buf Hlen.
  - cbn [write_bits pairs_below app]. rewrite Nat.add_0_r, take_drop.
    reflexivity.
  - cbn [write_bits pairs_below]. rewrite store_in_range by lia.
    cbn [obind]. rewrite IH by (rewrite length_insert; lia).
    rewrite bit_set_testbit.
    set (x := if Z.testbit byte (Z.of_nat bit) then one else zero).
    rewrite (take_S_r _ item x) by (apply list_lookup_insert_eq; lia).
    rewrite take_insert_ge by lia.
    rewrite drop_insert_lt by lia.
    rewrite <- app_assoc. cbn [app].
    replace (S item + bit)%nat with (item + S bit)%nat by lia.
    reflexivity.
Qed.

Lemma write_bits_splice one zero n byte item buf :
  (item + n <= length buf)%nat ->
  write_bits one zero n byte item buf =
    Done (splice buf (pairs_below one zero n byte) item).
Proof.
  intros Hlen. unfold splice. rewrite length_pairs_below.
  apply write_bits_spec. exact Hlen.
Qed.

Lemma write_bits_length one zero n byte item buf buf' :
  (item + n <= length buf)%nat ->
  write_bits one zero n byte item buf = Done buf' ->
  length buf' = length buf.
Proof.
  intros Hlen. rewrite write_bits_spec by exact Hlen.
  intros [= <-]. rewrite !length_app, length_take, length_drop,
    length_pairs_below. lia.
Qed.

(** Past the end of the buffer the loop faults: it never writes less
    than its [n] cells silently. *)
Lemma write_bits_overflow one zero n : forall byte item buf,
  (0 < n)%nat -> (length buf < item + n)%nat ->
  write_bits one zero n byte item buf = Fault.
Proof.
  induction n as [|bit IH]; intros byte item buf Hn Hlen; [lia|].
  cbn [write_bits]. unfold store.
  destruct (decide (item < length buf)%nat) as [Hin|Hout];
    [|reflexivity].
  cbn [obind]. apply IH; [lia|]. rewrite length_insert. lia.
Qed.

Section Splice.
Context {A : Type} (l mid : list A) (i : nat).
Hypothesis Hfit : (i + length mid <= length l)%nat.

Lemma length_splice : length (splice l mid i) = length l.
Proof.
  unfold splice. rewrite !length_app, length_take, length_drop. lia.
Qed.

Lemma lookup_splice_before j : (j < i)%nat -> splice l mid i !! j = l !! j.
Proof.
  intros Hj. unfold splice.
  rewrite lookup_app_l by (rewrite length_take; lia).
  apply lookup_take_lt. exact Hj.
Qed.

Lemma lookup_splice_in k :
  (k < length mid)%nat -> splice l mid i !! (i + k)%nat = mid !! k.
Proof.
  intros Hk. unfold splice.
  rewrite lookup_app_r by (rewrite length_take; lia).
  rewrite length_take.
  replace (i + k - i `min` length l)%nat with k by lia.
  apply lookup_app_l. exact Hk.
Qed.

Lemma lookup_splice_after j :
  (i + length mid <= j)%nat -> splice l mid i !! j = l !! j.
Proof.
  intros Hj. unfold splice.
  rewrite lookup_app_r by (rewrite length_take; lia).
  rewrite lookup_app_r by (rewrite length_take; lia).
  rewrite lookup_drop, length_take. f_equal. lia.
Qed.

Lemma take_drop_splice : take (length mid) (drop i (splice l mid i)) = mid.
Proof.
  unfold splice.
  rewrite drop_app_length' by (rewrite length_take; lia).
  apply take_app_length.
Qed.
End Splice.

Import WS2812.

(** The shared bit loop, read cell by cell. *)
Lemma write_bits_cells one zero byte buf item :
  (item + 8 <= length buf)%nat ->
  exists buf',
    write_bits one zero 8 byte item buf = Done buf' /\
    length buf' = length buf /\
    (forall j, (j < item \/ item + 8 <= j)%nat -> buf' !! j = buf !! j) /\
    (forall k, (k < 8)%nat ->
       buf' !! (item + k)%nat =
         Some (if Z.testbit byte (7 - Z.of_nat k) then one else zero)) /\
    take 8 (drop item buf') = pairs_below one zero 8 byte.
Proof.
  intros Hlen.
  set (mid := pairs_below one zero 8 byte).
  assert (Hp : length mid = 8%nat) by apply length_pairs_below.
  assert (Hfit : (item + length mid <= length buf)%nat) by lia.
  exists (splice buf mid item).
  split; [unfold splice; rewrite Hp; apply write_bits_spec; exact Hlen|].
  split; [apply length_splice; exact Hfit|].
  split; [|split].
  - intros j [Hj|Hj].
    + apply lookup_splice_before; [exact Hfit | exact Hj].
    + apply lookup_splice_after; [exact Hfit | lia].
  - intros k Hk. rewrite (lookup_splice_in buf mid item Hfit k) by lia.
    unfold mid. rewrite lookup_pairs_below by exact Hk.
    replace (Z.of_nat (8 - 1 - k)) with (7 - Z.of_nat k) by lia.
    reflexivity.
  - rewrite <- Hp. apply take_drop_splice. exact Hfit.
Qed.

End PulseEncoder.

Section StripTransmit.

Import WS2812.

Lemma splice_splice {A} (l m1 m2 : list A) (i j : nat) :
  (i + length m1 + length m2 <= length l)%nat ->
  j = (i + length m1)%nat ->
  splice (splice l m1 i) m2 j = splice l (m1 ++ m2) i.
Proof.
  intros Hfit ->. unfold splice.
  assert (Hi : length (take i l) = i) by (rewrite length_take; lia).
  rewrite (take_app_add' (take i l) _ i (length m1)) by (symmetry; exact Hi).
  rewrite take_app_length.
  replace (i + length m1 + length m2)%nat
    with (i + (length m1 + length m2))%nat by lia.
  rewrite (drop_app_add' (take i l) _ i) by (symmetry; exact Hi).
  rewrite drop_app_add, drop_drop, length_app, <- !app_assoc.
  do 4 f_equal. lia.
Qed.

Lemma splice_all {A} (l mid : list A) :
  length mid = length l -> splice l mid 0 = mid.
Proof.
  intros Hlen. unfold splice. rewrite take_0, Nat.add_0_l, Hlen, drop_all.
  cbn [app]. apply app_nil_r.
Qed.

Lemma write_byte_splice buf item byte :
  (item + 8 <= length buf)%nat ->
  ws2812_write_byte buf item byte =
    Done (splice buf (pairs_below item_one item_zero 8 byte) item).
Proof.
  intros Hlen. unfold ws2812_write_byte.
  apply write_bits_splice. exact Hlen.
Qed.

Lemma length_pulse_train bytes :
  length (pulse_train bytes) = (8 * length bytes)%nat.
Proof.
  induction bytes as [|x bytes IH]; [reflexivity|].
  cbn [pulse_train flat_map]. rewrite length_app, length_pairs_below.
  fold (pulse_train bytes). rewrite IH. cbn [length]. lia.
Qed.

Lemma length_show_bytes level px :
  length (show_bytes level px) = (3 * length px)%nat.
Proof.
  induction px as [|p px IH]; [reflexivity|].
  cbn [show_bytes flat_map length app]. fold (show_bytes level px).
  rewrite IH. lia.
Qed.

(** The pixel loop fills the cells from [item] on with the pulse train
    of the remaining pixels. *)
Lemma show_loop_spec level px n : forall i item buf,
  (i + n <= length px)%nat ->
  (item + 24 * n <= length buf)%nat ->
  show_loop n level px i item buf =
    Done (splice buf (pulse_train (show_bytes level (take n (drop i px))))
                 item).
Proof.
  induction n as [|n IH]; intros i item buf Hpx Hbuf.
  - rewrite take_0. cbn [show_loop show_bytes flat_map pulse_train].
    unfold splice. cbn [app length]. rewrite Nat.add_0_r, take_drop.
    reflexivity.
  - destruct (lookup_lt_is_Some_2 px i ltac:(lia)) as [p Hp].
    cbn [show_loop]. unfold load. rewrite Hp. cbn [deref obind].
    rewrite write_byte_splice by lia. cbn [obind].
    rewrite write_byte_splice by (rewrite length_splice;
      rewrite ?length_pairs_below; lia). cbn [obind].
    rewrite splice_splice
      by (rewrite ?length_pairs_below; lia).
    rewrite write_byte_splice by (rewrite length_splice;
      rewrite ?length_app, ?length_pairs_below; lia). cbn [obind].
    rewrite splice_splice
      by (rewrite ?length_app, ?length_pairs_below; lia).
    rewrite IH; [| lia |
      rewrite length_splice;
      rewrite ?length_app, ?length_pairs_below; lia].
    rewrite splice_splice.
    + rewrite (drop_S px p i Hp). cbn [firstn show_bytes flat_map app].
      fold (show_bytes level (take n (drop (S i) px))).
      cbn [pulse_train flat_map]. rewrite <- !app_assoc.
      reflexivity.
    + rewrite !length_app, !length_pairs_below, length_pulse_train,
        length_show_bytes, length_take, length_drop. lia.
    + rewrite !length_app, !length_pairs_below. lia.
Qed.

Lemma scaled_exact level c :
  0 <= level <= 255 -> 0 <= c <= 255 ->
  scaled level c = c * level / 255 /\ 0 <= c * level / 255 <= 255.
Proof.
  intros Hl Hc. unfold scaled, to_uint8.
  rewrite Z.quot_div_nonneg by nia.
  assert (0 <= c * level / 255) by (apply Z.div_pos; nia).
  assert (c * level / 255 <= 255) by (apply Z.div_le_upper_bound; nia).
  split; [apply Z.mod_small|]; lia.
Qed.

Lemma show_bytes_wire_bytes level px :
  0 <= level <= 255 ->
  Forall (fun p => 0 <= r p <= 255 /\ 0 <= g p <= 255 /\ 0 <= b p <= 255) px ->
  show_bytes level px = wire_bytes level px /\
  Forall (fun x => 0 <= x < 256) (wire_bytes level px).
Proof.
  intros Hl. induction 1 as [|p px (Hr & Hg & Hb) _ [IHe IHf]].
  - split; [reflexivity | constructor].
  - destruct (scaled_exact level (r p) Hl Hr) as [Er Br].
    destruct (scaled_exact level (g p) Hl Hg) as [Eg Bg].
    destruct (scaled_exact level (b p) Hl Hb) as [Eb Bb].
    cbn [show_bytes wire_bytes flat_map app].
    fold (show_bytes level px). fold (wire_bytes level px).
    rewrite Er, Eg, Eb, IHe. split; [reflexivity|].
    repeat (constructor; [lia|]). exact IHf.
Qed.

Lemma wire_bytes_at level px : forall i p,
  px !! i = Some p ->
  take 3 (drop (3 * i) (wire_bytes level px)) =
    [g p * level / 255; r p * level / 255; b p * level / 255].
Proof.
  induction px as [|q px IH]; intros i p Hp; [discriminate|].
  destruct i as [|i].
  - injection Hp as ->. reflexivity.
  - replace (3 * S i)%nat with (S (S (S (3 * i)))) by lia.
    cbn [wire_bytes flat_map app drop]. apply IH. exact Hp.
Qed.

(** What the decoder accumulates over the pairs of the low [n] bits. *)
Lemma decode_pairs_below n : forall byte acc,
  fold_left (fun a it => 2 * a + Z.b2z (decode_bit it))
            (pairs_below item_one item_zero n byte) acc
  = acc * 2 ^ Z.of_nat n + byte mod 2 ^ Z.of_nat n.
Proof.
  induction n as [|bit IH]; intros byte acc.
  - cbn [pairs_below fold_left]. change (2 ^ Z.of_nat 0) with 1.
    rewrite Z.mod_1_r. lia.
  - cbn [pairs_below fold_left]. rewrite IH.
    replace (Z.b2z (decode_bit (if Z.testbit byte (Z.of_nat bit)
                                then item_one else item_zero)))
      with (Z.b2z (Z.testbit byte (Z.of_nat bit)))
      by (destruct (Z.testbit byte (Z.of_nat bit)); reflexivity).
    rewrite Z.testbit_spec' by lia.
    rewrite Nat2Z.inj_succ, Z.pow_succ_r by lia.
    rewrite (Z.mul_comm 2 (2 ^ Z.of_nat bit)).
    rewrite (Z.rem_mul_r byte (2 ^ Z.of_nat bit) 2) by lia.
    ring.
Qed.

Lemma decode_byte_pairs byte :
  0 <= byte < 256 ->
  decode_byte (pairs_below item_one item_zero 8 byte) = byte.
Proof.
  intros Hb. unfold decode_byte. rewrite decode_pairs_below.
  change (2 ^ Z.of_nat 8) with 256. rewrite Z.mod_small by lia. lia.
Qed.

Lemma decode_pulse_train bytes :
  Forall (fun x => 0 <= x < 256) bytes ->
  bytes_of_train (pulse_train bytes) = bytes.
Proof.
  intros Hb. unfold bytes_of_train. rewrite length_pulse_train.
  rewrite Nat.mul_comm, Nat.div_mul by lia.
  induction Hb as [|x bytes Hx _ IH]; [reflexivity|].
  cbn [length decode_train pulse_train flat_map].
  fold (pulse_train bytes).
  rewrite take_app_length' by (rewrite length_pairs_below; reflexivity).
  rewrite drop_app_length' by (rewrite length_pairs_below; reflexivity).
  rewrite decode_byte_pairs by exact Hx. rewrite IH. reflexivity.
Qed.

(** With its buffer allocated, [ws2812_show] sends the pulse train of
    the scaled bytes and nothing else. *)
Lemma show_with_buffer s px :
  well_formed s px ->
  ws2812_show true (Some s) =
    Done (tt, [RmtWriteItems (channel s)
                 (pulse_train (wire_bytes (brightness s) px))
                 (pixel_count s * 3 * 8);
               RmtWaitTxDone (channel s); FreeItems; TaskDelayMs 1]).
Proof.
  intros (Hpx & Hlen & Hcount & Hlevel & Hrange).
  destruct (show_bytes_wire_bytes (brightness s) px Hlevel Hrange)
    as [Hbytes _].
  unfold ws2812_show. rewrite Hpx.
  rewrite show_loop_spec.
  - rewrite drop_0, take_ge by lia. rewrite Hbytes.
    rewrite splice_all; [reflexivity|].
    rewrite length_pulse_train, length_replicate, <- Hbytes,
      length_show_bytes. lia.
  - lia.
  - rewrite length_replicate. lia.
Qed.

(** C5.  On a well-formed strip whose item buffer can be allocated,
    [ws2812_show] hands the peripheral one pulse train, waits and
    delays; the train is the encoding, pixel after pixel in index order,
    of three bytes a pixel in the order green, red, blue, each the
    channel times the brightness divided by 255 and truncated.  Read back
    as bytes the train gives exactly these, so the three bytes of pixel
    [i] are at positions [3 i .. 3 i + 2]. *)
Theorem C5_show_scales_and_orders
    (s : ws2812_t) (px : list ws2812_pixel_t) :
  well_formed s px ->
  exists items,
    ws2812_show true (Some s) =
      Done (tt, [RmtWriteItems (channel s) items (pixel_count s * 3 * 8);
                 RmtWaitTxDone (channel s); FreeItems; TaskDelayMs 1]) /\
    items = pulse_train (wire_bytes (brightness s) px) /\
    bytes_of_train items = wire_bytes (brightness s) px /\
    (forall i p, px !! i = Some p ->
       take 3 (drop (3 * i) (bytes_of_train items)) =
         [g p * brightness s / 255;
          r p * brightness s / 255;
          b p * brightness s / 255]).
Proof.
  intros Hwf. pose proof Hwf as (_ & _ & _ & Hlevel & Hrange).
  destruct (show_bytes_wire_bytes (brightness s) px Hlevel Hrange)
    as [_ Hsmall].
  exists (pulse_train (wire_bytes (brightness s) px)).
  pose proof (decode_pulse_train _ Hsmall) as Hdec.
  split; [|split; [reflexivity | split; [exact Hdec|]]].
  - apply show_with_buffer. exact Hwf.
  - intros i p Hp. rewrite Hdec. apply wire_bytes_at. exact Hp.
Qed.

(** Pixel 0 set to (255, 0, 0) at brightness 128 on a fresh strip of 256
    pixels: the first three bytes on the wire are 0, 128, 0. *)
Lemma C5_show_scales_and_orders_witness :
  exists strip1 strip2 s px items,
    ws2812_set_brightness (fst (ws2812_init true true 256 10 0)) 128
      = Done strip1 /\
    ws2812_set_pixel strip1 0 255 0 0 = Done strip2 /\
    strip2 = Some s /\ well_formed s px /\
    events (ws2812_show true strip2) =
      [RmtWriteItems 0 items 6144; RmtWaitTxDone 0; FreeItems; TaskDelayMs 1] /\
    take 3 (bytes_of_train items) = [0; 128; 0].
Proof.
  set (px := mk_pixel 255 0 0 :: replicate 255 black).
  set (s := {| channel := 0; gpio := 10; pixel_count := 256;
               pixels := Some px; brightness := 128 |}).
  assert (Hwf : well_formed s px).
  { repeat split; try reflexivity; try (cbn; lia).
    apply Forall_cons. split; [cbn; lia|].
    apply Forall_replicate. cbn. lia. }
  destruct (C5_show_scales_and_orders s px Hwf)
    as (items & Hshow & _ & _ & Hat).
  exists (Some (with_brightness
                  {| channel := 0; gpio := 10; pixel_count := 256;
                     pixels := Some (replicate 256 black);
                     brightness := 255 |} 128)),
         (Some s), s, px, items.
  split; [reflexivity|]. split; [reflexivity|]. split; [reflexivity|].
  split; [exact Hwf|]. split.
  - rewrite Hshow. reflexivity.
  - exact (Hat 0%nat (mk_pixel 255 0 0) eq_refl).
Defined.

End StripTransmit.

Section Timing.

(** Both encoders take their tick counts from the nanosecond constants. *)
Lemma driver_durations :
  WS2812.item_one = mk_item 1 32 0 18 /\
  WS2812.item_zero = mk_item 1 16 0 34 /\
  Legacy.item_one = mk_item 1 6 0 3 /\
  Legacy.item_zero = mk_item 1 3 0 6.
Proof. repeat split; reflexivity. Qed.

(** In the strip driver the divisor 25 is the tick period of divider 2,
    so every pair lasts the nominal 1250 ns whatever the byte. *)
Lemma driver_bit_period byte k it :
  pairs_below WS2812.item_one WS2812.item_zero 8 byte !! k = Some it ->
  high_ps WS2812.clk_div it + low_ps WS2812.clk_div it = BIT_PERIOD_PS /\
  tick_ps WS2812.clk_div = 25 * 1000.
Proof.
  intros Hk. pose proof (lookup_lt_Some _ _ _ Hk) as Hlt.
  rewrite length_pairs_below in Hlt.
  rewrite lookup_pairs_below in Hk by exact Hlt.
  injection Hk as <-.
  destruct (Z.testbit byte _); split; reflexivity.
Qed.

(** In the older firmware every pair lasts 9 ticks of divider 1. *)
Lemma legacy_bit_period byte k it :
  pairs_below Legacy.item_one Legacy.item_zero 8 byte !! k = Some it ->
  pair_ps Legacy.clk_div it = 112500.
Proof.
  intros Hk. pose proof (lookup_lt_Some _ _ _ Hk) as Hlt.
  rewrite length_pairs_below in Hlt.
  rewrite lookup_pairs_below in Hk by exact Hlt.
  injection Hk as <-.
  destruct (Z.testbit byte _); reflexivity.
Qed.

(** Whatever the period [p] of the source clock, if the strip driver
    meets the bit period the older firmware misses it. *)
Lemma no_source_clock_fits_both p :
  (duration0 WS2812.item_one + duration1 WS2812.item_one)
    * (WS2812.clk_div * p) = BIT_PERIOD_PS ->
  (duration0 Legacy.item_one + duration1 Legacy.item_one)
    * (Legacy.clk_div * p) <> BIT_PERIOD_PS.
Proof.
  change (duration0 WS2812.item_one + duration1 WS2812.item_one) with 50.
  change (duration0 Legacy.item_one + duration1 Legacy.item_one) with 9.
  unfold WS2812.clk_div, Legacy.clk_div, BIT_PERIOD_PS. lia.
Qed.

(** Without the division by 10 the conversion of the older firmware,
    [NS * 8 / 100], is the exact one for its divider 1: 64 and 36 ticks,
    32 and 68 ticks, of 12.5 ns. *)
Lemma legacy_conversion_without_div10 :
  Legacy.WS2812_T1H_NS * 8 / 100 * tick_ps Legacy.clk_div = 800 * 1000 /\
  Legacy.WS2812_T1L_NS * 8 / 100 * tick_ps Legacy.clk_div = 450 * 1000 /\
  Legacy.WS2812_T0H_NS * 8 / 100 * tick_ps Legacy.clk_div = 400 * 1000 /\
  Legacy.WS2812_T0L_NS * 8 / 100 * tick_ps Legacy.clk_div = 850 * 1000.
Proof. repeat split; reflexivity. Qed.

(** C4, where the code departs from it.  The strip driver sends every
    pair in 1250 ns: 32 + 18 and 16 + 34 ticks of 25 ns.  The older
    [ws2812_write], run on the byte 0xFF under its own divider 1, sends
    eight pairs of 6 + 3 ticks of 12.5 ns, 112.5 ns a bit instead of
    1250 ns. *)
Theorem C4_legacy_bit_period_off :
  pair_ps WS2812.clk_div WS2812.item_one = BIT_PERIOD_PS /\
  pair_ps WS2812.clk_div WS2812.item_zero = BIT_PERIOD_PS /\
  Legacy.ws2812_write true [255] 1 =
    Done (tt, [RmtWriteItems Legacy.RMT_TX_CHANNEL
                 (replicate 8 (mk_item 1 6 0 3)) 8; FreeItems]) /\
  pair_ps Legacy.clk_div (mk_item 1 6 0 3) = 112500 /\
  112500 <> BIT_PERIOD_PS.
Proof. repeat split; try reflexivity. discriminate. Qed.

End Timing.

Section CoordinateMapper.

Import Game.

Lemma get_index_on_matrix x y :
  0 <= x < 16 -> 0 <= y < 16 ->
  get_index x y = y * 16 + (15 - x) /\ 0 <= get_index x y < 256.
Proof.
  intros Hx Hy. unfold get_index, off_matrix, MATRIX_WIDTH, MATRIX_HEIGHT.
  destruct (Z.ltb_spec x 0); [lia|].
  destruct (Z.geb_spec x 16); [lia|].
  destruct (Z.ltb_spec y 0); [lia|].
  destruct (Z.geb_spec y 16); [lia|].
  cbn [orb]. lia.
Qed.

Lemma get_index_off_matrix x y :
  ~ (0 <= x < 16 /\ 0 <= y < 16) -> get_index x y = -1.
Proof.
  intros Hout. unfold get_index, off_matrix, MATRIX_WIDTH, MATRIX_HEIGHT.
  destruct (Z.ltb_spec x 0); [reflexivity|].
  destruct (Z.geb_spec x 16); [reflexivity|].
  destruct (Z.ltb_spec y 0); [reflexivity|].
  destruct (Z.geb_spec y 16); [reflexivity|].
  lia.
Qed.

(** On rows of even [y] the code agrees with the canonical rule; on rows
    of odd [y] it never does. *)
Lemma get_index_rows x y :
  0 <= x < 16 -> 0 <= y < 16 ->
  (Z.even y = true -> get_index x y = serpentine_index x y) /\
  (Z.even y = false -> get_index x y <> serpentine_index x y).
Proof.
  intros Hx Hy. destruct (get_index_on_matrix x y Hx Hy) as [E _].
  rewrite E. unfold serpentine_index.
  split; intros ->; lia.
Qed.

(** C6, where the code departs from it.  At [(0, 1)], a coordinate of an
    odd row, the canonical rule gives 16 and so do the statements left in
    [get_index] after its [return], but the function returns 31: every
    row is reversed.  The older firmware reverses the odd rows instead
    and returns 0, not 15, at [(0, 0)].  Off the matrix both return -1. *)
Theorem C6_get_index_not_serpentine :
  get_index 0 1 = 31 /\
  serpentine_index 0 1 = 16 /\
  get_index_after_return 0 1 = 16 /\
  Legacy.get_index 0 0 = 0 /\ serpentine_index 0 0 = 15 /\
  get_index 16 0 = -1 /\ get_index 0 (-1) = -1 /\
  Legacy.get_index 16 0 = -1.
Proof. repeat split; reflexivity. Qed.

End CoordinateMapper.

Section StripSafety.

Import WS2812.

Lemma show_without_buffer s px :
  pixels s = Some px ->
  ws2812_show false (Some s) =
    Done (tt, [LogError "Failed to allocate RMT items"]).
Proof. intros Hpx. unfold ws2812_show. rewrite Hpx. reflexivity. Qed.

(** C9, as amended.  When the item buffer cannot be allocated,
    [ws2812_show] logs an error and returns: nothing is handed to the
    peripheral, no wait and no delay follow.  Being [void] it returns to
    its caller what it returns after a transmission, so the caller is
    told nothing.  The older [ws2812_write] returns likewise, without
    even the log line. *)
Theorem C9_alloc_failure_aborts_unreported
    (s : ws2812_t) (px : list ws2812_pixel_t) (data : list Z) (len : Z) :
  well_formed s px ->
  ws2812_show false (Some s) =
    Done (tt, [LogError "Failed to allocate RMT items"]) /\
  forallb (fun e => negb (transmits e)) (events (ws2812_show false (Some s)))
    = true /\
  existsb transmits (events (ws2812_show true (Some s))) = true /\
  returned (ws2812_show false (Some s))
    = returned (ws2812_show true (Some s)) /\
  Legacy.ws2812_write false data len = Done (tt, []).
Proof.
  intros Hwf. pose proof Hwf as (Hpx & _).
  rewrite (show_without_buffer s px Hpx), (show_with_buffer s px Hwf).
  repeat split; reflexivity.
Qed.

Lemma one_red_pixel_well_formed :
  well_formed one_red_pixel [mk_pixel 255 0 0].
Proof.
  repeat split; try reflexivity; try (cbn; lia).
  repeat constructor; cbn; lia.
Qed.

Lemma C9_alloc_failure_aborts_unreported_witness :
  well_formed one_red_pixel [mk_pixel 255 0 0] /\
  returned (ws2812_show false (Some one_red_pixel))
    = returned (ws2812_show true (Some one_red_pixel)).
Proof.
  split; [exact one_red_pixel_well_formed|].
  apply (C9_alloc_failure_aborts_unreported one_red_pixel
           [mk_pixel 255 0 0] [] 0 one_red_pixel_well_formed).
Defined.

(** C9 as written fails: on a strip of one pixel the caller gets the
    same from the call whose allocation fails as from the one that
    transmits. *)
Lemma C9_failure_not_reported : ~ reports_failure (Some one_red_pixel).
Proof. unfold reports_failure. intros H. apply H. reflexivity. Qed.

(** C10.  With a null strip handle no operation touches memory: freeing
    releases nothing, the setters, [ws2812_clear] and [ws2812_show] do
    nothing and end normally, [ws2812_get_pixel] returns black.  This is
    the handle the firmware holds after a failed [ws2812_init], and its
    own display calls go through the same operations. *)
Theorem C10_null_strip_tolerated :
  ws2812_free None = [] /\
  (forall level, ws2812_set_brightness None level = Done None) /\
  (forall index red green blue,
     ws2812_set_pixel None index red green blue = Done None) /\
  (forall index color, ws2812_set_pixel_rgb None index color = Done None) /\
  (forall index, ws2812_get_pixel None index = Done black) /\
  ws2812_clear None = Done None /\
  (forall malloc_ok, ws2812_show malloc_ok None = Done (tt, [])) /\
  (forall calloc_ok count gpio_num chan,
     fst (ws2812_init false calloc_ok count gpio_num chan) = None) /\
  (forall count gpio_num chan,
     fst (ws2812_init true false count gpio_num chan) = None) /\
  Game.clear_display None = Done None /\
  (forall x y red green blue,
     Game.set_pixel None x y red green blue = Done None) /\
  (forall malloc_ok, Game.show_display malloc_ok None = Done (tt, [])).
Proof.
  repeat split; try reflexivity.
  intros x y red green blue. unfold Game.set_pixel.
  destruct (_ && _); reflexivity.
Qed.

(** A strip whose pixel pointer is null is another matter: the setters
    test only the handle, and writing a pixel then faults. *)
Example set_pixel_null_pixels :
  ws2812_set_pixel
    (Some {| channel := 0; gpio := 10; pixel_count := 1;
             pixels := None; brightness := 255 |}) 0 1 2 3 = Fault.
Proof. reflexivity. Qed.

End StripSafety.

Section LegacyFirmware.

(** The older firmware maps distances to positions with the same
    arithmetic. *)
Lemma legacy_sensor_position d :
  Legacy.sensor_position d = Game.sensor_position d.
Proof. reflexivity. Qed.

(** Its encoder sends one byte as eight pairs, most significant bit
    first, long high for a set bit and long low for a clear one. *)
Lemma legacy_write_one_byte byte :
  Legacy.ws2812_write true [byte] 1 =
    Done (tt, [RmtWriteItems Legacy.RMT_TX_CHANNEL
                 (pairs_below Legacy.item_one Legacy.item_zero 8 byte) 8;
               FreeItems]) /\
  duration1 Legacy.item_one < duration0 Legacy.item_one /\
  duration0 Legacy.item_zero < duration1 Legacy.item_zero.
Proof.
  split; [|split; reflexivity].
  unfold Legacy.ws2812_write.
  change (Z.to_nat 1) with 1%nat. change (Z.to_nat (1 * 8)) with 8%nat.
  cbn [Legacy.write_loop]. unfold load. cbn [lookup list_lookup deref obind].
  rewrite write_bits_spec by (cbn; lia). reflexivity.
Qed.

Lemma store_splice {A} (l : list A) i x :
  (i < length l)%nat -> store l i x = Done (splice l [x] i).
Proof.
  intros Hi. rewrite store_in_range by exact Hi. unfold splice.
  rewrite insert_take_drop by exact Hi. cbn [length app].
  rewrite Nat.add_1_r. reflexivity.
Qed.

Lemma length_legacy_bytes leds :
  length (legacy_bytes leds) = (3 * length leds)%nat.
Proof.
  induction leds as [|p leds IH]; [reflexivity|].
  cbn [legacy_bytes flat_map length app]. fold (legacy_bytes leds).
  rewrite IH. lia.
Qed.

Lemma length_legacy_train bytes :
  length (legacy_train bytes) = (8 * length bytes)%nat.
Proof.
  induction bytes as [|x bytes IH]; [reflexivity|].
  cbn [legacy_train flat_map]. rewrite length_app, length_pairs_below.
  fold (legacy_train bytes). rewrite IH. cbn [length]. lia.
Qed.

Lemma fill_data_spec leds n : forall i data,
  (i + n <= length leds)%nat ->
  (3 * (i + n) <= length data)%nat ->
  Legacy.fill_data n leds i data =
    Done (splice data (legacy_bytes (take n (drop i leds))) (i * 3)).
Proof.
  induction n as [|n IH]; intros i data Hleds Hdata.
  - rewrite take_0. cbn [Legacy.fill_data legacy_bytes flat_map].
    unfold splice. cbn [app length]. rewrite Nat.add_0_r, take_drop.
    reflexivity.
  - destruct (lookup_lt_is_Some_2 leds i ltac:(lia)) as [p Hp].
    cbn [Legacy.fill_data]. unfold load. rewrite Hp. cbn [deref obind].
    rewrite store_splice by lia. cbn [obind].
    rewrite store_splice by (rewrite length_splice; cbn [length]; lia).
    cbn [obind]. rewrite splice_splice by (cbn [length]; lia).
    rewrite store_splice
      by (rewrite length_splice; cbn [length app]; lia).
    cbn [obind]. rewrite splice_splice by (cbn [length app]; lia).
    rewrite IH; [| lia | rewrite length_splice; cbn [length app]; lia].
    rewrite splice_splice.
    + rewrite (drop_S leds p i Hp). reflexivity.
    + cbn [length app]. rewrite length_legacy_bytes, length_take,
        length_drop. lia.
    + cbn [length app]. lia.
Qed.

Lemma write_loop_spec data n : forall i item_idx items,
  (i + n <= length data)%nat ->
  (item_idx + 8 * n <= length items)%nat ->
  Legacy.write_loop n data i item_idx items =
    Done (splice items (legacy_train (take n (drop i data))) item_idx).
Proof.
  induction n as [|n IH]; intros i item_idx items Hdata Hitems.
  - rewrite take_0. cbn [Legacy.write_loop legacy_train flat_map].
    unfold splice. cbn [app length]. rewrite Nat.add_0_r, take_drop.
    reflexivity.
  - destruct (lookup_lt_is_Some_2 data i ltac:(lia)) as [x Hx].
    cbn [Legacy.write_loop]. unfold load. rewrite Hx. cbn [deref obind].
    rewrite write_bits_splice by lia. cbn [obind].
    rewrite IH; [| lia |
      rewrite length_splice; rewrite ?length_pairs_below; lia].
    rewrite splice_splice.
    + rewrite (drop_S data x i Hx). reflexivity.
    + rewrite length_pairs_below, length_legacy_train, length_take,
        length_drop. lia.
    + rewrite length_pairs_below. reflexivity.
Qed.

(** The older [show_display] sends, pixel after pixel in index order,
    the green, red and blue bytes as they are stored; the brightness was
    applied by [set_pixel]. *)
Lemma legacy_show_display leds :
  length leds = Z.to_nat Legacy.LED_COUNT ->
  Legacy.show_display true leds =
    Done (tt, [RmtWriteItems Legacy.RMT_TX_CHANNEL
                 (legacy_train (legacy_bytes leds))
                 (Legacy.LED_COUNT * 3 * 8);
               FreeItems]).
Proof.
  intros Hlen. unfold Legacy.show_display.
  assert (Hn : Z.to_nat Legacy.LED_COUNT = 256%nat) by reflexivity.
  assert (Hd : Z.to_nat (Legacy.LED_COUNT * 3) = (3 * 256)%nat)
    by reflexivity.
  assert (Hi : Z.to_nat (Legacy.LED_COUNT * 3 * 8) = (8 * (3 * 256))%nat)
    by reflexivity.
  rewrite Hn in Hlen |- *. rewrite Hd.
  rewrite fill_data_spec by (rewrite ?length_replicate; lia).
  cbn [obind]. rewrite drop_0, take_ge by lia.
  rewrite splice_all by (rewrite length_legacy_bytes, length_replicate; lia).
  unfold Legacy.ws2812_write. rewrite Hd, Hi.
  rewrite write_loop_spec
    by (rewrite ?length_legacy_bytes, ?length_replicate; lia).
  cbn [obind].
  rewrite drop_0, take_ge by (rewrite length_legacy_bytes; lia).
  rewrite splice_all
    by (rewrite length_legacy_train, length_legacy_bytes,
          length_replicate; lia).
  reflexivity.
Qed.

(** Red at [(0, 0)] in the older firmware: stored as 255 * 50 / 255 = 50
    at index 0, and sent as the bytes 0, 50, 0. *)
Example legacy_set_pixel_red :
  Legacy.set_pixel (replicate 256 (Legacy.mk_rgb 0 0 0)) 0 0
    (Legacy.mk_rgb 255 0 0)
  = Done (Legacy.mk_rgb 50 0 0 :: replicate 255 (Legacy.mk_rgb 0 0 0)) /\
  take 3 (legacy_bytes
            (Legacy.mk_rgb 50 0 0 :: replicate 255 (Legacy.mk_rgb 0 0 0)))
  = [0; 50; 0].
Proof. split; reflexivity. Qed.

Import WS2812.

(** C3, where the code departs from it.  In the strip driver the claim
    holds: given a byte and eight free cells from [item] on,
    [ws2812_write_byte] writes exactly those eight cells and no other;
    cell [item + k] holds the pair of bit [7 - k], so the most
    significant bit comes first; a set bit gives the pair high for 32
    ticks and low for 18, which at the configured divider is 800 ns and
    450 ns (long high, short low), a clear bit the pair high for 16
    ticks and low for 34, that is 400 ns and 850 ns (short high, long
    low).  For 0xFF the eight pairs are all of the first kind, for 0x00
    all of the second.
    The older [ws2812_write] hands the peripheral eight pairs for the
    byte as well, most significant bit first, but a set bit is high for
    6 ticks and low for 3 and a clear bit high for 3 and low for 6,
    which at its divider 1 is 75 ns and 37.5 ns, not 800 ns and 450 ns,
    and 37.5 ns and 75 ns, not 400 ns and 850 ns.  So it is in every
    frame [show_display] sends, which is made of these pairs for the
    bytes of the LED array: the first frame of the older firmware, the
    dark one of [init_ws2812], is 6144 pairs of 37.5 ns and 75 ns, and a
    frame with the first LED white begins with the pairs of its first
    byte 50 = 0011 0010, the set bits at 75 ns and 37.5 ns. *)
Theorem C3_write_byte_pulses
    (byte : Z) (buf : list rmt_item32_t) (item : nat) :
  (item + 8 <= length buf)%nat ->
  (exists buf',
     ws2812_write_byte buf item byte = Done buf' /\
     length buf' = length buf /\
     (forall j, (j < item \/ item + 8 <= j)%nat -> buf' !! j = buf !! j) /\
     (forall k, (k < 8)%nat ->
        buf' !! (item + k)%nat =
          Some (if Z.testbit byte (7 - Z.of_nat k)
                then item_one else item_zero)) /\
     (byte = 255 -> take 8 (drop item buf') = replicate 8 item_one) /\
     (byte = 0 -> take 8 (drop item buf') = replicate 8 item_zero)) /\
  (level0 item_one = 1 /\ level1 item_one = 0 /\
   level0 item_zero = 1 /\ level1 item_zero = 0 /\
   duration0 item_one = 32 /\ duration1 item_one = 18 /\
   duration0 item_zero = 16 /\ duration1 item_zero = 34 /\
   high_ps clk_div item_one = 800 * 1000 /\
   low_ps clk_div item_one = 450 * 1000 /\
   high_ps clk_div item_zero = 400 * 1000 /\
   low_ps clk_div item_zero = 850 * 1000) /\
  (Legacy.ws2812_write true [byte] 1 =
     Done (tt, [RmtWriteItems Legacy.RMT_TX_CHANNEL
                  (pairs_below Legacy.item_one Legacy.item_zero 8 byte) 8;
                FreeItems]) /\
   length (pairs_below Legacy.item_one Legacy.item_zero 8 byte) = 8%nat /\
   (forall k, (k < 8)%nat ->
      pairs_below Legacy.item_one Legacy.item_zero 8 byte !! k =
        Some (if Z.testbit byte (7 - Z.of_nat k)
              then Legacy.item_one else Legacy.item_zero)) /\
   level0 Legacy.item_one = 1 /\ level1 Legacy.item_one = 0 /\
   level0 Legacy.item_zero = 1 /\ level1 Legacy.item_zero = 0 /\
   duration0 Legacy.item_one = 6 /\ duration1 Legacy.item_one = 3 /\
   duration0 Legacy.item_zero = 3 /\ duration1 Legacy.item_zero = 6 /\
   high_ps Legacy.clk_div Legacy.item_one = 75 * 1000 /\
   low_ps Legacy.clk_div Legacy.item_one = 37500 /\
   high_ps Legacy.clk_div Legacy.item_zero = 37500 /\
   low_ps Legacy.clk_div Legacy.item_zero = 75 * 1000) /\
  (forall leds, length leds = 256%nat ->
     Legacy.show_display true leds =
       Done (tt, [RmtWriteItems Legacy.RMT_TX_CHANNEL
                    (flat_map
                       (pairs_below Legacy.item_one Legacy.item_zero 8)
                       (legacy_bytes leds)) 6144;
                  FreeItems])) /\
  flat_map (pairs_below Legacy.item_one Legacy.item_zero 8)
    (legacy_bytes (replicate 256 (Legacy.mk_rgb 0 0 0)))
    = replicate (Z.to_nat 6144) Legacy.item_zero /\
  (exists leds,
     Legacy.set_pixel (replicate 256 (Legacy.mk_rgb 0 0 0)) 0 0
       (Legacy.mk_rgb 255 255 255) = Done leds /\
     length leds = 256%nat /\
     take 8 (flat_map (pairs_below Legacy.item_one Legacy.item_zero 8)
               (legacy_bytes leds)) =
       [Legacy.item_zero; Legacy.item_zero; Legacy.item_one; Legacy.item_one;
        Legacy.item_zero; Legacy.item_zero; Legacy.item_one;
        Legacy.item_zero]).
Proof.
  intros Hlen. split; [|split; [|split; [|split; [|split]]]].
  - destruct (write_bits_cells item_one item_zero byte buf item Hlen)
      as (buf' & Hrun & Hl & Hout & Hin & Hall).
    exists buf'. repeat split; try assumption.
    + intros ->. rewrite Hall. reflexivity.
    + intros ->. rewrite Hall. reflexivity.
  - repeat split; reflexivity.
  - split.
    { unfold Legacy.ws2812_write.
      change (Z.to_nat 1) with 1%nat. change (Z.to_nat (1 * 8)) with 8%nat.
      cbn [Legacy.write_loop]. unfold load.
      cbn [lookup list_lookup deref obind].
      rewrite write_bits_spec by (cbn; lia). reflexivity. }
    split; [apply length_pairs_below|].
    split.
    { intros k Hk. rewrite lookup_pairs_below by exact Hk.
      replace (Z.of_nat (8 - 1 - k)) with (7 - Z.of_nat k) by lia.
      reflexivity. }
    repeat split; reflexivity.
  - intros leds Hleds. apply (legacy_show_display leds). exact Hleds.
  - vm_compute. reflexivity.
  - exists (Legacy.mk_rgb 50 50 50 :: replicate 255 (Legacy.mk_rgb 0 0 0)).
    split; [reflexivity|]. split; reflexivity.
Qed.

Lemma C3_write_byte_pulses_witness :
  exists buf',
    ws2812_write_byte (replicate 8 (mk_item 0 0 0 0)) 0 165 = Done buf' /\
    length buf' = 8%nat.
Proof.
  destruct (C3_write_byte_pulses 165 (replicate 8 (mk_item 0 0 0 0)) 0)
    as ((buf' & Hrun & Hlen & _) & _).
  - cbn. lia.
  - exists buf'. split; [exact Hrun | exact Hlen].
Defined.

(** 0xA5 = 1010 0101, most significant bit first. *)
Example write_byte_0xA5 :
  ws2812_write_byte (replicate 8 (mk_item 0 0 0 0)) 0 165
  = Done [item_one; item_zero; item_one; item_zero;
          item_zero; item_one; item_zero; item_one].
Proof. reflexivity. Qed.

End LegacyFirmware.

(* ===================================================================== *)
(** * Further properties of the strip driver *)

Section StripInterface.

Import WS2812.

Lemma to_uint16_range z : 0 <= to_uint16 z < 65536.
Proof. unfold to_uint16. apply Z.mod_pos_bound. lia. Qed.

Lemma to_uint16_small z : 0 <= z < 65536 -> to_uint16 z = z.
Proof. intros Hz. unfold to_uint16. apply Z.mod_small. exact Hz. Qed.

Lemma to_uint8_range z : 0 <= to_uint8 z <= 255.
Proof.
  unfold to_uint8. pose proof (Z.mod_pos_bound z 256 ltac:(lia)). lia.
Qed.

Lemma to_uint8_small z : 0 <= z <= 255 -> to_uint8 z = z.
Proof. intros Hz. unfold to_uint8. apply Z.mod_small. lia. Qed.

Lemma as_pixel_is_colour c : is_colour (as_pixel c).
Proof.
  unfold is_colour, as_pixel. cbn [r g b].
  split; [|split]; apply to_uint8_range.
Qed.

Lemma as_pixel_id c : is_colour c -> as_pixel c = c.
Proof.
  intros (Hr & Hg & Hb). destruct c as [cr cg cb]. unfold as_pixel.
  cbn [r g b] in *. rewrite !to_uint8_small by assumption. reflexivity.
Qed.

(** Reading with any argument reads at the converted index. *)
Lemma get_pixel_converted s px j :
  well_formed s px ->
  ws2812_get_pixel (Some s) j = Done (pixel_at px (to_uint16 j)).
Proof.
  intros (Hpx & Hlen & Hcount & _). pose proof (to_uint16_range j) as Hj.
  unfold ws2812_get_pixel, pixel_at. cbn zeta.
  rewrite Hpx. cbn [deref obind]. unfold load.
  destruct (Z.ltb_spec (to_uint16 j) (pixel_count s)) as [Hlt|Hge].
  - destruct (lookup_lt_is_Some_2 px (Z.to_nat (to_uint16 j)) ltac:(lia))
      as [p Hp].
    rewrite Hp. reflexivity.
  - rewrite (lookup_ge_None_2 px (Z.to_nat (to_uint16 j))) by lia.
    reflexivity.
Qed.

Lemma get_pixel_well_formed s px j :
  well_formed s px -> 0 <= j < 65536 ->
  ws2812_get_pixel (Some s) j = Done (pixel_at px j).
Proof.
  intros Hwf Hj. rewrite (get_pixel_converted s px j Hwf).
  rewrite to_uint16_small by exact Hj. reflexivity.
Qed.

(** Writing with any arguments writes the converted colour at the
    converted index. *)
Lemma set_pixel_rgb_converted s px index c :
  well_formed s px ->
  ws2812_set_pixel_rgb (Some s) index c =
    Done (Some (if to_uint16 index <? pixel_count s
                then with_pixels s
                       (<[ Z.to_nat (to_uint16 index) := as_pixel c ]> px)
                else s)).
Proof.
  intros (Hpx & Hlen & Hcount & _). pose proof (to_uint16_range index) as Hi.
  unfold ws2812_set_pixel_rgb. cbn zeta.
  destruct (Z.ltb_spec (to_uint16 index) (pixel_count s)) as [Hlt|Hge];
    [|reflexivity].
  rewrite Hpx. cbn [deref obind]. rewrite store_in_range by lia.
  reflexivity.
Qed.

Lemma set_pixel_rgb_well_formed s px index c :
  well_formed s px -> 0 <= index < 65536 -> is_colour c ->
  ws2812_set_pixel_rgb (Some s) index c =
    Done (Some (if index <? pixel_count s
                then with_pixels s (<[ Z.to_nat index := c ]> px)
                else s)).
Proof.
  intros Hwf Hi Hc. rewrite (set_pixel_rgb_converted s px index c Hwf).
  rewrite to_uint16_small by exact Hi. rewrite as_pixel_id by exact Hc.
  reflexivity.
Qed.

Lemma well_formed_insert s px i c :
  well_formed s px -> is_colour c ->
  well_formed (with_pixels s (<[ i := c ]> px)) (<[ i := c ]> px).
Proof.
  intros (Hpx & Hlen & Hcount & Hlevel & Hrange) (Hr & Hg & Hb).
  repeat split; cbn [pixels pixel_count brightness with_pixels];
    try lia.
  - rewrite length_insert. exact Hlen.
  - apply Forall_insert; [exact Hrange|]. repeat split; lia.
Qed.

Lemma black_pixels_are_colours n :
  Forall (fun p => 0 <= r p <= 255 /\ 0 <= g p <= 255 /\ 0 <= b p <= 255)
         (replicate n black).
Proof. apply Forall_replicate. cbn. lia. Qed.

Lemma clear_well_formed s px :
  well_formed s px ->
  ws2812_clear (Some s) =
    Done (Some (with_pixels s (replicate (length px) black))).
Proof.
  intros (Hpx & Hlen & _). unfold ws2812_clear. rewrite Hpx, <- Hlen.
  destruct (decide (length px <= length px)%nat) as [_|Hn]; [|lia].
  rewrite drop_all, app_nil_r. reflexivity.
Qed.



(** X2.  On a well-formed strip and for any arguments, which the
    driver converts to [uint16_t] and [uint8_t]: reading pixel [j] after
    setting pixel [index] gives the converted colour just set when the
    two converted indices agree and lie below the pixel count, and what
    pixel [j] held before otherwise; a converted index at or past the
    pixel count changes nothing and reads as black.  So index 65536
    names pixel 0 and the channels (256, 300, -1) are stored as
    (0, 44, 255); for arguments within the widths nothing is converted. *)
Theorem X2_set_then_get
    (s : ws2812_t) (px : list ws2812_pixel_t) (index j red green blue : Z) :
  well_formed s px ->
  exists strip',
    ws2812_set_pixel (Some s) index red green blue = Done strip' /\
    ws2812_get_pixel strip' j =
      (if (to_uint16 j =? to_uint16 index) &&
          (to_uint16 index <? pixel_count s)
       then Done (mk_pixel (to_uint8 red) (to_uint8 green) (to_uint8 blue))
       else ws2812_get_pixel (Some s) j) /\
    (pixel_count s <= to_uint16 index -> strip' = Some s) /\
    (pixel_count s <= to_uint16 j ->
     ws2812_get_pixel (Some s) j = Done black) /\
    (0 <= index < 65536 -> 0 <= j < 65536 ->
     is_colour (mk_pixel red green blue) ->
     ws2812_get_pixel strip' j =
       (if (j =? index) && (index <? pixel_count s)
        then Done (mk_pixel red green blue)
        else ws2812_get_pixel (Some s) j)).
Proof.
  intros Hwf. pose proof Hwf as (Hpx & Hlen & Hcount & _).
  pose proof (to_uint16_range index) as Hi.
  pose proof (to_uint16_range j) as Hj.
  unfold ws2812_set_pixel.
  rewrite (set_pixel_rgb_converted s px index _ Hwf).
  assert (Hget :
    ws2812_get_pixel
      (Some (if to_uint16 index <? pixel_count s
             then with_pixels s
                    (<[ Z.to_nat (to_uint16 index) :=
                          as_pixel (mk_pixel red green blue) ]> px)
             else s)) j =
      (if (to_uint16 j =? to_uint16 index) &&
          (to_uint16 index <? pixel_count s)
       then Done (mk_pixel (to_uint8 red) (to_uint8 green) (to_uint8 blue))
       else ws2812_get_pixel (Some s) j)).
  { destruct (Z.ltb_spec (to_uint16 index) (pixel_count s)) as [Hlt|Hge];
      [|rewrite andb_false_r; reflexivity].
    rewrite (get_pixel_converted _ _ j
               (well_formed_insert s px _ _ Hwf (as_pixel_is_colour _))).
    rewrite (get_pixel_converted s px j Hwf). unfold pixel_at.
    destruct (Z.eqb_spec (to_uint16 j) (to_uint16 index)) as [->|Hne];
      cbn [andb].
    - rewrite list_lookup_insert_eq by lia. reflexivity.
    - rewrite list_lookup_insert_ne by lia. reflexivity. }
  eexists. split; [reflexivity|]. split; [exact Hget|].
  split; [|split].
  - intros Hge. destruct (Z.ltb_spec (to_uint16 index) (pixel_count s));
      [lia|reflexivity].
  - intros Hge. rewrite (get_pixel_converted s px j Hwf).
    unfold pixel_at.
    rewrite (lookup_ge_None_2 px (Z.to_nat (to_uint16 j))) by lia.
    reflexivity.
  - intros Hi' Hj' (Hr & Hg & Hb). cbn [r g b] in Hr, Hg, Hb.
    rewrite Hget. rewrite !to_uint16_small by assumption.
    rewrite !to_uint8_small by assumption. reflexivity.
Qed.

Lemma X2_set_then_get_witness :
  exists strip',
    ws2812_set_pixel (Some one_red_pixel) 65536 256 300 (-1) = Done strip' /\
    ws2812_get_pixel strip' 0 = Done (mk_pixel 0 44 255).
Proof.
  destruct (X2_set_then_get one_red_pixel [mk_pixel 255 0 0] 65536 0
              256 300 (-1) one_red_pixel_well_formed)
    as (strip' & Hset & Hget & _).
  exists strip'. split; [exact Hset | exact Hget].
Defined.

Lemma wire_bytes_black level n :
  wire_bytes level (replicate n black) = replicate (3 * n) 0.
Proof.
  induction n as [|n IH]; [reflexivity|].
  replace (3 * S n)%nat with (S (S (S (3 * n)))) by lia.
  cbn [replicate wire_bytes flat_map app]. fold (wire_bytes level (replicate n black)).
  rewrite IH. reflexivity.
Qed.

Lemma pulse_train_zeros m :
  pulse_train (replicate m 0) = replicate (8 * m) item_zero.
Proof.
  induction m as [|m IH]; [reflexivity|].
  replace (8 * S m)%nat with (8 + 8 * m)%nat by lia.
  cbn [replicate pulse_train flat_map]. fold (pulse_train (replicate m 0)).
  rewrite IH, replicate_add. reflexivity.
Qed.

Lemma pixel_at_black n j : pixel_at (replicate n black) j = black.
Proof.
  unfold pixel_at.
  destruct (replicate n black !! Z.to_nat j) as [p|] eqn:Hp; [|reflexivity].
  apply lookup_replicate in Hp. destruct Hp as [-> _]. reflexivity.
Qed.

(** X3.  Clearing a well-formed strip keeps its brightness and makes
    every pixel read as black; the next show then sends a pulse train
    made of "0" pairs only, twenty-four a pixel. *)
Theorem X3_clear_then_show_is_dark
    (s : ws2812_t) (px : list ws2812_pixel_t) :
  well_formed s px ->
  exists s',
    ws2812_clear (Some s) = Done (Some s') /\
    brightness s' = brightness s /\
    (forall j, 0 <= j -> ws2812_get_pixel (Some s') j = Done black) /\
    ws2812_show true (Some s') =
      Done (tt, [RmtWriteItems (channel s)
                   (replicate (24 * length px) item_zero)
                   (pixel_count s * 3 * 8);
                 RmtWaitTxDone (channel s); FreeItems; TaskDelayMs 1]).
Proof.
  intros Hwf. pose proof Hwf as (Hpx & Hlen & Hcount & Hlevel & Hrange).
  set (s' := with_pixels s (replicate (length px) black)).
  assert (Hwf' : well_formed s' (replicate (length px) black)).
  { repeat split; cbn [s' pixels pixel_count brightness with_pixels];
      try lia.
    - rewrite length_replicate. exact Hlen.
    - apply black_pixels_are_colours. }
  exists s'. split; [apply clear_well_formed; exact Hwf|].
  split; [reflexivity|]. split.
  - intros j Hj. rewrite (get_pixel_converted s' _ j Hwf').
    rewrite pixel_at_black. reflexivity.
  - rewrite (show_with_buffer s' _ Hwf').
    rewrite wire_bytes_black, pulse_train_zeros.
    replace (8 * (3 * length px))%nat with (24 * length px)%nat by lia.
    reflexivity.
Qed.

Lemma X3_clear_then_show_is_dark_witness :
  exists s',
    ws2812_clear (Some one_red_pixel) = Done (Some s') /\
    events (ws2812_show true (Some s')) =
      [RmtWriteItems 0 (replicate 24 item_zero) 24;
       RmtWaitTxDone 0; FreeItems; TaskDelayMs 1].
Proof.
  destruct (X3_clear_then_show_is_dark one_red_pixel [mk_pixel 255 0 0]
              one_red_pixel_well_formed) as (s' & Hclear & _ & _ & Hshow).
  exists s'. split; [exact Hclear|]. rewrite Hshow. reflexivity.
Defined.

Lemma wire_bytes_full px : wire_bytes 255 px = grb_bytes px.
Proof.
  induction px as [|p px IH]; [reflexivity|].
  cbn [wire_bytes grb_bytes flat_map app].
  fold (wire_bytes 255 px). fold (grb_bytes px).
  rewrite !Z.div_mul by lia. rewrite IH. reflexivity.
Qed.

Lemma wire_bytes_off px :
  wire_bytes 0 px = replicate (3 * length px) 0.
Proof.
  induction px as [|p px IH]; [reflexivity|].
  cbn [length]. replace (3 * S (length px))%nat
    with (S (S (S (3 * length px)))) by lia.
  cbn [wire_bytes flat_map app replicate]. fold (wire_bytes 0 px).
  rewrite !Z.mul_0_r, IH. reflexivity.
Qed.

Lemma wire_bytes_dimmer level px :
  0 <= level <= 255 ->
  Forall (fun p => 0 <= r p <= 255 /\ 0 <= g p <= 255 /\ 0 <= b p <= 255) px ->
  Forall2 (fun sent stored => 0 <= sent <= stored)
          (wire_bytes level px) (grb_bytes px).
Proof.
  intros Hl. induction 1 as [|p px (Hr & Hg & Hb) _ IH]; [constructor|].
  assert (Hdim : forall c, 0 <= c <= 255 -> 0 <= c * level / 255 <= c).
  { intros c Hc. split; [apply Z.div_pos; nia|].
    apply Z.div_le_upper_bound; nia. }
  cbn [wire_bytes grb_bytes flat_map app].
  repeat (constructor; [apply Hdim; assumption|]). exact IH.
Qed.

(** X4.  Setting the brightness leaves every stored pixel as it reads;
    it only changes what the next show sends: the stored channels times
    the new level over 255.  At level 255 the stored channels go out
    unchanged, at level 0 every byte is 0, and at any level no byte
    exceeds the stored channel. *)
Theorem X4_brightness_applies_at_show
    (s : ws2812_t) (px : list ws2812_pixel_t) (level : Z) :
  well_formed s px -> 0 <= level <= 255 ->
  exists s',
    ws2812_set_brightness (Some s) level = Done (Some s') /\
    (forall j, ws2812_get_pixel (Some s') j = ws2812_get_pixel (Some s) j) /\
    ws2812_show true (Some s') =
      Done (tt, [RmtWriteItems (channel s)
                   (pulse_train (wire_bytes level px))
                   (pixel_count s * 3 * 8);
                 RmtWaitTxDone (channel s); FreeItems; TaskDelayMs 1]) /\
    bytes_of_train (pulse_train (wire_bytes level px)) = wire_bytes level px /\
    wire_bytes 255 px = grb_bytes px /\
    wire_bytes 0 px = replicate (3 * length px) 0 /\
    Forall2 (fun sent stored => 0 <= sent <= stored)
            (wire_bytes level px) (grb_bytes px).
Proof.
  intros Hwf Hl. pose proof Hwf as (Hpx & Hlen & Hcount & Hlevel & Hrange).
  assert (Hwf' : well_formed (with_brightness s level) px).
  { repeat split; cbn [pixels pixel_count brightness with_brightness];
      try assumption; lia. }
  exists (with_brightness s level).
  split; [reflexivity|]. split; [reflexivity|].
  split; [exact (show_with_buffer _ px Hwf')|].
  split.
  { apply decode_pulse_train.
    exact (proj2 (show_bytes_wire_bytes level px Hl Hrange)). }
  split; [apply wire_bytes_full|].
  split; [apply wire_bytes_off|].
  apply wire_bytes_dimmer; assumption.
Qed.

Lemma X4_brightness_applies_at_show_witness :
  exists s',
    ws2812_set_brightness (Some one_red_pixel) 128 = Done (Some s') /\
    ws2812_get_pixel (Some s') 0 = Done (mk_pixel 255 0 0) /\
    wire_bytes 128 [mk_pixel 255 0 0] = [0; 128; 0].
Proof.
  destruct (X4_brightness_applies_at_show one_red_pixel [mk_pixel 255 0 0]
              128 one_red_pixel_well_formed ltac:(lia))
    as (s' & Hset & Hget & _).
  exists s'. split; [exact Hset|]. split; [|reflexivity].
  rewrite Hget. reflexivity.
Defined.

Lemma train_ps_app d l1 l2 :
  train_ps d (l1 ++ l2) = train_ps d l1 + train_ps d l2.
Proof.
  induction l1 as [|it l1 IH]; [reflexivity|].
  cbn [app]. unfold train_ps in *. cbn [fold_right]. rewrite IH. lia.
Qed.

Lemma train_ps_byte n x :
  train_ps clk_div (pairs_below item_one item_zero n x)
    = Z.of_nat n * BIT_PERIOD_PS /\
  Forall (fun it => level0 it = 1 /\ level1 it = 0)
         (pairs_below item_one item_zero n x).
Proof.
  induction n as [|n [IHt IHl]]; [split; [reflexivity|constructor]|].
  cbn [pairs_below]. split.
  - change (?it :: ?l) with ([it] ++ l). rewrite train_ps_app, IHt.
    destruct (Z.testbit x (Z.of_nat n));
      [change (train_ps clk_div [item_one]) with BIT_PERIOD_PS
      |change (train_ps clk_div [item_zero]) with BIT_PERIOD_PS];
      unfold BIT_PERIOD_PS; lia.
  - constructor; [|exact IHl].
    destruct (Z.testbit x (Z.of_nat n)); split; reflexivity.
Qed.

Lemma train_ps_pulse_train bytes :
  train_ps clk_div (pulse_train bytes) =
    Z.of_nat (length bytes) * 8 * BIT_PERIOD_PS /\
  Forall (fun it => level0 it = 1 /\ level1 it = 0) (pulse_train bytes).
Proof.
  induction bytes as [|x bytes [IHt IHl]]; [split; [reflexivity|constructor]|].
  cbn [pulse_train flat_map]. fold (pulse_train bytes).
  destruct (train_ps_byte 8%nat x) as [Ht Hl]. split.
  - rewrite train_ps_app, Ht, IHt. cbn [length]. unfold BIT_PERIOD_PS. lia.
  - apply Forall_app. split; assumption.
Qed.

(** X5.  On a well-formed strip the item count handed to the peripheral
    is the length of the buffer, twenty-four items a pixel; every item is
    high first and low second; and whatever the colours the train lasts
    1250 ns an item, 30 microseconds a pixel. *)
Theorem X5_frame_length_and_duration
    (s : ws2812_t) (px : list ws2812_pixel_t) :
  well_formed s px ->
  exists items,
    ws2812_show true (Some s) =
      Done (tt, [RmtWriteItems (channel s) items (pixel_count s * 3 * 8);
                 RmtWaitTxDone (channel s); FreeItems; TaskDelayMs 1]) /\
    Z.of_nat (length items) = pixel_count s * 3 * 8 /\
    Forall (fun it => level0 it = 1 /\ level1 it = 0) items /\
    train_ps clk_div items = pixel_count s * 24 * BIT_PERIOD_PS /\
    train_ps clk_div items = pixel_count s * (30 * 1000 * 1000).
Proof.
  intros Hwf. pose proof Hwf as (Hpx & Hlen & Hcount & Hlevel & Hrange).
  exists (pulse_train (wire_bytes (brightness s) px)).
  split; [exact (show_with_buffer s px Hwf)|].
  destruct (show_bytes_wire_bytes (brightness s) px Hlevel Hrange)
    as [Hbytes _].
  destruct (train_ps_pulse_train (wire_bytes (brightness s) px))
    as [Ht Hl].
  assert (Hn : length (wire_bytes (brightness s) px) = (3 * length px)%nat)
    by (rewrite <- Hbytes; apply length_show_bytes).
  split; [rewrite length_pulse_train, Hn; lia|].
  split; [exact Hl|]. rewrite Ht, Hn. unfold BIT_PERIOD_PS. split; lia.
Qed.

Lemma X5_frame_length_and_duration_witness :
  exists items,
    events (ws2812_show true (Some one_red_pixel)) =
      [RmtWriteItems 0 items 24; RmtWaitTxDone 0; FreeItems; TaskDelayMs 1] /\
    train_ps clk_div items = 30000000.
Proof.
  destruct (X5_frame_length_and_duration one_red_pixel [mk_pixel 255 0 0]
              one_red_pixel_well_formed) as (items & Hshow & _ & _ & _ & Ht).
  exists items. split; [rewrite Hshow; reflexivity | exact Ht].
Defined.

Lemma decode_pairs_any one zero n :
  decode_bit one = true -> decode_bit zero = false ->
  forall byte acc,
    fold_left (fun a it => 2 * a + Z.b2z (decode_bit it))
              (pairs_below one zero n byte) acc
    = acc * 2 ^ Z.of_nat n + byte mod 2 ^ Z.of_nat n.
Proof.
  intros Hone Hzero. induction n as [|bit IH]; intros byte acc.
  - cbn [pairs_below fold_left]. change (2 ^ Z.of_nat 0) with 1.
    rewrite Z.mod_1_r. lia.
  - cbn [pairs_below fold_left]. rewrite IH.
    replace (Z.b2z (decode_bit (if Z.testbit byte (Z.of_nat bit)
                                then one else zero)))
      with (Z.b2z (Z.testbit byte (Z.of_nat bit)))
      by (destruct (Z.testbit byte (Z.of_nat bit));
          [rewrite Hone | rewrite Hzero]; reflexivity).
    rewrite Z.testbit_spec' by lia.
    rewrite Nat2Z.inj_succ, Z.pow_succ_r by lia.
    rewrite (Z.mul_comm 2 (2 ^ Z.of_nat bit)).
    rewrite (Z.rem_mul_r byte (2 ^ Z.of_nat bit) 2) by lia.
    ring.
Qed.

Lemma written_cells_decode one zero byte buf item :
  decode_bit one = true -> decode_bit zero = false ->
  0 <= byte < 256 -> (item + 8 <= length buf)%nat ->
  exists buf',
    write_bits one zero 8 byte item buf = Done buf' /\
    decode_byte (take 8 (drop item buf')) = byte.
Proof.
  intros Hone Hzero Hb Hlen.
  destruct (write_bits_cells one zero byte buf item Hlen)
    as (buf' & Hrun & _ & _ & _ & Hcells).
  exists buf'. split; [exact Hrun|].
  rewrite Hcells. unfold decode_byte.
  rewrite (decode_pairs_any one zero 8 Hone Hzero).
  change (2 ^ Z.of_nat 8) with 256. rewrite Z.mod_small by lia. lia.
Qed.

(** X6.  The eight cells either encoder writes for a byte read back as
    that byte, taking a pair that is high longer than low as a 1: the
    encoding loses nothing, in the strip driver and in the older firmware
    alike, so two different bytes never give the same cells. *)
Theorem X6_written_byte_reads_back
    (byte : Z) (buf : list rmt_item32_t) (item : nat) :
  0 <= byte < 256 -> (item + 8 <= length buf)%nat ->
  (exists buf',
     ws2812_write_byte buf item byte = Done buf' /\
     decode_byte (take 8 (drop item buf')) = byte) /\
  (exists buf',
     write_bits Legacy.item_one Legacy.item_zero 8 byte item buf = Done buf' /\
     decode_byte (take 8 (drop item buf')) = byte) /\
  (forall other, 0 <= other < 256 ->
     ws2812_write_byte buf item other = ws2812_write_byte buf item byte ->
     other = byte).
Proof.
  intros Hb Hlen. split; [|split].
  - apply written_cells_decode; try assumption; reflexivity.
  - apply written_cells_decode; try assumption; reflexivity.
  - intros other Ho Heq.
    destruct (written_cells_decode item_one item_zero byte buf item
                eq_refl eq_refl Hb Hlen) as (b1 & H1 & D1).
    destruct (written_cells_decode item_one item_zero other buf item
                eq_refl eq_refl Ho Hlen) as (b2 & H2 & D2).
    unfold ws2812_write_byte in Heq. rewrite H1, H2 in Heq.
    injection Heq as ->. congruence.
Qed.

Lemma X6_written_byte_reads_back_witness :
  exists buf',
    ws2812_write_byte (replicate 8 (mk_item 0 0 0 0)) 0 165 = Done buf' /\
    decode_byte (take 8 (drop 0 buf')) = 165.
Proof.
  apply (X6_written_byte_reads_back 165 (replicate 8 (mk_item 0 0 0 0)) 0).
  - lia.
  - cbn. lia.
Defined.

(** X7.  For every position of the colour wheel the three channels fit a
    byte, add up to 255 and one of them is 0; the wheel starts at green,
    reaches red at 85 and blue at 170, and is back at green at 255. *)
Theorem X7_wheel_channels_sum (pos : Z) :
  0 <= pos <= 255 ->
  is_colour (ws2812_wheel pos) /\
  r (ws2812_wheel pos) + g (ws2812_wheel pos) + b (ws2812_wheel pos) = 255 /\
  (r (ws2812_wheel pos) = 0 \/ g (ws2812_wheel pos) = 0
   \/ b (ws2812_wheel pos) = 0) /\
  ws2812_wheel 0 = mk_pixel 0 255 0 /\
  ws2812_wheel 85 = mk_pixel 255 0 0 /\
  ws2812_wheel 170 = mk_pixel 0 0 255 /\
  ws2812_wheel 255 = mk_pixel 0 255 0.
Proof.
  intros Hp. unfold ws2812_wheel, is_colour, to_uint8.
  destruct (Z.ltb_spec pos 85) as [H1|H1];
    [|destruct (Z.ltb_spec pos 170) as [H2|H2]]; cbn [r g b].
  - rewrite !Z.mod_small by lia. repeat split; try lia; auto.
  - rewrite (Z.mod_small (pos - 85)) by lia.
    rewrite !Z.mod_small by lia. repeat split; try lia; auto.
  - rewrite (Z.mod_small (pos - 170)) by lia.
    rewrite !Z.mod_small by lia. repeat split; try lia; auto.
Qed.

Lemma X7_wheel_channels_sum_witness :
  r (ws2812_wheel 100) + g (ws2812_wheel 100) + b (ws2812_wheel 100) = 255.
Proof. apply (X7_wheel_channels_sum 100). lia. Defined.

Lemma shiftr8_bounds x lo hi :
  0 <= lo -> lo * 256 <= x -> x <= hi * 256 + 255 ->
  lo <= Z.shiftr x 8 <= hi.
Proof.
  intros Hlo Hx Hhi. rewrite Z.shiftr_div_pow2 by lia.
  change (2 ^ 8) with 256.
  pose proof (Z.div_mod x 256 ltac:(lia)) as E.
  pose proof (Z.mod_pos_bound x 256 ltac:(lia)) as B.
  lia.
Qed.

(** X8.  For hue, saturation and value within a byte the colour
    [ws2812_hsv_to_rgb] returns has channels within a byte, its largest
    channel is the value and, unless the saturation is 0, its smallest
    is [v * (255 - s) / 256]; at saturation 0 it is the grey
    [(v, v, v)]. *)
Theorem X8_hsv_largest_channel_is_value (h s v : Z) :
  0 <= h <= 255 -> 0 <= s <= 255 -> 0 <= v <= 255 ->
  is_colour (ws2812_hsv_to_rgb h s v) /\
  Z.max (r (ws2812_hsv_to_rgb h s v))
        (Z.max (g (ws2812_hsv_to_rgb h s v)) (b (ws2812_hsv_to_rgb h s v)))
    = v /\
  (s <> 0 ->
   Z.min (r (ws2812_hsv_to_rgb h s v))
         (Z.min (g (ws2812_hsv_to_rgb h s v)) (b (ws2812_hsv_to_rgb h s v)))
     = v * (255 - s) / 256) /\
  (s = 0 -> ws2812_hsv_to_rgb h s v = mk_pixel v v v).
Proof.
  intros Hh Hs Hv. unfold ws2812_hsv_to_rgb, is_colour.
  destruct (Z.eqb_spec s 0) as [Hs0|Hs0].
  { cbn [r g b]. repeat split; lia. }
  set (region := to_uint8 (Z.quot h 43)).
  assert (Hreg : region = h / 43 /\ 0 <= region <= 5).
  { unfold region, to_uint8. rewrite Z.quot_div_nonneg by lia.
    assert (0 <= h / 43) by (apply Z.div_pos; lia).
    assert (h / 43 < 6) by (apply Z.div_lt_upper_bound; lia).
    rewrite Z.mod_small by lia. lia. }
  set (remainder := to_uint8 ((h - region * 43) * 6)).
  assert (Hrem : 0 <= remainder <= 252).
  { unfold remainder, to_uint8. destruct Hreg as [-> _].
    pose proof (Z.div_mod h 43 ltac:(lia)) as E.
    pose proof (Z.mod_pos_bound h 43 ltac:(lia)) as B.
    rewrite Z.mod_small by lia. lia. }
  assert (Hp : 0 <= Z.shiftr (v * (255 - s)) 8 <= v)
    by (apply shiftr8_bounds; nia).
  assert (HA : 0 <= Z.shiftr (s * remainder) 8 <= s)
    by (apply shiftr8_bounds; nia).
  assert (HB : 0 <= Z.shiftr (s * (255 - remainder)) 8 <= s)
    by (apply shiftr8_bounds; nia).
  assert (Hmono : forall a, 0 <= a <= s ->
            Z.shiftr (v * (255 - s)) 8 <= Z.shiftr (v * (255 - a)) 8 <= v).
  { intros a Ha. rewrite !Z.shiftr_div_pow2 by lia. change (2 ^ 8) with 256.
    split; [apply Z.div_le_mono; nia|].
    apply Z.div_le_upper_bound; nia. }
  pose proof (Hmono _ HA) as Hq. pose proof (Hmono _ HB) as Ht.
  assert (Hmin : Z.shiftr (v * (255 - s)) 8 = v * (255 - s) / 256)
    by (rewrite Z.shiftr_div_pow2 by lia; reflexivity).
  set (p := to_uint8 (Z.shiftr (v * (255 - s)) 8)).
  set (q := to_uint8 (Z.shiftr (v * (255 - Z.shiftr (s * remainder) 8)) 8)).
  set (t := to_uint8
              (Z.shiftr (v * (255 - Z.shiftr (s * (255 - remainder)) 8)) 8)).
  assert (Ep : p = Z.shiftr (v * (255 - s)) 8)
    by (unfold p, to_uint8; apply Z.mod_small; lia).
  assert (Eq : q = Z.shiftr (v * (255 - Z.shiftr (s * remainder) 8)) 8)
    by (unfold q, to_uint8; apply Z.mod_small; lia).
  assert (Et : t = Z.shiftr (v * (255 - Z.shiftr (s * (255 - remainder)) 8)) 8)
    by (unfold t, to_uint8; apply Z.mod_small; lia).
  clearbody p q t. clearbody remainder.
  assert (Hcase : region = 0 \/ region = 1 \/ region = 2 \/ region = 3
                  \/ region = 4 \/ region = 5) by lia.
  clearbody region.
  destruct Hcase as [->|[->|[->|[->|[->| ->]]]]]; cbn [r g b];
    repeat split; try lia; try contradiction.
Qed.

Lemma X8_hsv_largest_channel_is_value_witness :
  Z.max (r (ws2812_hsv_to_rgb 100 200 150))
        (Z.max (g (ws2812_hsv_to_rgb 100 200 150))
               (b (ws2812_hsv_to_rgb 100 200 150))) = 150.
Proof. apply (X8_hsv_largest_channel_is_value 100 200 150); lia. Defined.

End StripInterface.

(* ===================================================================== *)
(** * Further properties of the game firmware: drawing *)

Section Drawing.

Import WS2812 Game.

Lemma legacy_get_index_on_matrix x y :
  on_matrix x y ->
  Legacy.get_index x y =
    (if Z.even y then y * 16 + x else y * 16 + (15 - x)) /\
  0 <= Legacy.get_index x y < 256 /\
  Legacy.get_index x y / 16 = y.
Proof.
  intros [Hx Hy]. unfold Legacy.get_index, Legacy.MATRIX_WIDTH,
    Legacy.MATRIX_HEIGHT.
  destruct (Z.ltb_spec x 0); [lia|].
  destruct (Z.geb_spec x 16); [lia|].
  destruct (Z.ltb_spec y 0); [lia|].
  destruct (Z.geb_spec y 16); [lia|].
  cbn [orb].
  assert (Hpar : (Z.rem y 2 =? 0) = Z.even y).
  { rewrite Z.rem_mod_nonneg by lia. rewrite Zeven_mod. reflexivity. }
  rewrite Hpar.
  destruct (Z.even y); (split; [reflexivity|]); (split; [lia|]).
  - replace (y * 16 + x) with (x + y * 16) by lia.
    rewrite Z.div_add, Z.div_small by lia. lia.
  - replace (y * 16 + (16 - 1 - x)) with (15 - x + y * 16) by lia.
    rewrite Z.div_add, Z.div_small by lia. lia.
Qed.

(** X9.  On the matrix [get_index] is one-to-one and onto the 256 LED
    indices, in the game firmware (every row reversed) and in the older
    firmware (odd rows reversed): two different cells never share an LED
    and no LED is left without a cell. *)
Theorem X9_get_index_is_a_bijection (x y x' y' idx : Z) :
  on_matrix x y -> on_matrix x' y' -> 0 <= idx < 256 ->
  (0 <= get_index x y < 256 /\
   (get_index x y = get_index x' y' -> x = x' /\ y = y') /\
   get_index (15 - idx mod 16) (idx / 16) = idx /\
   on_matrix (15 - idx mod 16) (idx / 16)) /\
  (0 <= Legacy.get_index x y < 256 /\
   (Legacy.get_index x y = Legacy.get_index x' y' -> x = x' /\ y = y') /\
   Legacy.get_index
     (if Z.even (idx / 16) then idx mod 16 else 15 - idx mod 16) (idx / 16)
     = idx).
Proof.
  intros Hxy Hxy' Hidx.
  pose proof (Z.div_mod idx 16 ltac:(lia)) as E.
  pose proof (Z.mod_pos_bound idx 16 ltac:(lia)) as B.
  assert (Hq : 0 <= idx / 16 < 16).
  { split; [apply Z.div_pos; lia | apply Z.div_lt_upper_bound; lia]. }
  split.
  - destruct Hxy as [Hx Hy], Hxy' as [Hx' Hy'].
    destruct (get_index_on_matrix x y Hx Hy) as [E1 R1].
    destruct (get_index_on_matrix x' y' Hx' Hy') as [E2 _].
    destruct (get_index_on_matrix (15 - idx mod 16) (idx / 16)
                ltac:(lia) Hq) as [E3 _].
    split; [exact R1|]. split; [rewrite E1, E2; lia|].
    split; [rewrite E3; lia | split; lia].
  - destruct (legacy_get_index_on_matrix x y Hxy) as (E1 & R1 & D1).
    destruct (legacy_get_index_on_matrix x' y' Hxy') as (E2 & _ & D2).
    split; [exact R1|]. split.
    + intros Heq. assert (y = y') by congruence. subst y'.
      rewrite E1, E2 in Heq. destruct (Z.even y); lia.
    + assert (Hon : on_matrix
                (if Z.even (idx / 16) then idx mod 16 else 15 - idx mod 16)
                (idx / 16)).
      { split; [destruct (Z.even (idx / 16)); lia | exact Hq]. }
      destruct (legacy_get_index_on_matrix _ _ Hon) as (E3 & _).
      rewrite E3. destruct (Z.even (idx / 16)); lia.
Qed.

Lemma X9_get_index_is_a_bijection_witness :
  on_matrix 3 5 /\ get_index (15 - 100 mod 16) (100 / 16) = 100.
Proof.
  split; [unfold on_matrix; lia|].
  apply (X9_get_index_is_a_bijection 3 5 3 5 100);
    unfold on_matrix; lia.
Defined.

Lemma get_after_insert s px index c j :
  well_formed s px -> 0 <= index < pixel_count s -> 0 <= j < 65536 ->
  ws2812_get_pixel
    (Some (with_pixels s (<[ Z.to_nat index := c ]> px))) j =
  if j =? index then Done c else ws2812_get_pixel (Some s) j.
Proof.
  intros Hwf Hi Hj. pose proof Hwf as (Hpx & Hlen & Hcount & _).
  rewrite (get_pixel_well_formed s px j Hwf Hj).
  unfold ws2812_get_pixel. cbn zeta. rewrite (to_uint16_small j Hj).
  cbn [pixel_count pixels with_pixels deref obind].
  unfold pixel_at, load.
  destruct (Z.eqb_spec j index) as [->|Hne].
  - destruct (Z.ltb_spec index (pixel_count s)); [|lia].
    rewrite list_lookup_insert_eq by lia. reflexivity.
  - rewrite list_lookup_insert_ne by lia.
    destruct (Z.ltb_spec j (pixel_count s)) as [Hjl|Hjg].
    + destruct (lookup_lt_is_Some_2 px (Z.to_nat j) ltac:(lia)) as [p Hp].
      rewrite Hp. reflexivity.
    + rewrite (lookup_ge_None_2 px (Z.to_nat j)) by lia. reflexivity.
Qed.

Lemma paints_set_pixel x y red green blue :
  is_colour (mk_pixel red green blue) ->
  paints (fun st => set_pixel st x y red green blue)
         (mk_pixel red green blue) (fun a b => a = x /\ b = y).
Proof.
  intros Hc. split; [intros a b; lia|].
  intros s [Hcount [px Hwf]]. unfold set_pixel, LED_COUNT,
    MATRIX_WIDTH, MATRIX_HEIGHT in *.
  assert (Hdec : on_matrix x y \/ ~ on_matrix x y)
    by (unfold on_matrix; lia).
  destruct Hdec as [[Hx Hy]|Hoff].
  - destruct (get_index_on_matrix x y Hx Hy) as [E R].
    destruct (Z.leb_spec 0 (get_index x y)); [|lia].
    destruct (Z.ltb_spec (get_index x y) (16 * 16)); [|lia].
    cbn [andb]. unfold ws2812_set_pixel.
    rewrite (set_pixel_rgb_well_formed s px (get_index x y) _ Hwf
               ltac:(lia) Hc).
    destruct (Z.ltb_spec (get_index x y) (pixel_count s)); [|lia].
    eexists. split; [reflexivity|]. split.
    { split; [exact Hcount|]. eexists.
      apply well_formed_insert; eassumption. }
    split; [reflexivity|].
    intros a b [Ha Hb].
    destruct (get_index_on_matrix a b Ha Hb) as [E' R'].
    rewrite (get_after_insert s px _ _ _ Hwf) by lia.
    split.
    + intros [-> ->]. rewrite Z.eqb_refl. reflexivity.
    + intros Hne. destruct (Z.eqb_spec (get_index a b) (get_index x y));
        [|reflexivity]. exfalso. apply Hne. lia.
  - rewrite (get_index_off_matrix x y) by exact Hoff. cbn [Z.leb andb].
    exists s. split; [reflexivity|]. split; [split; eauto|].
    split; [reflexivity|]. intros a b Hab. split; [|reflexivity].
    intros [-> ->]. contradiction.
Qed.

Lemma paints_iff op c (P Q : Z -> Z -> Prop) :
  paints op c P -> (forall a b, P a b <-> Q a b) -> paints op c Q.
Proof.
  intros [Hdec Hop] Hiff. split.
  - intros a b. destruct (Hdec a b) as [H|H]; [left|right];
      rewrite <- Hiff; exact H.
  - intros s Hs. destruct (Hop s Hs) as (s' & Hrun & Hs' & Hb & Hcells).
    exists s'. split; [exact Hrun|]. split; [exact Hs'|].
    split; [exact Hb|]. intros a b Hab.
    destruct (Hcells a b Hab) as [HP HnP]. split; intros H.
    + apply HP, Hiff, H.
    + apply HnP. intros Hp. apply H, Hiff, Hp.
Qed.

Lemma paints_seq op1 op2 c (P Q : Z -> Z -> Prop) :
  paints op1 c P -> paints op2 c Q ->
  paints (fun st => do st1 <- op1 st; op2 st1) c
         (fun a b => P a b \/ Q a b).
Proof.
  intros [HdP H1] [HdQ H2]. split.
  - intros a b. destruct (HdP a b), (HdQ a b); tauto.
  - intros s Hs. destruct (H1 s Hs) as (s1 & Hrun1 & Hs1 & Hb1 & Hc1).
    destruct (H2 s1 Hs1) as (s2 & Hrun2 & Hs2 & Hb2 & Hc2).
    exists s2. rewrite Hrun1. cbn [obind].
    split; [exact Hrun2|]. split; [exact Hs2|].
    split; [congruence|]. intros a b Hab.
    destruct (Hc1 a b Hab) as [HP HnP], (Hc2 a b Hab) as [HQ HnQ].
    split.
    + intros HPQ. destruct (HdQ a b) as [Hq|Hq]; [exact (HQ Hq)|].
      rewrite (HnQ Hq). destruct HPQ as [Hp|Hq']; [exact (HP Hp)|tauto].
    + intros Hn. rewrite HnQ, HnP by tauto. reflexivity.
Qed.

Lemma paints_for_each body c (P : Z -> Z -> Z -> Prop) n :
  (forall k, paints (body k) c (P k)) ->
  forall i,
    paints (for_each n i body) c
           (fun a b => exists k, i <= k < i + Z.of_nat n /\ P k a b).
Proof.
  intros Hbody. induction n as [|n IH]; intros i.
  - split; [intros a b; right; intros (k & Hk & _); lia|].
    intros s Hs. exists s. split; [reflexivity|]. split; [exact Hs|].
    split; [reflexivity|]. intros a b _. split; [|reflexivity].
    intros (k & Hk & _). lia.
  - apply (paints_iff _ c _ _ (paints_seq _ _ c _ _ (Hbody i) (IH (i + 1)))).
    intros a b. split.
    + intros [Hp|(k & Hk & Hp)]; [exists i | exists k]; split;
        try assumption; lia.
    + intros (k & Hk & Hp).
      assert (Hcase : k = i \/ i + 1 <= k) by lia.
      destruct Hcase as [->|Hgt]; [left; exact Hp|].
      right. exists k. split; [lia | exact Hp].
Qed.

Lemma paints_read op c (P : Z -> Z -> Prop) s :
  paints op c P -> canvas s ->
  exists s',
    op (Some s) = Done (Some s') /\ canvas s' /\
    brightness s' = brightness s /\
    forall a b (t : bool), on_matrix a b -> (t = true <-> P a b) ->
      ws2812_get_pixel (Some s') (get_index a b) =
        if t then Done c else ws2812_get_pixel (Some s) (get_index a b).
Proof.
  intros [_ Hop] Hs. destruct (Hop s Hs) as (s' & Hrun & Hs' & Hb & Hcells).
  exists s'. split; [exact Hrun|]. split; [exact Hs'|]. split; [exact Hb|].
  intros a b t Hab Ht. destruct (Hcells a b Hab) as [HP HnP].
  destruct t.
  - apply HP, Ht. reflexivity.
  - apply HnP. intros Hp. apply Ht in Hp. discriminate.
Qed.

Lemma paints_filled_rect x y w h red green blue :
  is_colour (mk_pixel red green blue) ->
  paints (fun st => draw_rect st x y w h red green blue true)
         (mk_pixel red green blue)
         (fun a b => x <= a < x + w /\ y <= b < y + h).
Proof.
  intros Hc. unfold draw_rect, for_loop.
  eapply paints_iff.
  - apply (paints_for_each _ _
             (fun i a b => exists j, 0 <= j < 0 + Z.of_nat (Z.to_nat w) /\
                                     (a = x + j /\ b = y + i))).
    intros i.
    apply (paints_for_each _ _ (fun j a b => a = x + j /\ b = y + i)).
    intros j. apply paints_set_pixel. exact Hc.
  - intros a b. split.
    + intros (i & Hi & j & Hj & -> & ->). lia.
    + intros [Ha Hb]. exists (b - y). split; [lia|].
      exists (a - x). split; [lia|]. lia.
Qed.

Lemma paints_outline_rect x y w h red green blue :
  is_colour (mk_pixel red green blue) ->
  paints (fun st => draw_rect st x y w h red green blue false)
         (mk_pixel red green blue)
         (fun a b =>
            (x <= a < x + w /\ (b = y \/ b = y + h - 1)) \/
            (y <= b < y + h /\ (a = x \/ a = x + w - 1))).
Proof.
  intros Hc. unfold draw_rect, for_loop.
  eapply paints_iff.
  - apply paints_seq.
    + apply (paints_for_each _ _
               (fun i a b => (a = x + i /\ b = y) \/
                             (a = x + i /\ b = y + h - 1))).
      intros i. apply paints_seq; apply paints_set_pixel; exact Hc.
    + apply (paints_for_each _ _
               (fun i a b => (a = x /\ b = y + i) \/
                             (a = x + w - 1 /\ b = y + i))).
      intros i. apply paints_seq; apply paints_set_pixel; exact Hc.
  - intros a b. split.
    + intros [(i & Hi & Hp)|(i & Hi & Hp)]; lia.
    + intros [[Ha Hb]|[Hb Ha]].
      * left. exists (a - x). split; lia.
      * right. exists (b - y). split; lia.
Qed.

(** X10.  On the canvas [set_pixel] gives the colour to the cell
    [(x, y)] and leaves every other cell of the matrix as it read before;
    with [(x, y)] off the matrix it leaves the strip as it is.  It never
    touches the brightness. *)
Theorem X10_set_pixel_paints_one_cell
    (s : ws2812_t) (x y a b red green blue : Z) :
  canvas s -> is_colour (mk_pixel red green blue) -> on_matrix a b ->
  exists s',
    set_pixel (Some s) x y red green blue = Done (Some s') /\
    canvas s' /\ brightness s' = brightness s /\
    ws2812_get_pixel (Some s') (get_index a b) =
      (if (a =? x) && (b =? y) then Done (mk_pixel red green blue)
       else ws2812_get_pixel (Some s) (get_index a b)) /\
    (~ on_matrix x y -> s' = s).
Proof.
  intros Hs Hc Hab.
  destruct (paints_read _ _ _ s (paints_set_pixel x y red green blue Hc) Hs)
    as (s' & Hrun & Hs' & Hb & Hcells).
  exists s'. split; [exact Hrun|]. split; [exact Hs'|]. split; [exact Hb|].
  split.
  - apply Hcells; [exact Hab|].
    rewrite andb_true_iff, !Z.eqb_eq. reflexivity.
  - intros Hoff. unfold set_pixel in Hrun.
    rewrite (get_index_off_matrix x y) in Hrun by exact Hoff.
    change (0 <=? -1) with false in Hrun. cbn [andb] in Hrun.
    congruence.
Qed.

(** X11.  On the canvas a filled [draw_rect] gives the colour to the
    cells of the matrix inside the rectangle [x .. x+w-1] by
    [y .. y+h-1] and leaves all other cells as they read before; the
    part of the rectangle off the matrix is dropped and an empty or
    negative width or height draws nothing.  The call ends normally
    wherever the rectangle lies. *)
Theorem X11_filled_rect_is_clipped
    (s : ws2812_t) (x y w h a b red green blue : Z) :
  canvas s -> is_colour (mk_pixel red green blue) -> on_matrix a b ->
  exists s',
    draw_rect (Some s) x y w h red green blue true = Done (Some s') /\
    canvas s' /\ brightness s' = brightness s /\
    ws2812_get_pixel (Some s') (get_index a b) =
      (if (x <=? a) && (a <? x + w) && (y <=? b) && (b <? y + h)
       then Done (mk_pixel red green blue)
       else ws2812_get_pixel (Some s) (get_index a b)).
Proof.
  intros Hs Hc Hab.
  destruct (paints_read _ _ _ s
              (paints_filled_rect x y w h red green blue Hc) Hs)
    as (s' & Hrun & Hs' & Hb & Hcells).
  exists s'. split; [exact Hrun|]. split; [exact Hs'|]. split; [exact Hb|].
  apply Hcells; [exact Hab|].
  rewrite !andb_true_iff, !Z.leb_le, !Z.ltb_lt. lia.
Qed.

(** X12.  On the canvas an outline [draw_rect] gives the colour to the
    cells of the matrix on the top and bottom rows between [x] and
    [x+w-1] and on the left and right columns between [y] and [y+h-1],
    and leaves all other cells, the inside of the rectangle among them,
    as they read before. *)
Theorem X12_outline_rect_leaves_inside
    (s : ws2812_t) (x y w h a b red green blue : Z) :
  canvas s -> is_colour (mk_pixel red green blue) -> on_matrix a b ->
  exists s',
    draw_rect (Some s) x y w h red green blue false = Done (Some s') /\
    canvas s' /\ brightness s' = brightness s /\
    ws2812_get_pixel (Some s') (get_index a b) =
      (if ((x <=? a) && (a <? x + w) && ((b =? y) || (b =? y + h - 1)))
          || ((y <=? b) && (b <? y + h) && ((a =? x) || (a =? x + w - 1)))
       then Done (mk_pixel red green blue)
       else ws2812_get_pixel (Some s) (get_index a b)) /\
    (x < a < x + w - 1 -> y < b < y + h - 1 ->
     ws2812_get_pixel (Some s') (get_index a b)
     = ws2812_get_pixel (Some s) (get_index a b)).
Proof.
  intros Hs Hc Hab.
  destruct (paints_read _ _ _ s
              (paints_outline_rect x y w h red green blue Hc) Hs)
    as (s' & Hrun & Hs' & Hb & Hcells).
  exists s'. split; [exact Hrun|]. split; [exact Hs'|]. split; [exact Hb|].
  split.
  - apply Hcells; [exact Hab|].
    rewrite orb_true_iff, !andb_true_iff, !orb_true_iff,
      !Z.leb_le, !Z.ltb_lt, !Z.eqb_eq. lia.
  - intros Ha Hb'. apply (Hcells a b false Hab). split; [discriminate|]. lia.
Qed.

Lemma fresh_canvas_is_canvas : canvas fresh_canvas.
Proof.
  split; [reflexivity|]. exists (replicate 256 black).
  split; [reflexivity|]. split; [reflexivity|].
  split; [change (0 <= 256); lia|].
  split; [change (0 <= 50 <= 255); lia|].
  apply Forall_replicate. cbn. lia.
Qed.

Lemma red_is_colour : is_colour (mk_pixel 255 0 0).
Proof. unfold is_colour. cbn. lia. Qed.

Lemma X10_set_pixel_paints_one_cell_witness :
  exists s',
    set_pixel (Some fresh_canvas) 3 5 255 0 0 = Done (Some s') /\
    ws2812_get_pixel (Some s') (get_index 3 5) = Done (mk_pixel 255 0 0).
Proof.
  destruct (X10_set_pixel_paints_one_cell fresh_canvas 3 5 3 5 255 0 0
              fresh_canvas_is_canvas red_is_colour)
    as (s' & Hrun & _ & _ & Hget & _).
  - unfold on_matrix. lia.
  - exists s'. split; [exact Hrun | exact Hget].
Defined.

Lemma X11_filled_rect_is_clipped_witness :
  exists s',
    draw_rect (Some fresh_canvas) 14 14 4 4 255 0 0 true = Done (Some s') /\
    ws2812_get_pixel (Some s') (get_index 15 15) = Done (mk_pixel 255 0 0).
Proof.
  destruct (X11_filled_rect_is_clipped fresh_canvas 14 14 4 4 15 15 255 0 0
              fresh_canvas_is_canvas red_is_colour)
    as (s' & Hrun & _ & _ & Hget).
  - unfold on_matrix. lia.
  - exists s'. split; [exact Hrun | exact Hget].
Defined.

Lemma X12_outline_rect_leaves_inside_witness :
  exists s',
    draw_rect (Some fresh_canvas) 0 0 8 8 255 0 0 false = Done (Some s') /\
    ws2812_get_pixel (Some s') (get_index 3 3)
    = ws2812_get_pixel (Some fresh_canvas) (get_index 3 3).
Proof.
  destruct (X12_outline_rect_leaves_inside fresh_canvas 0 0 8 8 3 3 255 0 0
              fresh_canvas_is_canvas red_is_colour)
    as (s' & Hrun & _ & _ & _ & Hin).
  - unfold on_matrix. lia.
  - exists s'. split; [exact Hrun | apply Hin; lia].
Defined.

End Drawing.

(* ===================================================================== *)
(** * Further properties of the game firmware: sensor and menu *)

Section SensorWave.

Import Game.

Lemma on_wave_step st :
  on_wave st ->
  on_wave (sim_step st) /\
  0 <= wave_phase st < 104 /\
  wave_phase (sim_step st) = (wave_phase st + 1) mod 104.
Proof.
  unfold on_wave, wave_phase, sim_step, to_uint16.
  cbn [sim_dist dir].
  intros [Hmod [[Hd Hr]|[Hd Hr]]]; rewrite Hd.
  - rewrite (Z.mod_small (sim_dist st + 1 * 5)) by lia.
    change (1 =? 1) with true. cbn iota. unfold Z.gtb.
    destruct (Z.compare_spec (sim_dist st + 1 * 5) 350) as [E|E|E];
      destruct (Z.ltb_spec (sim_dist st + 1 * 5) 100) as [L|L]; try lia;
      try change (1 =? 1) with true; try change (-1 =? 1) with false;
      cbn iota; repeat split; try lia; Z.div_mod_to_equations; lia.
  - rewrite (Z.mod_small (sim_dist st + -1 * 5)) by lia.
    change (-1 =? 1) with false. cbn iota. unfold Z.gtb.
    destruct (Z.compare_spec (sim_dist st + -1 * 5) 350) as [E|E|E];
      destruct (Z.ltb_spec (sim_dist st + -1 * 5) 100) as [L|L]; try lia;
      try change (1 =? 1) with true; try change (-1 =? 1) with false;
      cbn iota; repeat split; try lia; Z.div_mod_to_equations; lia.
Qed.

Lemma on_wave_read usable hw st :
  on_wave st -> on_wave (snd (fst (read_tof_sensor usable hw st))).
Proof.
  intros Hw. unfold read_tof_sensor.
  destruct usable; [destruct hw|]; cbn [fst snd].
  - exact Hw.
  - exact (proj1 (on_wave_step (bump st) Hw)).
  - exact (proj1 (on_wave_step st Hw)).
Qed.

Lemma reachable_on_wave st : tof_reachable st -> on_wave st.
Proof.
  induction 1 as [|usable hw st _ IH].
  - unfold on_wave. cbn. split; [reflexivity|]. left. lia.
  - apply on_wave_read, IH.
Qed.

Lemma after_fallbacks_phase n : forall st,
  on_wave st ->
  on_wave (after_fallbacks n st) /\
  wave_phase (after_fallbacks n st) = (wave_phase st + Z.of_nat n) mod 104.
Proof.
  induction n as [|n IH]; intros st Hw.
  - destruct (on_wave_step st Hw) as (_ & Hr & _).
    cbn [after_fallbacks]. split; [exact Hw|].
    rewrite Z.add_0_r, Z.mod_small by lia. reflexivity.
  - destruct (on_wave_step st Hw) as (Hw' & Hr & Hp).
    cbn [after_fallbacks read_tof_sensor fst snd].
    destruct (IH (bump (sim_step st)) Hw') as [Hw'' Hp''].
    split; [exact Hw''|]. rewrite Hp''.
    change (wave_phase (bump (sim_step st))) with (wave_phase (sim_step st)).
    rewrite Hp, Zplus_mod_idemp_l. f_equal. lia.
Qed.

Lemma wave_phase_determines st st' :
  on_wave st -> on_wave st' -> wave_phase st = wave_phase st' ->
  sim_dist st = sim_dist st' /\ dir st = dir st'.
Proof.
  unfold on_wave, wave_phase.
  intros [Hm [[Hd Hr]|[Hd Hr]]] [Hm' [[Hd' Hr']|[Hd' Hr']]];
    rewrite Hd, Hd'; cbn; Z.div_mod_to_equations; lia.
Qed.

(** X13.  From any state the statics of [read_tof_sensor] can reach,
    reads that keep falling back follow a cycle of exactly 104 steps:
    after 104 more such reads the simulated distance and its direction
    are what they were and the next read returns the same value, after
    fewer they are not.  Every value read on the way is a multiple of
    5. *)
Theorem X13_fallback_wave_has_period_104
    (st : tof_state) (n : nat) (k : Z) :
  tof_reachable st -> 0 < k < 104 ->
  sim_dist (after_fallbacks (n + 104) st) = sim_dist (after_fallbacks n st) /\
  dir (after_fallbacks (n + 104) st) = dir (after_fallbacks n st) /\
  fst (fst (read_tof_sensor false None (after_fallbacks (n + 104) st)))
    = fst (fst (read_tof_sensor false None (after_fallbacks n st))) /\
  fst (fst (read_tof_sensor false None (after_fallbacks n st))) mod 5 = 0 /\
  (sim_dist (after_fallbacks (n + Z.to_nat k) st), 
   dir (after_fallbacks (n + Z.to_nat k) st))
  <> (sim_dist (after_fallbacks n st), dir (after_fallbacks n st)).
Proof.
  intros Hreach Hk. pose proof (reachable_on_wave st Hreach) as Hw.
  destruct (after_fallbacks_phase n st Hw) as [Hwn Hpn].
  destruct (after_fallbacks_phase (n + 104) st Hw) as [Hwp Hpp].
  destruct (after_fallbacks_phase (n + Z.to_nat k) st Hw) as [Hwk Hpk].
  assert (Hsame : wave_phase (after_fallbacks (n + 104) st)
                  = wave_phase (after_fallbacks n st)).
  { rewrite Hpp, Hpn. rewrite Nat2Z.inj_add.
    replace (wave_phase st + (Z.of_nat n + Z.of_nat 104))
      with (wave_phase st + Z.of_nat n + 1 * 104) by lia.
    apply Z.mod_add. lia. }
  destruct (wave_phase_determines _ _ Hwp Hwn Hsame) as [Es Ed].
  split; [exact Es|]. split; [exact Ed|]. split; [|split].
  - cbn [read_tof_sensor fst]. unfold sim_step. cbn [sim_dist].
    rewrite Es, Ed. reflexivity.
  - cbn [read_tof_sensor fst].
    exact (proj1 (proj1 (on_wave_step _ Hwn))).
  - intros Heq. injection Heq as Hs Hd.
    assert (Hph : wave_phase (after_fallbacks (n + Z.to_nat k) st)
                  = wave_phase (after_fallbacks n st))
      by (unfold wave_phase; rewrite Hs, Hd; reflexivity).
    rewrite Hpk, Hpn, Nat2Z.inj_add, Z2Nat.id in Hph by lia.
    destruct (on_wave_step st Hw) as (_ & Hr & _).
    pose proof (Z.div_mod (wave_phase st + Z.of_nat n) 104 ltac:(lia)) as E1.
    pose proof (Z.mod_pos_bound (wave_phase st + Z.of_nat n) 104
                  ltac:(lia)) as B1.
    pose proof (Z.div_mod (wave_phase st + (Z.of_nat n + k)) 104
                  ltac:(lia)) as E2.
    lia.
Qed.

Lemma X13_fallback_wave_has_period_104_witness :
  sim_dist (after_fallbacks (0 + 104) tof_init)
  = sim_dist (after_fallbacks 0 tof_init).
Proof.
  apply (X13_fallback_wave_has_period_104 tof_init 0 1 reach_init). lia.
Defined.

End SensorWave.

Section MenuRuns.

Import Game.



(** X14.  The hold time is right across the wrap of the 32-bit
    millisecond counter: with the start time taken at [t0_us] and a clock
    that has run less than [2^32] ms since, the elapsed time the menu
    computes is the real number of milliseconds, and a pass on the
    targeted quadrant confirms exactly when that number is at least
    5000. *)
Theorem X14_hold_time_survives_counter_wrap
    (s : menu_state) (u : tick) (t0_us : Z) :
  in_selection_range (tk_distance u) = true ->
  new_selection u = last_stable_selection s ->
  selection_start_time s = millis t0_us ->
  0 <= t0_us <= tk_time_us u ->
  tk_time_us u / 1000 - t0_us / 1000 < 4294967296 ->
  elapsed (selection_start_time s) u = tk_time_us u / 1000 - t0_us / 1000 /\
  (snd (menu_case u s) = true <->
   5000 <= tk_time_us u / 1000 - t0_us / 1000).
Proof.
  intros Hr Hsel Hstart Hclock Hspan.
  assert (He : elapsed (selection_start_time s) u
               = tk_time_us u / 1000 - t0_us / 1000)
    by (rewrite Hstart; apply elapsed_real; assumption).
  split; [exact He|].
  destruct (Z.le_gt_cases SELECTION_HOLD_TIME
              (elapsed (selection_start_time s) u)) as [Hge|Hlt].
  - rewrite (menu_case_confirm u s Hr Hsel Hge). cbn [snd].
    rewrite <- He. unfold SELECTION_HOLD_TIME in Hge. tauto.
  - rewrite (menu_case_waiting u s Hr Hsel Hlt). cbn [snd].
    rewrite <- He. unfold SELECTION_HOLD_TIME in Hlt.
    split; [discriminate | lia].
Qed.

Lemma X14_hold_time_survives_counter_wrap_witness :
  millis 4294973000000 < millis 4294967000000 /\
  snd (menu_case (mk_tick 120 120 4294973000000)
         {| current_mode := MENU; menu_selection := 0;
            last_stable_selection := 0;
            selection_start_time := millis 4294967000000 |}) = true.
Proof.
  split; [vm_compute; reflexivity|].
  refine (proj2 (proj2
    (X14_hold_time_survives_counter_wrap
       {| current_mode := MENU; menu_selection := 0;
          last_stable_selection := 0;
          selection_start_time := millis 4294967000000 |}
       (mk_tick 120 120 4294973000000) 4294967000000
       eq_refl eq_refl eq_refl _ _)) _).
  - cbn [tk_time_us]. lia.
  - vm_compute. reflexivity.
  - vm_compute. discriminate.
Defined.



End MenuRuns.

(* ===================================================================== *)
(** * Further properties of the game firmware: the shooter *)

Section Shooter.

Import WS2812 Game.

Lemma alive_count_cons v l :
  alive_count (v :: l) = (if v =? 0 then 0 else 1) + alive_count l.
Proof.
  unfold alive_count. rewrite filter_cons.
  destruct (decide (v <> 0)) as [Hv|Hv];
    destruct (Z.eqb_spec v 0); try contradiction; cbn [length]; lia.
Qed.

Lemma alive_count_app l1 l2 :
  alive_count (l1 ++ l2) = alive_count l1 + alive_count l2.
Proof.
  unfold alive_count. rewrite filter_app, length_app. lia.
Qed.

Lemma alive_count_nonneg l : 0 <= alive_count l.
Proof. unfold alive_count. lia. Qed.

Lemma alive_count_kill l j v :
  l !! j = Some v -> v <> 0 ->
  alive_count (<[ j := 0 ]> l) = alive_count l - 1.
Proof.
  intros Hj Hv. pose proof (lookup_lt_Some _ _ _ Hj) as Hlt.
  rewrite insert_take_drop by exact Hlt.
  rewrite <- (take_drop_middle l j v Hj) at 3.
  rewrite !alive_count_app, !alive_count_cons.
  destruct (Z.eqb_spec v 0); [contradiction|]. cbn. lia.
Qed.

Lemma revive_spec n : forall i inv,
  (i + n <= length inv)%nat ->
  revive n i inv = Done (splice inv (replicate n 1) i).
Proof.
  induction n as [|n IH]; intros i inv Hlen.
  - cbn [revive replicate]. unfold splice. cbn [app length].
    rewrite Nat.add_0_r, take_drop. reflexivity.
  - cbn [revive]. rewrite store_splice by lia. cbn [obind].
    rewrite IH by (rewrite length_splice; cbn [length]; lia).
    rewrite splice_splice.
    + reflexivity.
    + cbn [length]. rewrite length_replicate. lia.
    + cbn [length]. lia.
Qed.

Lemma revive_all inv :
  length inv = 20%nat -> revive 20 0 inv = Done (replicate 20 1).
Proof.
  intros Hlen. rewrite revive_spec by lia.
  rewrite splice_all by (rewrite length_replicate; lia). reflexivity.
Qed.

(** The collision loop removes at most one invader, a live one, and then
    counts it. *)
Lemma hit_scan_spec n : forall i st,
  (i + n <= length (invaders st))%nat ->
  exists st',
    hit_scan n i st = Done st' /\
    length (invaders st') = length (invaders st) /\
    player_x st' = player_x st /\ bullet_x st' = bullet_x st /\
    invader_y st' = invader_y st /\ initialized st' = initialized st /\
    high_score st' = high_score st /\
    last_player_x st' = last_player_x st /\
    ((invaders st' = invaders st /\ score st' = score st /\
      bullet_y st' = bullet_y st) \/
     (score st' = score st + 1 /\ bullet_y st' = -1 /\
      alive_count (invaders st') = alive_count (invaders st) - 1)).
Proof.
  induction n as [|n IH]; intros i st Hlen.
  - exists st. cbn [hit_scan]. repeat split; try reflexivity. left.
    repeat split; reflexivity.
  - destruct (lookup_lt_is_Some_2 (invaders st) i ltac:(lia)) as [v Hv].
    cbn [hit_scan]. unfold load. rewrite Hv. cbn [deref obind].
    destruct (negb (v =? 0) && _) eqn:Hhit.
    + rewrite store_in_range by lia. cbn [obind].
      eexists. split; [reflexivity|].
      cbn [invaders player_x bullet_x bullet_y invader_y initialized
           score high_score last_player_x].
      rewrite length_insert. repeat split; try reflexivity. right.
      repeat split; try reflexivity.
      apply (alive_count_kill _ _ v Hv).
      apply andb_prop in Hhit. destruct Hhit as [Hne _].
      destruct (Z.eqb_spec v 0); [discriminate | assumption].
    + apply IH. lia.
Qed.

Lemma any_alive_spec n : forall i inv,
  (i + n <= length inv)%nat ->
  exists flag,
    any_alive n i inv = Done flag /\
    (flag = false <-> alive_count (take n (drop i inv)) = 0).
Proof.
  induction n as [|n IH]; intros i inv Hlen.
  - exists false. cbn [any_alive]. rewrite take_0. split; [reflexivity|].
    split; reflexivity.
  - destruct (lookup_lt_is_Some_2 inv i ltac:(lia)) as [v Hv].
    cbn [any_alive]. unfold load. rewrite Hv. cbn [deref obind].
    rewrite (drop_S inv v i Hv). cbn [firstn]. rewrite alive_count_cons.
    pose proof (alive_count_nonneg (take n (drop (S i) inv))) as Hpos.
    destruct (Z.eqb_spec v 0) as [Hz|Hz]; cbn [negb].
    + destruct (IH (S i) inv ltac:(lia)) as (flag & Hrun & Hflag).
      exists flag. split; [exact Hrun|]. rewrite Hflag. lia.
    + exists true. split; [reflexivity|]. split; [discriminate | lia].
Qed.

(** What a pass of the shooter does to its statics. *)
Lemma invaders_update_spec (position : Z) (st : invaders_state) :
  invaders_ok st ->
  exists st' over evs,
    invaders_update position st = Done (st', over, evs) /\
    invaders_ok st' /\
    score st' + alive_count (invaders st') = 20 /\
    (score st' = (if initialized st then score st else 0) \/
     score st' = (if initialized st then score st else 0) + 1) /\
    (over = true <-> alive_count (invaders st') = 0) /\
    (over = true ->
     score st' = 20 /\ initialized st' = false /\
     high_score st' = Z.max (high_score st) 20 /\
     In (GameOverScreen 20 (Z.max (high_score st) 20)) evs) /\
    (over = false ->
     initialized st' = true /\ high_score st' = high_score st) /\
    player_x st' = (if position >? 14 then 14 else position).
Proof.
  intros (Hlen & Hby & Hscore). unfold invaders_update.
  set (score0 := if initialized st then score st else 0).
  assert (Hinit : exists inv0,
            (if initialized st then Done (invaders st)
             else revive 20 0 (invaders st)) = Done inv0 /\
            length inv0 = 20%nat /\ score0 + alive_count inv0 = 20).
  { unfold score0. destruct (initialized st).
    - exists (invaders st). repeat split; auto.
    - exists (replicate 20 1). split; [apply revive_all; exact Hlen|].
      split; reflexivity. }
  destruct Hinit as (inv0 & -> & Hlen0 & Hsum0). cbn [obind].
  set (legend := if initialized st then [] else [PrintLegend]).
  set (px := if position >? 14 then 14 else position).
  set (fire := (bullet_y st <? 0) && (Z.abs (px - last_player_x st) >? 3)).
  set (bx := if fire then px + 1 else bullet_x st).
  set (by1 := if fire then 13 else bullet_y st).
  assert (Hby1 : -1 <= by1 <= 13) by (unfold by1; destruct fire; lia).
  assert (Hscan : exists st2,
            (if 0 <=? by1
             then hit_scan 20 0
                    {| player_x := px; invaders := inv0;
                       bullet_x := bx; bullet_y := by1 - 1;
                       invader_y := invader_y st; initialized := true;
                       score := score0; high_score := high_score st;
                       last_player_x := px |}
             else Done {| player_x := px; invaders := inv0;
                          bullet_x := bx; bullet_y := by1;
                          invader_y := invader_y st; initialized := true;
                          score := score0; high_score := high_score st;
                          last_player_x := px |}) = Done st2 /\
            length (invaders st2) = 20%nat /\
            -1 <= bullet_y st2 <= 12 /\
            initialized st2 = true /\ high_score st2 = high_score st /\
            score st2 + alive_count (invaders st2) = 20 /\
            (score st2 = score0 \/ score st2 = score0 + 1) /\
            player_x st2 = px).
  { destruct (Z.leb_spec 0 by1) as [Hge|Hlt].
    - destruct (hit_scan_spec 20 0
                  {| player_x := px; invaders := inv0;
                     bullet_x := bx; bullet_y := by1 - 1;
                     invader_y := invader_y st; initialized := true;
                     score := score0; high_score := high_score st;
                     last_player_x := px |})
        as (st2 & Hrun & Hl & Hpx & _ & _ & Hi & Hh & _ & Hcase).
      { cbn [invaders]. lia. }
      cbn [invaders initialized high_score score bullet_y player_x] in *.
      exists st2. split; [exact Hrun|]. split; [lia|].
      destruct Hcase as [(Hinv & Hsc & Hb)|(Hsc & Hb & Hal)].
      + rewrite Hinv, Hsc, Hb. repeat split; auto; lia.
      + rewrite Hsc, Hb, Hal. repeat split; auto; lia.
    - eexists. split; [reflexivity|].
      cbn [invaders initialized high_score score bullet_y player_x].
      repeat split; auto; lia. }
  destruct Hscan as (st2 & -> & Hlen2 & Hby2 & Hinit2 & Hhigh2 & Hsum2 & Hstep
                     & Hpx2).
  cbn [obind].
  destruct (any_alive_spec 20 0 (invaders st2) ltac:(lia))
    as (flag & -> & Hflag).
  rewrite drop_0, take_ge in Hflag by lia. cbn [obind].
  pose proof (alive_count_nonneg (invaders st2)) as Hpos.
  destruct flag.
  - exists st2, false, legend. split; [reflexivity|].
    split; [repeat split; auto; lia|]. split; [exact Hsum2|].
    split; [exact Hstep|]. split.
    { split; [discriminate|]. intros H0. apply Hflag in H0. discriminate. }
    split; [discriminate|]. split; [intros _; split; assumption|].
    exact Hpx2.
  - assert (Hnone : alive_count (invaders st2) = 0)
      by (apply Hflag; reflexivity).
    assert (H20 : score st2 = 20) by lia.
    eexists _, true, _. split; [reflexivity|]. unfold invaders_ok.
    cbn [invaders bullet_y initialized score high_score player_x].
    assert (Hbest : (if score st2 >? high_score st2
                     then score st2 else high_score st2)
                    = Z.max (high_score st) 20).
    { rewrite Hhigh2, H20. unfold Z.gtb.
      destruct (Z.compare_spec 20 (high_score st)); lia. }
    rewrite Hbest, H20.
    split; [split; [exact Hlen2|]; split; [lia|]; intros H; discriminate H|].
    split; [lia|]. split; [rewrite <- H20; exact Hstep|]. split; [tauto|].
    split; [|split; [intros H; discriminate H | exact Hpx2]]. intros _.
    split; [reflexivity|]. split; [reflexivity|]. split; [reflexivity|].
    apply in_or_app. right. left. reflexivity.
Qed.

(** X16.  In the shooter the score counts the destroyed invaders: from
    statics in order a pass of [run_invaders] ends normally with twenty
    invaders, the score plus the number of live ones equal to 20, and
    the statics in order again; the pass adds at most one to the score,
    after the reset to 0 of a pass that starts a game; and the game ends
    on the pass exactly when no invader is left, with the score at 20,
    the best score raised to it if it was lower and 20 and the best score
    handed to the game-over screen. *)
Theorem X16_invaders_score_counts_kills
    (position : Z) (st : invaders_state) :
  invaders_ok st ->
  exists st' over evs,
    invaders_update position st = Done (st', over, evs) /\
    invaders_ok st' /\
    score st' + alive_count (invaders st') = 20 /\
    (score st' = (if initialized st then score st else 0) \/
     score st' = (if initialized st then score st else 0) + 1) /\
    (over = true <-> alive_count (invaders st') = 0) /\
    (over = true ->
     score st' = 20 /\ initialized st' = false /\
     high_score st' = Z.max (high_score st) 20 /\
     In (GameOverScreen 20 (Z.max (high_score st) 20)) evs) /\
    (over = false ->
     initialized st' = true /\ high_score st' = high_score st).
Proof.
  intros Hok.
  destruct (invaders_update_spec position st Hok)
    as (st' & over & evs & Hrun & Hok' & Hsum & Hstep & Hover & Hend & Hon & _).
  exists st', over, evs. repeat (split; [assumption|]). exact Hon.
Qed.

Lemma invaders_statics_ok : invaders_ok invaders_statics.
Proof.
  split; [reflexivity|]. split; [cbn; lia|]. discriminate.
Qed.

Lemma X16_invaders_score_counts_kills_witness :
  invaders_ok invaders_statics /\
  exists st' over evs,
    invaders_update 7 invaders_statics = Done (st', over, evs) /\
    score st' + alive_count (invaders st') = 20.
Proof.
  split; [exact invaders_statics_ok|].
  destruct (X16_invaders_score_counts_kills 7 invaders_statics
              invaders_statics_ok) as (st' & over & evs & Hrun & _ & Hsum & _).
  exists st', over, evs. split; [exact Hrun | exact Hsum].
Defined.

Lemma paints_touches op c (P : Z -> Z -> Prop) :
  paints op c P -> touches op P.
Proof.
  intros [_ Hop] s Hs. destruct (Hop s Hs) as (s' & Hrun & Hs' & Hb & Hc).
  exists s'. repeat (split; [assumption|]).
  intros a b Hab Hn. exact (proj2 (Hc a b Hab) Hn).
Qed.

Lemma touches_seq op1 op2 (R : Z -> Z -> Prop) :
  touches op1 R -> touches op2 R ->
  touches (fun st => do st1 <- op1 st; op2 st1) R.
Proof.
  intros H1 H2 s Hs. destruct (H1 s Hs) as (s1 & Hrun1 & Hs1 & Hb1 & Hc1).
  destruct (H2 s1 Hs1) as (s2 & Hrun2 & Hs2 & Hb2 & Hc2).
  exists s2. rewrite Hrun1. cbn [obind].
  split; [exact Hrun2|]. split; [exact Hs2|]. split; [congruence|].
  intros a b Hab Hn. rewrite (Hc2 a b Hab Hn). apply Hc1; assumption.
Qed.

Lemma touches_weaken op (R R' : Z -> Z -> Prop) :
  touches op R -> (forall a b, R a b -> R' a b) -> touches op R'.
Proof.
  intros H Hsub s Hs. destruct (H s Hs) as (s' & Hrun & Hs' & Hb & Hc).
  exists s'. repeat (split; [assumption|]).
  intros a b Hab Hn. apply Hc; [exact Hab|]. intros Hr. apply Hn, Hsub, Hr.
Qed.

Lemma touches_nothing (R : Z -> Z -> Prop) : touches (fun st => Done st) R.
Proof.
  intros s Hs. exists s. repeat (split; [assumption || reflexivity|]).
  reflexivity.
Qed.

Lemma green_is_colour : is_colour (mk_pixel 0 255 0).
Proof. unfold is_colour. cbn. lia. Qed.

(** The invaders are drawn above row 14. *)
Lemma draw_invaders_touches st n : forall i,
  (i + n <= length (invaders st))%nat ->
  touches (draw_invaders n i st) (fun a b => b < 14).
Proof.
  induction n as [|n IH]; intros i Hlen.
  - apply touches_nothing.
  - destruct (lookup_lt_is_Some_2 (invaders st) i ltac:(lia)) as [v Hv].
    intros s Hs. cbn [draw_invaders]. unfold load. rewrite Hv.
    cbn [deref obind].
    refine (touches_seq
              (fun strip =>
                 if negb (v =? 0) && (invader_row i (invader_y st) <? 14)
                 then draw_rect strip (invader_column i)
                        (invader_row i (invader_y st)) 2 1 0 255 0 true
                 else Done strip)
              (draw_invaders n (S i) st) _ _ (IH (S i) ltac:(lia)) s Hs).
    destruct (negb (v =? 0)); cbn [andb]; [|apply touches_nothing].
    destruct (Z.ltb_spec (invader_row i (invader_y st)) 14) as [Hrow|Hrow];
      [|apply touches_nothing].
    eapply touches_weaken.
    + apply (paints_touches _ _ _
               (paints_filled_rect (invader_column i)
                  (invader_row i (invader_y st)) 2 1 0 255 0
                  green_is_colour)).
    + cbn beta. intros a b Hin. lia.
Qed.

(** After [clear_display] every cell reads black. *)
Lemma clear_display_canvas s :
  canvas s ->
  exists s',
    clear_display (Some s) = Done (Some s') /\ canvas s' /\
    brightness s' = brightness s /\
    forall j, 0 <= j -> ws2812_get_pixel (Some s') j = Done black.
Proof.
  intros [Hcount [px Hwf]]. pose proof Hwf as (Hpx & Hlen & Hc & Hl & Hr).
  unfold clear_display. rewrite (clear_well_formed s px Hwf).
  set (s' := with_pixels s (replicate (length px) black)).
  assert (Hwf' : well_formed s' (replicate (length px) black)).
  { split; [reflexivity|]. split; [rewrite length_replicate; exact Hlen|].
    split; [exact Hc|]. split; [exact Hl|]. apply black_pixels_are_colours. }
  exists s'. split; [reflexivity|]. split; [split; [exact Hcount|eauto]|].
  split; [reflexivity|]. intros j Hj.
  rewrite (get_pixel_converted s' _ j Hwf'), pixel_at_black.
  reflexivity.
Qed.

Lemma cyan_is_colour : is_colour (mk_pixel 0 255 255).
Proof. unfold is_colour. cbn. lia. Qed.

Lemma yellow_is_colour : is_colour (mk_pixel 255 255 0).
Proof. unfold is_colour. cbn. lia. Qed.

(** The frame of the shooter on its two bottom rows. *)
Lemma invaders_render_bottom_rows st s a b :
  length (invaders st) = 20%nat -> bullet_y st <= 12 ->
  canvas s -> on_matrix a b -> 14 <= b ->
  exists s',
    invaders_render st (Some s) = Done (Some s') /\ canvas s' /\
    brightness s' = brightness s /\
    ws2812_get_pixel (Some s') (get_index a b) =
      if (player_x st <=? a) && (a <? player_x st + 2)
      then Done (mk_pixel 0 255 255) else Done black.
Proof.
  intros Hlen Hby Hs Hab Hb. unfold invaders_render.
  destruct (clear_display_canvas s Hs) as (s1 & -> & Hs1 & Hb1 & Hblack).
  cbn [obind].
  destruct (paints_read _ _ _ s1
              (paints_filled_rect (player_x st) 14 2 2 0 255 255
                 cyan_is_colour) Hs1)
    as (s2 & -> & Hs2 & Hb2 & Hship).
  cbn [obind].
  assert (Hbullet : touches
            (fun strip => if 0 <=? bullet_y st
                          then set_pixel strip (bullet_x st) (bullet_y st)
                                 255 255 0
                          else Done strip)
            (fun a' b' => b' < 14)).
  { destruct (0 <=? bullet_y st); [|apply touches_nothing].
    eapply touches_weaken.
    - apply (paints_touches _ _ _
               (paints_set_pixel (bullet_x st) (bullet_y st) 255 255 0
                  yellow_is_colour)).
    - cbn beta. intros a' b' [_ ->]. lia. }
  destruct (Hbullet s2 Hs2) as (s3 & -> & Hs3 & Hb3 & Hkeep3).
  cbn [obind].
  destruct (draw_invaders_touches st 20 0 ltac:(lia) s3 Hs3)
    as (s4 & -> & Hs4 & Hb4 & Hkeep4).
  exists s4. split; [reflexivity|]. split; [exact Hs4|].
  split; [congruence|].
  rewrite (Hkeep4 a b Hab) by lia. rewrite (Hkeep3 a b Hab) by lia.
  rewrite (Hship a b ((player_x st <=? a) && (a <? player_x st + 2)) Hab).
  - destruct Hab as [Ha Hb']. destruct (get_index_on_matrix a b Ha Hb').
    rewrite Hblack by lia. reflexivity.
  - destruct Hab as [Ha Hb'].
    rewrite andb_true_iff, Z.leb_le, Z.ltb_lt. lia.
Qed.

Lemma frames_sent_app hw1 hw2 :
  frames_sent (hw1 ++ hw2) = (frames_sent hw1 + frames_sent hw2)%nat.
Proof.
  unfold frames_sent. rewrite List.filter_app, length_app. reflexivity.
Qed.

Lemma show_display_sends s :
  canvas s ->
  exists hw,
    show_display true (Some s) = Done (tt, hw) /\
    existsb transmits hw = true /\ frames_sent hw = 1%nat.
Proof.
  intros [_ [px Hwf]]. unfold show_display.
  rewrite (show_with_buffer s px Hwf). eexists.
  split; [reflexivity|]. split; reflexivity.
Qed.

Lemma show_and_wait_one_frame ms : one_frame (show_and_wait true ms).
Proof.
  intros s Hs. destruct (show_display_sends s Hs) as (hw & Hrun & _ & Hn).
  unfold show_and_wait. rewrite Hrun. cbn [obind snd].
  exists s, (hw ++ [TaskDelayMsByPeriod ms]).
  split; [reflexivity|]. split; [exact Hs|]. split; [reflexivity|].
  rewrite frames_sent_app, Hn. reflexivity.
Qed.

Lemma one_frame_after op frame :
  touches op (fun _ _ => True) -> one_frame frame ->
  one_frame (fun st => do st1 <- op st; frame st1).
Proof.
  intros Hop Hframe s Hs.
  destruct (Hop s Hs) as (s1 & Hrun1 & Hs1 & Hb1 & _).
  destruct (Hframe s1 Hs1) as (s2 & hw & Hrun2 & Hs2 & Hb2 & Hn).
  exists s2, hw. rewrite Hrun1. cbn [obind].
  split; [exact Hrun2|]. split; [exact Hs2|]. split; [congruence|exact Hn].
Qed.

Lemma clear_display_touches : touches clear_display (fun _ _ => True).
Proof.
  intros s Hs.
  destruct (clear_display_canvas s Hs) as (s' & Hrun & Hs' & Hb & _).
  exists s'. split; [exact Hrun|]. split; [exact Hs'|]. split; [exact Hb|].
  intros a b _ Hn. exfalso. apply Hn. exact I.
Qed.

Lemma draw_rect_touches x y w h red green blue filled :
  is_colour (mk_pixel red green blue) ->
  touches (fun st => draw_rect st x y w h red green blue filled)
          (fun _ _ => True).
Proof.
  intros Hc. destruct filled.
  - eapply touches_weaken;
      [apply (paints_touches _ _ _
                (paints_filled_rect x y w h red green blue Hc))|].
    intros a b _. exact I.
  - eapply touches_weaken;
      [apply (paints_touches _ _ _
                (paints_outline_rect x y w h red green blue Hc))|].
    intros a b _. exact I.
Qed.

Lemma score_dots_touches count :
  touches (for_loop count (fun i st => set_pixel st i 14 0 255 0))
          (fun _ _ => True).
Proof.
  unfold for_loop. eapply touches_weaken.
  - apply (paints_touches _ _ _
             (paints_for_each (fun i st => set_pixel st i 14 0 255 0)
                (mk_pixel 0 255 0) (fun i a b => a = i /\ b = 14)
                (Z.to_nat count)
                (fun i => paints_set_pixel i 14 0 255 0 green_is_colour) 0)).
  - intros a b _. exact I.
Qed.

(** A loop of [n] animation frames sends [n] frames. *)
Lemma frame_loop_frames body step n :
  (forall i, one_frame (body i)) ->
  forall i s, canvas s ->
    exists s' hw,
      frame_loop n i step body (Some s) = Done (Some s', hw) /\
      canvas s' /\ brightness s' = brightness s /\
      frames_sent hw = n.
Proof.
  intros Hbody. induction n as [|n IH]; intros i s Hs.
  - exists s, []. split; [reflexivity|]. split; [exact Hs|].
    split; reflexivity.
  - destruct (Hbody i s Hs) as (s1 & hw1 & Hrun1 & Hs1 & Hb1 & Hn1).
    destruct (IH (i + step) s1 Hs1) as (s2 & hw2 & Hrun2 & Hs2 & Hb2 & Hn2).
    exists s2, (hw1 ++ hw2). cbn [frame_loop]. rewrite Hrun1.
    cbn [obind fst snd]. rewrite Hrun2. cbn [obind fst snd].
    split; [reflexivity|]. split; [exact Hs2|]. split; [congruence|].
    rewrite frames_sent_app, Hn1, Hn2. reflexivity.
Qed.

Lemma level_is_colour red : 0 <= red <= 255 -> is_colour (mk_pixel red 0 0).
Proof. intros Hr. unfold is_colour. cbn [r g b]. lia. Qed.

(** The game-over screen with every allocation granted: fifty-nine
    frames, and the strip left dark at its brightness, whatever the
    scores and whatever the fade computes. *)
Lemma show_game_over_screen_spec fade final_score best s :
  canvas s ->
  exists s' hw,
    show_game_over_screen fade (fun _ => true) final_score best (Some s)
      = Done (Some s', hw) /\
    canvas s' /\ brightness s' = brightness s /\
    frames_sent hw = 59%nat /\
    forall j, 0 <= j -> ws2812_get_pixel (Some s') j = Done black.
Proof.
  intros Hs. unfold show_game_over_screen.
  match goal with
  | |- context [frame_loop 40 0 1 ?body _] =>
      assert (Hflash : forall i, one_frame (body i))
  end.
  { intros frame.
    apply (one_frame_after clear_display); [apply clear_display_touches|].
    assert (Hred : is_colour
              (mk_pixel (if Z.rem frame 10 <? 5 then 255 else 127) 0 0))
      by (apply level_is_colour; destruct (Z.rem frame 10 <? 5); lia).
    cbn zeta.
    apply (one_frame_after
             (fun st => draw_rect st 3 2 10 3
                          (if Z.rem frame 10 <? 5 then 255 else 127)
                          0 0 false));
      [apply draw_rect_touches; exact Hred|].
    apply (one_frame_after
             (fun st => draw_rect st 3 6 10 3
                          (if Z.rem frame 10 <? 5 then 255 else 127)
                          0 0 false));
      [apply draw_rect_touches; exact Hred|].
    apply (one_frame_after
             (fun st =>
                if (0 <=? final_score) && (frame >? 10)
                then
                  do st5 <- for_loop (Z.min final_score 16)
                              (fun i st' => set_pixel st' i 14 0 255 0) st;
                  if (final_score >? best) && (Z.rem frame 6 <? 3)
                  then draw_rect st5 0 12 16 1 255 255 0 true
                  else Done st5
                else Done st));
      [|apply show_and_wait_one_frame].
    destruct ((0 <=? final_score) && (frame >? 10));
      [|apply touches_nothing].
    apply touches_seq; [apply score_dots_touches|].
    destruct ((final_score >? best) && (Z.rem frame 6 <? 3));
      [|apply touches_nothing].
    apply draw_rect_touches, yellow_is_colour. }
  destruct (frame_loop_frames _ 1 40 Hflash 0 s Hs)
    as (s1 & hw1 & -> & Hs1 & Hb1 & Hn1).
  cbn [obind fst snd].
  match goal with
  | |- context [frame_loop 18 255 (-15) ?body _] =>
      assert (Hfade : forall i, one_frame (body i))
  end.
  { intros level.
    apply (one_frame_after clear_display); [apply clear_display_touches|].
    assert (Hred : is_colour (mk_pixel (to_uint8 (fade level)) 0 0))
      by (apply level_is_colour, to_uint8_range).
    cbn zeta.
    apply (one_frame_after
             (fun st => draw_rect st 3 2 10 3 (to_uint8 (fade level))
                          0 0 false));
      [apply draw_rect_touches; exact Hred|].
    apply (one_frame_after
             (fun st => draw_rect st 3 6 10 3 (to_uint8 (fade level))
                          0 0 false));
      [apply draw_rect_touches; exact Hred|].
    apply show_and_wait_one_frame. }
  destruct (frame_loop_frames _ (-15) 18 Hfade 255 s1 Hs1)
    as (s2 & hw2 & -> & Hs2 & Hb2 & Hn2).
  cbn [obind fst snd].
  destruct (clear_display_canvas s2 Hs2) as (s3 & -> & Hs3 & Hb3 & Hdark).
  cbn [obind].
  destruct (show_display_sends s3 Hs3) as (hw3 & -> & _ & Hn3).
  cbn [obind snd].
  exists s3, (hw1 ++ hw2 ++ hw3). split; [reflexivity|].
  split; [exact Hs3|]. split; [congruence|].
  split; [|exact Hdark].
  rewrite !frames_sent_app, Hn1, Hn2, Hn3. reflexivity.
Qed.

(** X17.  A pass of [run_invaders] on the canvas, with every allocation
    granted and whatever the fade of the game-over screen computes, ends
    normally.  When it ends the game it plays the game-over screen:
    fifty-nine frames are sent and the strip is left dark, at the
    brightness it had.  Otherwise it sends one frame, and on the two
    bottom rows of that frame the cells of the two columns from
    [player_x] on are cyan and all others black: neither the bullet nor
    an invader is ever drawn over the ship. *)
Theorem X17_invaders_frame_keeps_the_ship
    (fade : Z -> Z) (position : Z) (st : invaders_state) (s : ws2812_t)
    (a b : Z) :
  invaders_ok st -> canvas s -> on_matrix a b -> 14 <= b ->
  exists st' over evs strip' hw,
    run_invaders fade (fun _ => true) position st (Some s)
      = Done (st', over, evs, strip', hw) /\
    invaders_ok st' /\
    player_x st' = (if position >? 14 then 14 else position) /\
    (over = true ->
     exists s',
       strip' = Some s' /\ canvas s' /\ brightness s' = brightness s /\
       frames_sent hw = 59%nat /\
       forall j, 0 <= j -> ws2812_get_pixel (Some s') j = Done black) /\
    (over = false ->
     exists s',
       strip' = Some s' /\ canvas s' /\
       existsb transmits hw = true /\ frames_sent hw = 1%nat /\
       ws2812_get_pixel (Some s') (get_index a b) =
         if (player_x st' <=? a) && (a <? player_x st' + 2)
         then Done (mk_pixel 0 255 255) else Done black).
Proof.
  intros Hok Hs Hab Hb.
  destruct (invaders_update_spec position st Hok)
    as (st' & over & evs & Hrun & Hok' & _ & _ & _ & _ & _ & Hpx).
  unfold run_invaders. rewrite Hrun. cbn [obind].
  destruct over.
  - destruct (show_game_over_screen_spec fade (score st') (high_score st')
                s Hs) as (s' & hw & Hscreen & Hs' & Hb' & Hn & Hdark).
    rewrite Hscreen. cbn [obind fst snd].
    exists st', true, evs, (Some s'), hw. split; [reflexivity|].
    split; [exact Hok'|]. split; [exact Hpx|].
    split; [|intros H; discriminate H]. intros _.
    exists s'. split; [reflexivity|]. split; [exact Hs'|].
    split; [exact Hb'|]. split; [exact Hn | exact Hdark].
  - destruct Hok' as (Hlen' & Hby' & Hsum').
    destruct (invaders_render_bottom_rows st' s a b Hlen' ltac:(lia)
                Hs Hab Hb) as (s' & Hrender & Hs' & _ & Hcell).
    rewrite Hrender. cbn [obind].
    destruct (show_display_sends s' Hs') as (hw & Hshow & Hany & Hn).
    rewrite Hshow. cbn [obind snd].
    exists st', false, evs, (Some s'), hw. split; [reflexivity|].
    split; [split; [exact Hlen'|split; [exact Hby'|exact Hsum']]|].
    split; [exact Hpx|].
    split; [intros H; discriminate H|]. intros _.
    exists s'. split; [reflexivity|]. split; [exact Hs'|].
    split; [exact Hany|]. split; [exact Hn | exact Hcell].
Qed.

Lemma last_invader_ok : invaders_ok last_invader.
Proof.
  split; [reflexivity|]. split; [cbn; lia|]. intros _. reflexivity.
Qed.

Lemma last_invader_falls :
  exists st1 evs, invaders_update 0 last_invader = Done (st1, true, evs).
Proof. eexists _, _. vm_compute. reflexivity. Qed.

(** A pass whose update ends the game reports it. *)
Lemma run_invaders_over fade mallocs position st strip st1 evs st' over
    evs' strip' hw :
  invaders_update position st = Done (st1, true, evs) ->
  run_invaders fade mallocs position st strip
    = Done (st', over, evs', strip', hw) ->
  over = true.
Proof.
  intros Hupd Hrun. unfold run_invaders in Hrun. rewrite Hupd in Hrun.
  cbn [obind] in Hrun.
  destruct (show_game_over_screen _ _ _ _ _) as [|screen];
    [discriminate Hrun|].
  cbn [obind] in Hrun. injection Hrun as _ <- _ _ _. reflexivity.
Qed.

Lemma X17_invaders_frame_keeps_the_ship_witness :
  exists st' evs s' hw,
    run_invaders (fun level => level) (fun _ => true) 0 last_invader
      (Some fresh_canvas) = Done (st', true, evs, Some s', hw) /\
    frames_sent hw = 59%nat /\
    ws2812_get_pixel (Some s') (get_index 0 14) = Done black.
Proof.
  destruct (X17_invaders_frame_keeps_the_ship (fun level => level) 0
              last_invader fresh_canvas 0 14 last_invader_ok
              fresh_canvas_is_canvas)
    as (st' & over & evs & strip' & hw & Hrun & _ & _ & Hover & _).
  - unfold on_matrix. lia.
  - lia.
  - assert (Hend : over = true).
    { destruct last_invader_falls as (st1 & evs1 & Hupd).
      exact (run_invaders_over _ _ _ _ _ _ _ _ _ _ _ _ Hupd Hrun). }
    subst over.
    destruct (Hover eq_refl) as (s' & -> & _ & _ & Hn & Hdark).
    exists st', evs, s', hw. split; [exact Hrun|]. split; [exact Hn|].
    apply Hdark. vm_compute. discriminate.
Defined.

End Shooter.

(* ===================================================================== *)
(** * Further properties of the older firmware *)

Section LegacyMenu.

Lemma lor_high_low hi lo :
  0 <= hi -> 0 <= lo < 256 -> Z.lor (Z.shiftl hi 8) lo = 256 * hi + lo.
Proof.
  intros Hhi Hlo.
  rewrite <- Z.add_nocarry_lor.
  - rewrite Z.shiftl_mul_pow2 by lia. change (2 ^ 8) with 256. lia.
  - apply Z.bits_inj'. intros n Hn. rewrite Z.land_spec, Z.bits_0.
    destruct (Z.lt_ge_cases n 8) as [Hlt|Hge].
    + rewrite Z.shiftl_spec_low by lia. reflexivity.
    + rewrite <- (Z.mod_small lo (2 ^ 8)) by (change (2 ^ 8) with 256; lia).
      rewrite Z.mod_pow2_bits_high by lia. apply andb_false_r.
Qed.

(** X18.  The older [read_tof_sensor] returns the 16-bit value made of
    the two bytes it was left with, high byte first, clamped into
    [50..400], whatever the bytes are; the position computed from it is
    within [0..15] and never decreases when that 16-bit value grows. *)
Theorem X18_legacy_read_is_clamped_big_endian (hi lo hi' lo' : Z) :
  0 <= hi < 256 -> 0 <= lo < 256 -> 0 <= hi' < 256 -> 0 <= lo' < 256 ->
  Legacy.read_tof_sensor hi lo = Z.max 50 (Z.min 400 (256 * hi + lo)) /\
  50 <= Legacy.read_tof_sensor hi lo <= 400 /\
  0 <= Legacy.sensor_position (Legacy.read_tof_sensor hi lo) <= 15 /\
  (256 * hi + lo <= 256 * hi' + lo' ->
   Legacy.sensor_position (Legacy.read_tof_sensor hi lo)
   <= Legacy.sensor_position (Legacy.read_tof_sensor hi' lo')).
Proof.
  intros Hhi Hlo Hhi' Hlo'.
  assert (Hread : forall h l, 0 <= h < 256 -> 0 <= l < 256 ->
            Legacy.read_tof_sensor h l = Z.max 50 (Z.min 400 (256 * h + l))).
  { intros h l Hh Hl. unfold Legacy.read_tof_sensor, to_uint16.
    rewrite lor_high_low by lia. rewrite Z.mod_small by lia.
    unfold Z.gtb.
    destruct (Z.ltb_spec (256 * h + l) 50).
    - cbn. lia.
    - destruct (Z.compare_spec (256 * h + l) 400); lia. }
  rewrite !Hread by assumption.
  split; [reflexivity|]. split; [lia|].
  rewrite !legacy_sensor_position.
  split; [apply sensor_position_range|].
  intros Hle. rewrite !sensor_position_floor by lia.
  apply Z.div_le_mono; lia.
Qed.

Lemma X18_legacy_read_is_clamped_big_endian_witness :
  Legacy.read_tof_sensor 1 44 = Z.max 50 (Z.min 400 (256 * 1 + 44)).
Proof.
  apply (X18_legacy_read_is_clamped_big_endian 1 44 1 44); lia.
Defined.

Lemma default_last_cons (a b : Z) (l : list Z) :
  default a (last l) = default b (last (a :: l)).
Proof.
  destruct l as [|x l]; [reflexivity|].
  change (last (a :: x :: l)) with (last (x :: l)).
  destruct (last (x :: l)) eqn:E; [reflexivity|].
  apply last_None in E. discriminate E.
Qed.

Lemma legacy_menu_case_steady d position s :
  Z.abs (d - Legacy.last_dist s) <= 100 ->
  Legacy.current_mode (Legacy.menu_case d position s)
    = Legacy.current_mode s /\
  Legacy.last_dist (Legacy.menu_case d position s) = d.
Proof.
  intros Hd. unfold Legacy.menu_case. cbn [Legacy.current_mode Legacy.last_dist].
  unfold Z.gtb.
  destruct (Z.compare_spec (Z.abs (d - Legacy.last_dist s)) 100);
    split; try reflexivity; lia.
Qed.

(** X19.  In the older menu a game starts on a pass exactly when the
    distance read at the top of the pass is more than 100 mm away from
    the one of the pass before (200 at start-up): a run whose distances
    never move by more than 100 mm leaves the menu shown, and a pass that
    moves further starts the game of the quadrant of its position. *)
Theorem X19_legacy_menu_needs_a_wave
    (passes : list (Z * Z)) (s : Legacy.menu_state) (d position : Z) :
  Legacy.current_mode s = Legacy.MENU ->
  steady_hand (Legacy.last_dist s) (map fst passes) ->
  100 < Z.abs (d - Legacy.last_dist (Legacy.game_task_menu passes s)) ->
  0 <= position <= 15 ->
  Legacy.current_mode (Legacy.game_task_menu passes s) = Legacy.MENU /\
  Legacy.last_dist (Legacy.game_task_menu passes s)
    = default (Legacy.last_dist s) (last (map fst passes)) /\
  Legacy.current_mode
    (Legacy.game_task_menu (passes ++ [(d, position)]) s)
    = match position / 4 with
      | 0 => Legacy.PONG
      | 1 => Legacy.FLAPPY
      | 2 => Legacy.CATCH
      | _ => Legacy.INVADERS
      end /\
  Legacy.current_mode
    (Legacy.game_task_menu (passes ++ [(d, position)]) s) <> Legacy.MENU.
Proof.
  revert s. induction passes as [|[d0 p0] passes IH];
    intros s Hm Hsteady Hjump Hpos.
  - cbn [Legacy.game_task_menu map last default app] in *.
    split; [exact Hm|]. split; [reflexivity|].
    rewrite Hm. unfold Legacy.menu_case. cbn [Legacy.current_mode].
    assert (Habs : (Z.abs (d - Legacy.last_dist s) >? 100) = true)
      by (apply Z.gtb_lt; exact Hjump).
    rewrite Habs, Z.quot_div_nonneg by lia.
    assert (Hq : 0 <= position / 4 <= 3)
      by (Z.div_mod_to_equations; lia).
    assert (Hsel : (position / 4 >? 3) = false).
    { destruct (position / 4 >? 3) eqn:E; [|reflexivity].
      apply Z.gtb_lt in E. lia. }
    rewrite Hsel.
    assert (Hc : position / 4 = 0 \/ position / 4 = 1 \/
                 position / 4 = 2 \/ position / 4 = 3) by lia.
    destruct Hc as [->|[->|[->| ->]]]; split; try reflexivity; discriminate.
  - cbn [map fst steady_hand] in Hsteady. destruct Hsteady as [Hd0 Hrest].
    destruct (legacy_menu_case_steady d0 p0 s Hd0) as [Hmode Hlast].
    cbn [Legacy.game_task_menu app] in *. rewrite Hm in *.
    rewrite <- Hlast in Hrest.
    destruct (IH (Legacy.menu_case d0 p0 s) ltac:(congruence) Hrest Hjump Hpos)
      as (H1 & H2 & H3 & H4).
    split; [exact H1|]. split; [|split; assumption].
    rewrite H2, Hlast. cbn [map fst]. apply default_last_cons.
Qed.

Lemma X19_legacy_menu_needs_a_wave_witness :
  Legacy.current_mode
    (Legacy.game_task_menu ([(220, 7); (260, 9)] ++ [(380, 14)])
       Legacy.menu_init) = Legacy.INVADERS.
Proof.
  refine (proj1 (proj2 (proj2
    (X19_legacy_menu_needs_a_wave [(220, 7); (260, 9)] Legacy.menu_init
       380 14 eq_refl _ _ _)))).
  - cbn [map fst steady_hand Legacy.last_dist Legacy.menu_init].
    split; [lia|]. split; [lia|exact I].
  - vm_compute. reflexivity.
  - lia.
Defined.

End LegacyMenu.

Section LegacyDisplay.

Lemma legacy_bytes_at leds : forall i p,
  leds !! i = Some p ->
  take 3 (drop (3 * i) (legacy_bytes leds)) =
    [Legacy.g p; Legacy.r p; Legacy.b p].
Proof.
  induction leds as [|q leds IH]; intros i p Hp; [discriminate|].
  destruct i as [|i].
  - injection Hp as ->. reflexivity.
  - replace (3 * S i)%nat with (S (S (S (3 * i)))) by lia.
    cbn [legacy_bytes flat_map app drop]. apply IH. exact Hp.
Qed.

Lemma legacy_get_index_off_matrix x y :
  ~ on_matrix x y -> Legacy.get_index x y = -1.
Proof.
  intros Hoff. unfold Legacy.get_index, Legacy.MATRIX_WIDTH,
    Legacy.MATRIX_HEIGHT.
  destruct (Z.ltb_spec x 0); [reflexivity|].
  destruct (Z.geb_spec x 16); [reflexivity|].
  destruct (Z.ltb_spec y 0); [reflexivity|].
  destruct (Z.geb_spec y 16); [reflexivity|].
  exfalso. apply Hoff. unfold on_matrix. lia.
Qed.

Lemma legacy_dimmed_channel c :
  0 <= c <= 255 ->
  to_uint8 (Z.quot (c * Legacy.BRIGHTNESS) 255) = c * 50 / 255 /\
  0 <= c * 50 / 255 <= 50.
Proof.
  intros Hc. unfold Legacy.BRIGHTNESS, to_uint8.
  rewrite Z.quot_div_nonneg by lia.
  assert (Hq : 0 <= c * 50 / 255 <= 50) by (Z.div_mod_to_equations; lia).
  split; [|exact Hq]. apply Z.mod_small. lia.
Qed.

(** X20.  In the older firmware the brightness is applied when a pixel
    is stored, not when the frame is sent: [set_pixel] on a matrix cell
    writes the colour scaled by 50/255 into the one LED [get_index]
    names, [show_display] then sends the array as it is, green, red,
    blue, so the three bytes of that LED on the wire are the scaled
    channels, none above 50, and the bytes of every other LED are what
    they were; off the matrix [set_pixel] changes nothing. *)
Theorem X20_legacy_pixel_is_dimmed_when_stored
    (leds : list Legacy.rgb_t) (x y : Z) (color : Legacy.rgb_t) :
  length leds = 256%nat ->
  0 <= Legacy.r color <= 255 ->
  0 <= Legacy.g color <= 255 ->
  0 <= Legacy.b color <= 255 ->
  (on_matrix x y ->
   exists leds',
     Legacy.set_pixel leds x y color = Done leds' /\
     Legacy.show_display true leds' =
       Done (tt, [RmtWriteItems 0 (legacy_train (legacy_bytes leds')) 6144;
                  FreeItems]) /\
     take 3 (drop (3 * Z.to_nat (Legacy.get_index x y)) (legacy_bytes leds'))
       = [Legacy.g color * 50 / 255; Legacy.r color * 50 / 255;
          Legacy.b color * 50 / 255] /\
     Forall (fun v => 0 <= v <= 50)
       (take 3 (drop (3 * Z.to_nat (Legacy.get_index x y))
                  (legacy_bytes leds'))) /\
     forall j, j <> Z.to_nat (Legacy.get_index x y) -> (j < 256)%nat ->
       take 3 (drop (3 * j) (legacy_bytes leds'))
       = take 3 (drop (3 * j) (legacy_bytes leds))) /\
  (~ on_matrix x y -> Legacy.set_pixel leds x y color = Done leds).
Proof.
  intros Hlen Hr Hg Hb. split.
  - intros Hon.
    destruct (legacy_get_index_on_matrix x y Hon) as (_ & Hidx & _).
    destruct (legacy_dimmed_channel _ Hr) as [Er Br].
    destruct (legacy_dimmed_channel _ Hg) as [Eg Bg].
    destruct (legacy_dimmed_channel _ Hb) as [Eb Bb].
    set (idx := Z.to_nat (Legacy.get_index x y)).
    assert (Hin : (idx < length leds)%nat) by (subst idx; lia).
    set (c := {| Legacy.r := Legacy.r color * 50 / 255;
                 Legacy.g := Legacy.g color * 50 / 255;
                 Legacy.b := Legacy.b color * 50 / 255 |}).
    assert (Hat : take 3 (drop (3 * idx) (legacy_bytes (<[idx := c]> leds)))
                  = [Legacy.g c; Legacy.r c; Legacy.b c]).
    { apply legacy_bytes_at. apply list_lookup_insert_eq. exact Hin. }
    exists (<[idx := c]> leds).
    split.
    { unfold Legacy.set_pixel, Legacy.LED_COUNT, Legacy.MATRIX_WIDTH,
        Legacy.MATRIX_HEIGHT.
      destruct (Z.leb_spec 0 (Legacy.get_index x y)); [|lia].
      destruct (Z.ltb_spec (Legacy.get_index x y) (16 * 16)); [|lia].
      cbn [andb]. rewrite Er, Eg, Eb. fold idx. fold c.
      apply store_in_range. exact Hin. }
    split.
    { apply legacy_show_display. rewrite length_insert. rewrite Hlen.
      reflexivity. }
    split; [exact Hat|].
    split.
    { rewrite Hat. cbn [Legacy.g Legacy.r Legacy.b c].
      repeat constructor; lia. }
    intros j Hj Hlt.
    destruct (lookup_lt_is_Some_2 leds j ltac:(lia)) as [p Hp].
    rewrite (legacy_bytes_at leds j p Hp).
    apply legacy_bytes_at. rewrite list_lookup_insert_ne by congruence.
    exact Hp.
  - intros Hoff. unfold Legacy.set_pixel.
    rewrite (legacy_get_index_off_matrix x y Hoff). reflexivity.
Qed.

Lemma X20_legacy_pixel_is_dimmed_when_stored_witness :
  Legacy.set_pixel (replicate 256 (Legacy.mk_rgb 0 0 0)) 16 0
    (Legacy.mk_rgb 255 128 0)
  = Done (replicate 256 (Legacy.mk_rgb 0 0 0)).
Proof.
  refine (proj2 (X20_legacy_pixel_is_dimmed_when_stored
    (replicate 256 (Legacy.mk_rgb 0 0 0)) 16 0 (Legacy.mk_rgb 255 128 0)
    eq_refl _ _ _) _).
  - cbn. lia.
  - cbn. lia.
  - cbn. lia.
  - unfold on_matrix. lia.
Defined.

End LegacyDisplay.

Section LegacyMenuFrame.

Lemma rgb_eqb_eq p q : rgb_eqb p q = true -> p = q.
Proof.
  destruct p, q. unfold rgb_eqb. cbn [Legacy.r Legacy.g Legacy.b].
  intros H. apply andb_prop in H as [H Hb]. apply andb_prop in H as [Hr Hg].
  apply Z.eqb_eq in Hr, Hg, Hb. congruence.
Qed.

Lemma all_cells_spec test :
  all_cells test = true ->
  forall x y, on_matrix x y -> test x y = true.
Proof.
  unfold all_cells. intros Hall x y [Hx Hy].
  rewrite forallb_forall in Hall.
  specialize (Hall (Z.to_nat y)). rewrite in_seq in Hall.
  specialize (Hall ltac:(lia)). rewrite forallb_forall in Hall.
  specialize (Hall (Z.to_nat x)). rewrite in_seq in Hall.
  specialize (Hall ltac:(lia)). rewrite !Z2Nat.id in Hall by lia.
  exact Hall.
Qed.

Lemma legacy_clear_display leds :
  Legacy.clear_display leds = replicate (length leds) (Legacy.mk_rgb 0 0 0).
Proof.
  unfold Legacy.clear_display.
  induction leds as [|p leds IH]; [reflexivity|].
  cbn [map length replicate]. rewrite IH. reflexivity.
Qed.

(** The frame does not depend on what the array held before. *)
Lemma menu_frame_from_dark sel leds :
  length leds = 256%nat ->
  Legacy.menu_frame sel leds =
    Legacy.menu_frame sel (replicate 256 (Legacy.mk_rgb 0 0 0)).
Proof.
  intros Hlen. unfold Legacy.menu_frame.
  rewrite !legacy_clear_display, Hlen, length_replicate. reflexivity.
Qed.

Lemma menu_frame_cells sel :
  0 <= sel <= 3 ->
  exists frame,
    Legacy.menu_frame sel (replicate 256 (Legacy.mk_rgb 0 0 0)) = Done frame /\
    length frame = 256%nat /\
    all_cells (legacy_cell_is frame (menu_cell sel)) = true.
Proof.
  intros Hsel.
  assert (Hc : sel = 0 \/ sel = 1 \/ sel = 2 \/ sel = 3) by lia.
  destruct Hc as [->|[->|[->| ->]]].
  - eexists. split; [vm_compute; reflexivity|].
    split; vm_compute; reflexivity.
  - eexists. split; [vm_compute; reflexivity|].
    split; vm_compute; reflexivity.
  - eexists. split; [vm_compute; reflexivity|].
    split; vm_compute; reflexivity.
  - eexists. split; [vm_compute; reflexivity|].
    split; vm_compute; reflexivity.
Qed.

(** X21.  The older menu, for each of the four selections and whatever
    the LED array held before: [draw_menu] ends normally and sends one
    frame in which the selected quadrant has a white border and its icon
    in the colour of its game (red, yellow, green, cyan), the icons of
    the three other quadrants are grey and every other cell is dark, all
    at brightness 50. *)
Theorem X21_legacy_menu_highlights_selection
    (sel : Z) (leds : list Legacy.rgb_t) :
  0 <= sel <= 3 ->
  length leds = 256%nat ->
  exists frame,
    Legacy.draw_menu true sel leds =
      Done (frame,
            [RmtWriteItems 0 (legacy_train (legacy_bytes frame)) 6144;
             FreeItems]) /\
    forall x y, on_matrix x y ->
      frame !! Z.to_nat (Legacy.get_index x y) = Some (menu_cell sel x y).
Proof.
  intros Hsel Hlen.
  destruct (menu_frame_cells sel Hsel) as (frame & Hframe & Hflen & Hcells).
  exists frame. split.
  - unfold Legacy.draw_menu.
    rewrite (menu_frame_from_dark sel leds Hlen), Hframe. cbn [obind].
    rewrite (legacy_show_display frame) by (rewrite Hflen; reflexivity).
    reflexivity.
  - intros x y Hon.
    pose proof (all_cells_spec _ Hcells x y Hon) as Hcell.
    unfold legacy_cell_is in Hcell.
    destruct (frame !! Z.to_nat (Legacy.get_index x y)) as [p|];
      [|discriminate Hcell].
    apply rgb_eqb_eq in Hcell. rewrite Hcell. reflexivity.
Qed.

Lemma X21_legacy_menu_highlights_selection_witness :
  exists frame,
    Legacy.draw_menu true 2 (replicate 256 (Legacy.mk_rgb 9 9 9)) =
      Done (frame,
            [RmtWriteItems 0 (legacy_train (legacy_bytes frame)) 6144;
             FreeItems]) /\
    frame !! Z.to_nat (Legacy.get_index 3 11) = Some (Legacy.mk_rgb 0 50 0).
Proof.
  destruct (X21_legacy_menu_highlights_selection 2
              (replicate 256 (Legacy.mk_rgb 9 9 9)) ltac:(lia) eq_refl)
    as (frame & Hrun & Hcells).
  exists frame. split; [exact Hrun|].
  apply (Hcells 3 11). unfold on_matrix. lia.
Defined.

End LegacyMenuFrame.

Section LegacyShooter.

Lemma legacy_invaders_render_from_dark st leds :
  length leds = 256%nat ->
  Legacy.invaders_render st leds =
    Legacy.invaders_render st (replicate 256 (Legacy.mk_rgb 0 0 0)).
Proof.
  intros Hlen. unfold Legacy.invaders_render.
  rewrite !legacy_clear_display, Hlen, length_replicate. reflexivity.
Qed.

Lemma legacy_invaders_frames :
  forallb (fun p =>
    match Legacy.invaders_render
            (Legacy.mk_invaders (Z.of_nat p) (replicate 20 1) true)
            (replicate 256 (Legacy.mk_rgb 0 0 0)) with
    | Done frame =>
        Nat.eqb (length frame) 256 &&
        all_cells (legacy_cell_is frame (legacy_invaders_cell (Z.of_nat p)))
    | Fault => false
    end) (seq 0 15) = true.
Proof. vm_compute. reflexivity. Qed.

Lemma legacy_revive st :
  legacy_invaders_ok st ->
  (if negb (Legacy.initialized st) then Legacy.revive 20 0 (Legacy.invaders st)
   else Done (Legacy.invaders st)) = Done (replicate 20 1).
Proof.
  unfold legacy_invaders_ok. intros ->.
  destruct (Legacy.initialized st); reflexivity.
Qed.

(** X22.  The older shooter has no bullets: from its start-up statics
    on, every pass leaves all twenty invaders alive and sends one frame
    with the 2x2 ship on the two bottom rows at the sensor position,
    held back to column 14 so that it stays on the matrix, the invaders
    in green on rows 1, 3, 5 and 7 and every other cell dark, whatever
    the LED array held before. *)
Theorem X22_legacy_invaders_never_die
    (position : Z) (st : Legacy.invaders_state) (leds : list Legacy.rgb_t) :
  0 <= position <= 15 ->
  length leds = 256%nat ->
  legacy_invaders_ok st ->
  exists st' frame,
    Legacy.run_invaders true position st leds =
      Done (st', frame,
            [RmtWriteItems 0 (legacy_train (legacy_bytes frame)) 6144;
             FreeItems]) /\
    legacy_invaders_ok st' /\
    Legacy.initialized st' = true /\
    Legacy.player_x st' = Z.min position 14 /\
    forall x y, on_matrix x y ->
      frame !! Z.to_nat (Legacy.get_index x y)
      = Some (legacy_invaders_cell (Z.min position 14) x y).
Proof.
  intros Hpos Hlen Hok.
  assert (Hpx : (if position >? 14 then 14 else position) = Z.min position 14).
  { destruct (position >? 14) eqn:E.
    - apply Z.gtb_lt in E. lia.
    - destruct (Z.gtb_spec position 14); [discriminate E|lia]. }
  pose proof legacy_invaders_frames as Hall.
  rewrite forallb_forall in Hall.
  specialize (Hall (Z.to_nat (Z.min position 14))).
  rewrite in_seq in Hall. specialize (Hall ltac:(lia)).
  rewrite Z2Nat.id in Hall by lia.
  destruct (Legacy.invaders_render
              (Legacy.mk_invaders (Z.min position 14) (replicate 20 1) true)
              (replicate 256 (Legacy.mk_rgb 0 0 0))) as [|frame] eqn:Hrender;
    [discriminate Hall|].
  apply andb_prop in Hall as [Hflen Hcells].
  apply Nat.eqb_eq in Hflen.
  exists (Legacy.mk_invaders (Z.min position 14) (replicate 20 1) true), frame.
  split.
  { unfold Legacy.run_invaders.
    rewrite (legacy_revive st Hok). cbn [obind]. rewrite Hpx.
    rewrite (legacy_invaders_render_from_dark _ leds Hlen), Hrender.
    cbn [obind].
    rewrite (legacy_show_display frame) by (rewrite Hflen; reflexivity).
    reflexivity. }
  split; [reflexivity|]. split; [reflexivity|]. split; [reflexivity|].
  intros x y Hon.
  pose proof (all_cells_spec _ Hcells x y Hon) as Hcell.
  unfold legacy_cell_is in Hcell.
  destruct (frame !! Z.to_nat (Legacy.get_index x y)) as [p|];
    [|discriminate Hcell].
  apply rgb_eqb_eq in Hcell. rewrite Hcell. reflexivity.
Qed.

Lemma X22_legacy_invaders_never_die_witness :
  exists st' frame,
    Legacy.run_invaders true 15 Legacy.invaders_statics
      (replicate 256 (Legacy.mk_rgb 9 9 9)) =
      Done (st', frame,
            [RmtWriteItems 0 (legacy_train (legacy_bytes frame)) 6144;
             FreeItems]) /\
    Legacy.player_x st' = 14 /\
    frame !! Z.to_nat (Legacy.get_index 15 15) = Some (Legacy.mk_rgb 0 50 50).
Proof.
  destruct (X22_legacy_invaders_never_die 15 Legacy.invaders_statics
              (replicate 256 (Legacy.mk_rgb 9 9 9)) ltac:(lia) eq_refl eq_refl)
    as (st' & frame & Hrun & _ & _ & Hpx & Hcells).
  exists st', frame. split; [exact Hrun|]. split; [exact Hpx|].
  apply (Hcells 15 15). unfold on_matrix. lia.
Defined.

End LegacyShooter.
